(** * Educa-Lukunde: sheet rule engine, sheet store and access control

    A shallow embedding of the TypeScript sources

      - [components/Spreadsheet.tsx]  ([getCellStyle]),
      - [utils/excelUtils.ts]         ([splitSheetByColumn]),
      - [App.tsx]                     ([validateValue], [updateCell],
                                       [handleDuplicateSheet], [handleDeleteSheet],
                                       [handleUnlockSheet] and the other handlers
                                       that write the sheet collection),

    together with the part of the JavaScript runtime these functions rest on
    (strings, IEEE 754 binary64 numbers, [Number], [parseFloat], [toFixed],
    [String], sparse arrays, own-property order of plain objects).

    Conventions of the model.
    - A JavaScript string is a [string]: a sequence of code units, one [ascii]
      per unit, so the alphabet is U+0000..U+00FF (Latin-1).  Source literals
      outside ASCII are spelled with their code unit, e.g. ["233"%char] for
      U+00E9.
    - A JavaScript number is a [spec_float] at precision 53 and maximal
      exponent 1024, i.e. an IEEE 754 binary64 value without NaN payload.
    - An array with holes is a [list (option A)]; [None] is a hole. *)

From Stdlib Require Import ZArith NArith List String Ascii Bool Lia.
From Stdlib Require Import SpecFloat DecimalString.
From stdpp Require Import gmap strings list.

Local Open Scope Z_scope.

(* ===================================================================== *)
(** * The JavaScript runtime: strings                                     *)
(* ===================================================================== *)

Module Js.

Definition code (c : ascii) : N := N_of_ascii c.

Definition inRange (lo hi : N) (c : ascii) : bool :=
  (lo <=? code c)%N && (code c <=? hi)%N.

Definition isDigit (c : ascii) : bool := inRange 48 57 c.

(** [WhiteSpace] and [LineTerminator] code units below U+0100:
    TAB, LF, VT, FF, CR, SP and NBSP. *)
Definition isWhiteSpace (c : ascii) : bool :=
  inRange 9 13 c || (code c =? 32)%N || (code c =? 160)%N.

Fixpoint trimStart (s : string) : string :=
  match s with
  | EmptyString => EmptyString
  | String c s' => if isWhiteSpace c then trimStart s' else s
  end.

Fixpoint trimEnd (s : string) : string :=
  match s with
  | EmptyString => EmptyString
  | String c s' =>
      match trimEnd s' with
      | EmptyString => if isWhiteSpace c then EmptyString else String c EmptyString
      | t => String c t
      end
  end.

(** [String.prototype.trim]. *)
Definition trim (s : string) : string := trimEnd (trimStart s).

Definition shift (c : ascii) (d : Z) : ascii :=
  ascii_of_N (Z.to_N (Z.of_N (code c) + d)).

(** Simple case mappings of the Latin-1 block: A..Z and U+00C0..U+00DE
    (without the multiplication sign U+00D7) have their small letter 32
    code units above. *)
Definition lowerChar (c : ascii) : ascii :=
  if inRange 65 90 c || (inRange 192 222 c && negb (code c =? 215)%N)
  then shift c 32 else c.

Fixpoint toLowerCase (s : string) : string :=
  match s with
  | EmptyString => EmptyString
  | String c s' => String (lowerChar c) (toLowerCase s')
  end.

(** Upper-casing: a..z and U+00E0..U+00FE (without the division sign U+00F7)
    map 32 code units down; U+00DF (sharp s) becomes "SS".  The capitals of
    U+00B5 and U+00FF, U+039C and U+0178, lie outside Latin-1 and so
    outside the strings of this development: the model leaves these two
    letters as they are, and agrees with the source on every text that
    has neither. *)
Fixpoint toUpperCase (s : string) : string :=
  match s with
  | EmptyString => EmptyString
  | String c s' =>
      if (code c =? 223)%N then String "S" (String "S" (toUpperCase s'))
      else if inRange 97 122 c || (inRange 224 254 c && negb (code c =? 247)%N)
           then String (shift c (-32)) (toUpperCase s')
           else String c (toUpperCase s')
  end.

Fixpoint startsWith (s p : string) : bool :=
  match p, s with
  | EmptyString, _ => true
  | String _ _, EmptyString => false
  | String b p', String a s' => Ascii.eqb a b && startsWith s' p'
  end.

(** [String.prototype.includes]. *)
Fixpoint includes (s t : string) : bool :=
  startsWith s t ||
  match s with
  | EmptyString => false
  | String _ s' => includes s' t
  end.

(** [s.replace(a, b)] for one-character strings [a] and [b]: only the first
    occurrence is replaced. *)
Fixpoint replaceFirst (a b : ascii) (s : string) : string :=
  match s with
  | EmptyString => EmptyString
  | String c s' => if Ascii.eqb c a then String b s' else String c (replaceFirst a b s')
  end.

Fixpoint dropChars (n : nat) (s : string) : string :=
  match n, s with
  | O, _ => s
  | S n', String _ s' => dropChars n' s'
  | S _, EmptyString => EmptyString
  end.

Fixpoint repeatChar (c : ascii) (n : nat) : string :=
  match n with
  | O => EmptyString
  | S n' => String c (repeatChar c n')
  end.

(** Strict equality of two strings. *)
Definition strEq (a b : string) : bool := String.eqb a b.

(** [a < b] on strings: lexicographic on code units. *)
Definition strLt (a b : string) : bool := String.ltb a b.

(* ===================================================================== *)
(** * The JavaScript runtime: numbers                                     *)
(* ===================================================================== *)

Definition prec : Z := 53.
Definition emax : Z := 1024.

(** The Number type. *)
Definition number : Type := spec_float.

Definition NaN : number := S754_nan.
Definition Infinity (neg : bool) : number := S754_infinity neg.

Definition isNaN (x : number) : bool :=
  match x with S754_nan => true | _ => false end.

Definition numAdd (x y : number) : number := SFadd prec emax x y.
Definition numDiv (x y : number) : number := SFdiv prec emax x y.
Definition numMul (x y : number) : number := SFmul prec emax x y.

(** [x < y], [x > y], [x <= y], [x >= y] and [x === y] on numbers; every
    comparison with NaN is false, and the two zeros are equal. *)
Definition numLt (x y : number) : bool := SFltb x y.
Definition numGt (x y : number) : bool := SFltb y x.
Definition numLe (x y : number) : bool := SFleb x y.
Definition numGe (x y : number) : bool := SFleb y x.
Definition numEq (x y : number) : bool := SFeqb x y.

(** The number nearest to [m * 10^e] (ties to even), with the sign [neg]:
    the rounding of the mathematical value of a decimal literal. *)
Definition fromDecimal (neg : bool) (m : N) (e : Z) : number :=
  match m with
  | N0 => S754_zero neg
  | Npos p =>
      if 0 <=? e
      then binary_normalize prec emax (cond_Zopp neg (Zpos p * 10 ^ e)) 0 neg
      else SFdiv prec emax (S754_finite neg p 0)
                           (S754_finite false (Z.to_pos (10 ^ (- e))) 0)
  end.

Definition ofZ (z : Z) : number := binary_normalize prec emax z 0 false.

(** ** Scanning numeric literals *)

Fixpoint spanDigits (s : string) : string * string :=
  match s with
  | String c s' =>
      if isDigit c then let '(d, r) := spanDigits s' in (String c d, r)
      else (EmptyString, s)
  | EmptyString => (EmptyString, EmptyString)
  end.

Definition digitVal (c : ascii) : N := (code c - 48)%N.

Fixpoint digitsValueFrom (acc : N) (s : string) : N :=
  match s with
  | EmptyString => acc
  | String c s' => digitsValueFrom (acc * 10 + digitVal c)%N s'
  end.

Definition digitsValue (s : string) : N := digitsValueFrom 0%N s.

Definition strLen (s : string) : Z := Z.of_nat (String.length s).

(** An optional [ExponentPart] at the head of [s]: its value and the rest.
    An "e" that no digit follows is not part of the literal. *)
Definition scanExponent (s : string) : Z * string :=
  match s with
  | String c r =>
      if Ascii.eqb c "e" || Ascii.eqb c "E" then
        let '(neg, r1) :=
          match r with
          | String sg r' =>
              if Ascii.eqb sg "-" then (true, r')
              else if Ascii.eqb sg "+" then (false, r')
              else (false, r)
          | EmptyString => (false, r)
          end in
        let '(ds, r2) := spanDigits r1 in
        match ds with
        | EmptyString => (0, s)
        | _ => (cond_Zopp neg (Z.of_N (digitsValue ds)), r2)
        end
      else (0, s)
  | EmptyString => (0, s)
  end.

(** The longest prefix of [s] that is a [StrUnsignedDecimalLiteral], as its
    value with sign [neg], and the rest of [s]. *)
Definition scanUnsigned (neg : bool) (s : string) : option (number * string) :=
  if startsWith s "Infinity" then Some (Infinity neg, dropChars 8 s)
  else
    let '(ip, r1) := spanDigits s in
    match r1 with
    | String "." r2 =>
        let '(fp, r3) := spanDigits r2 in
        match ip, fp with
        | EmptyString, EmptyString => None
        | _, _ =>
            let '(ex, r4) := scanExponent r3 in
            Some (fromDecimal neg (digitsValue (ip +:+ fp)) (ex - strLen fp), r4)
        end
    | _ =>
        match ip with
        | EmptyString => None
        | _ =>
            let '(ex, r4) := scanExponent r1 in
            Some (fromDecimal neg (digitsValue ip) ex, r4)
        end
    end.

(** The longest prefix that is a [StrDecimalLiteral] (an optional sign and
    an unsigned literal). *)
Definition scanDecimal (s : string) : option (number * string) :=
  match s with
  | String "-" r => scanUnsigned true r
  | String "+" r => scanUnsigned false r
  | _ => scanUnsigned false s
  end.

(** Digits of the non-decimal integer literals. *)
Definition radixDigit (radix : N) (c : ascii) : option N :=
  let d :=
    if isDigit c then Some (digitVal c)
    else if inRange 97 102 c then Some (code c - 87)%N
    else if inRange 65 70 c then Some (code c - 55)%N
    else None in
  match d with
  | Some v => if (v <? radix)%N then Some v else None
  | None => None
  end.

Fixpoint radixValueFrom (radix acc : N) (s : string) : option N :=
  match s with
  | EmptyString => Some acc
  | String c s' =>
      match radixDigit radix c with
      | Some v => radixValueFrom radix (acc * radix + v)%N s'
      | None => None
      end
  end.

(** [NonDecimalIntegerLiteral]: 0x.., 0o.., 0b.. with at least one digit. *)
Definition scanNonDecimal (s : string) : option (option number) :=
  match s with
  | String "0" (String p r) =>
      let radix :=
        if Ascii.eqb p "x" || Ascii.eqb p "X" then Some 16%N
        else if Ascii.eqb p "o" || Ascii.eqb p "O" then Some 8%N
        else if Ascii.eqb p "b" || Ascii.eqb p "B" then Some 2%N
        else None in
      match radix, r with
      | Some _, EmptyString => Some None
      | Some rd, _ => Some (option_map (fun v => ofZ (Z.of_N v)) (radixValueFrom rd 0%N r))
      | None, _ => None
      end
  | _ => None
  end.

(** [StringToNumber]: the whole trimmed string must be a numeric literal;
    the empty string is [+0]. *)
Definition StringToNumber (s : string) : number :=
  match trim s with
  | EmptyString => S754_zero false
  | t =>
      match scanNonDecimal t with
      | Some (Some v) => v
      | Some None => NaN
      | None =>
          match scanDecimal t with
          | Some (v, EmptyString) => v
          | _ => NaN
          end
      end
  end.

(** The global [parseFloat] applied to a string. *)
Definition parseFloat (s : string) : number :=
  match scanDecimal (trimStart s) with
  | Some (v, _) => v
  | None => NaN
  end.

(** ** Printing numbers *)

(** Decimal digits of a natural number ("0" for zero). *)
Definition decimal (n : N) : string := NilEmpty.string_of_uint (N.to_uint n).

(** A positive finite number [m * 2^e] as the fraction [num / den]. *)
Definition numerator (m : positive) (e : Z) : Z :=
  if 0 <=? e then Zpos m * 2 ^ e else Zpos m.
Definition denominator (e : Z) : Z :=
  if 0 <=? e then 1 else 2 ^ (- e).

(** [num / den] scaled by [10^(-sc)], again as a fraction. *)
Definition scaledNum (num sc : Z) : Z := if 0 <=? sc then num else num * 10 ^ (- sc).
Definition scaledDen (den sc : Z) : Z := if 0 <=? sc then den * 10 ^ sc else den.

Definition sameNumber (x y : number) : bool :=
  match x, y with
  | S754_zero a, S754_zero b => Bool.eqb a b
  | S754_infinity a, S754_infinity b => Bool.eqb a b
  | S754_nan, S754_nan => true
  | S754_finite a m e, S754_finite b m' e' => Bool.eqb a b && (m =? m')%positive && (e =? e')
  | _, _ => false
  end.

(** The least [n >= lo] with [num / den < 10^n], looking at [fuel] values. *)
Fixpoint decimalExponent (fuel : nat) (num den n : Z) : Z :=
  match fuel with
  | O => n
  | S fuel' =>
      if scaledNum num n <? scaledDen den n then n
      else decimalExponent fuel' num den (n + 1)
  end.

(** The shortest digit string [s] and scale [sc] such that [s * 10^sc] reads
    back as [x = num / den]; among two candidates of one length the one
    nearer to [x], the even one on a tie.  [k] counts the digits tried. *)
Fixpoint shortestDigits (fuel : nat) (x : number) (num den n k : Z) : N * Z :=
  let sc := n - k in
  let lo := scaledNum num sc / scaledDen den sc in
  let hi := lo + 1 in
  let okLo := sameNumber (fromDecimal false (Z.to_N lo) sc) x in
  let okHi := sameNumber (fromDecimal false (Z.to_N hi) sc) x in
  let nearer :=
    match 2 * scaledNum num sc ?= (2 * lo + 1) * scaledDen den sc with
    | Lt => lo
    | Gt => hi
    | Eq => if Z.even lo then lo else hi
    end in
  match fuel with
  | O => (Z.to_N lo, sc)
  | S fuel' =>
      if okLo && okHi then (Z.to_N nearer, sc)
      else if okLo then (Z.to_N lo, sc)
      else if okHi then (Z.to_N hi, sc)
      else shortestDigits fuel' x num den n (k + 1)
  end.

Fixpoint stripZerosRev (s : list ascii) : list ascii :=
  match s with
  | c :: s' => if Ascii.eqb c "0" then stripZerosRev s' else s
  | [] => []
  end.

Definition stripTrailingZeros (s : string) : string :=
  string_of_list_ascii (rev (stripZerosRev (rev (list_ascii_of_string s)))).

Fixpoint takeChars (n : nat) (s : string) : string :=
  match n, s with
  | O, _ => EmptyString
  | S n', String c s' => String c (takeChars n' s')
  | S _, EmptyString => EmptyString
  end.

(** [Number::toString] of a positive finite number, from its digits [ds]
    and the position [n] of the decimal point. *)
Definition formatDigits (ds : string) (n : Z) : string :=
  let k := strLen ds in
  if (k <=? n) && (n <=? 21) then ds +:+ repeatChar "0" (Z.to_nat (n - k))
  else if (0 <? n) && (n <=? 21) then
    takeChars (Z.to_nat n) ds +:+ "." +:+ dropChars (Z.to_nat n) ds
  else if (-6 <? n) && (n <=? 0) then
    "0." +:+ repeatChar "0" (Z.to_nat (- n)) +:+ ds
  else
    let ex := (if 0 <=? n - 1 then "+" else "-") +:+ decimal (Z.to_N (Z.abs (n - 1))) in
    match ds with
    | String d EmptyString => String d ("e" +:+ ex)
    | String d rest => String d ("." +:+ rest +:+ "e" +:+ ex)
    | EmptyString => EmptyString
    end.

(** [Number::toString(x)] in radix 10. *)
Definition numberToString (x : number) : string :=
  match x with
  | S754_nan => "NaN"
  | S754_zero _ => "0"
  | S754_infinity neg => (if neg then "-" else "") +:+ "Infinity"
  | S754_finite neg m e =>
      let num := numerator m e in
      let den := denominator e in
      let n := decimalExponent 700 num den (-330) in
      let '(s, sc) := shortestDigits 17 (S754_finite false m e) num den n 1 in
      let all := decimal s in
      (if neg then "-" else "") +:+ formatDigits (stripTrailingZeros all) (strLen all + sc)
  end.

(** [x.toFixed(1)]: with [n] the integer nearest to [10 * x] (the larger one
    on a tie), the digits of [n] with a point before the last one. *)
Definition toFixed1 (x : number) : string :=
  match x with
  | S754_finite neg m e =>
      let num := numerator m e in
      let den := denominator e in
      if 10 ^ 21 * den <=? num then numberToString x
      else
        let n := (20 * num + den) / (2 * den) in
        let ds := decimal (Z.to_N n) in
        let body :=
          match ds with
          | String d EmptyString => "0." +:+ ds
          | _ => takeChars (String.length ds - 1) ds +:+ "." +:+
                 dropChars (String.length ds - 1) ds
          end in
        (if neg then "-" else "") +:+ body
  | S754_zero _ => "0.0"
  | _ => numberToString x
  end.

(* ===================================================================== *)
(** * The JavaScript runtime: values and arrays                           *)
(* ===================================================================== *)

(** The values a cell, a rule bound or a handler argument can hold:
    [string | number | boolean | null], and [undefined] (what reading an
    absent element gives). *)
Inductive value : Type :=
  | VStr (s : string)
  | VNum (x : number)
  | VBool (b : bool)
  | VNull
  | VUndefined.

Definition isZero (x : number) : bool :=
  match x with S754_zero _ => true | _ => false end.

(** [ToBoolean]. *)
Definition truthy (v : value) : bool :=
  match v with
  | VStr s => negb (strEq s "")
  | VNum x => negb (isNaN x || isZero x)
  | VBool b => b
  | VNull | VUndefined => false
  end.

(** [v || d]. *)
Definition orElse (v d : value) : value := if truthy v then v else d.

(** [String(v)]. *)
Definition ToString (v : value) : string :=
  match v with
  | VStr s => s
  | VNum x => numberToString x
  | VBool true => "true"
  | VBool false => "false"
  | VNull => "null"
  | VUndefined => "undefined"
  end.

(** [Number(v)]. *)
Definition ToNumber (v : value) : number :=
  match v with
  | VStr s => StringToNumber s
  | VNum x => x
  | VBool true => ofZ 1
  | VBool false => S754_zero false
  | VNull => S754_zero false
  | VUndefined => NaN
  end.

(** [v === w] where [w] is a string. *)
Definition isString (v : value) (w : string) : bool :=
  match v with VStr s => strEq s w | _ => false end.

(** An array that may have holes. *)
Definition array (A : Type) : Type := list (option A).

(** [a[i]]: the element, if there is one. *)
Definition at_ {A} (a : array A) (i : nat) : option A :=
  match nth_error a i with
  | Some o => o
  | None => None
  end.

(** [a[i] = v]: an index past the end extends the array with holes. *)
Fixpoint setAt {A} (a : array A) (i : nat) (v : A) : array A :=
  match i, a with
  | O, [] => [Some v]
  | O, _ :: t => Some v :: t
  | S i', [] => None :: setAt [] i' v
  | S i', x :: t => x :: setAt t i' v
  end.

(** The outcome of code that may throw a [TypeError]. *)
Inductive result (A : Type) : Type :=
  | Ok (a : A)
  | TypeError.
Arguments Ok {A} a.
Arguments TypeError {A}.

Definition bind {A B} (r : result A) (k : A -> result B) : result B :=
  match r with
  | Ok a => k a
  | TypeError => TypeError
  end.

End Js.

Notation "'let!' x ':=' r 'in' k" := (Js.bind r (fun x => k))
  (at level 10, x name, r at level 100, k at level 200).

Import Js.

(* ===================================================================== *)
(** * The data model ([types.ts])                                         *)
(* ===================================================================== *)

(** A cell as stored in a row: [CellValue], or [undefined] where a sparse
    row was copied. *)
Definition CellValue : Type := value.

(** A row is an array of cells, possibly with holes. *)
Definition Row : Type := array CellValue.

(** [SheetData]: the rows; [None] is an absent row ([null], [undefined] or a
    hole of the outer array, which the code never tells apart). *)
Definition SheetData : Type := array Row.

(** [row[c]]: a hole or an index out of range reads as [undefined]. *)
Definition cell (row : Row) (c : nat) : CellValue :=
  match at_ row c with
  | Some v => v
  | None => VUndefined
  end.

Module ConditionType.
Inductive t : Type := gt | lt | eq | gte | lte | contains.
End ConditionType.

Module ConditionalStyle.
Record t : Type := {
  backgroundColor : string;
  color : string;
  name : string;
}.
End ConditionalStyle.

Module ConditionalRule.
Record t : Type := {
  id : string;
  columnIndex : nat;
  condition : ConditionType.t;
  value : Js.value;         (* string | number *)
  style : ConditionalStyle.t;
}.
End ConditionalRule.

Module ValidationType.
Inductive t : Type := number | text | date | list | email.
End ValidationType.

Module ValidationRule.
Record t : Type := {
  id : string;
  columnIndex : nat;
  type : ValidationType.t;
  min : option string;
  max : option string;
  options : option (list string);
  errorMessage : option string;
}.
End ValidationRule.

Module Sheet.
Record t : Type := {
  id : string;
  name : string;
  data : SheetData;
  conditionalFormats : option (list ConditionalRule.t);
  validationRules : option (list ValidationRule.t);
  editCode : option string;
  viewCode : option string;
  accessCode : option string;
  accessCodeExpiration : option Js.number;
  isShared : option bool;
}.
End Sheet.

(* ===================================================================== *)
(** * Conditional formats ([components/Spreadsheet.tsx])                  *)
(* ===================================================================== *)

(** The style object [getCellStyle] returns for a match. *)
Module CellStyle.
Record t : Type := {
  backgroundColor : string;
  color : string;
  fontWeight : string;
}.
End CellStyle.

(** [typeof value === 'string' ? value.replace(',', '.') : value] *)
Definition normalizedValue (v : CellValue) : value :=
  match v with
  | VStr s => VStr (replaceFirst "," "." s)
  | _ => v
  end.

(** [!isNaN(numValue) && value !== "" && value !== null] *)
Definition isNumber (v : CellValue) : bool :=
  negb (isNaN (ToNumber (normalizedValue v)))
  && negb (isString v "")
  && negb (match v with VNull => true | _ => false end).

(** The body of the loop of [getCellStyle]: the value of [match] after the
    rule was examined. *)
Definition ruleMatches (v : CellValue) (rule : ConditionalRule.t) : bool :=
  let numValue := ToNumber (normalizedValue v) in
  let ruleValue := ToNumber (ConditionalRule.value rule) in
  if isNumber v then
    match ConditionalRule.condition rule with
    | ConditionType.gt => numGt numValue ruleValue
    | ConditionType.lt => numLt numValue ruleValue
    | ConditionType.gte => numGe numValue ruleValue
    | ConditionType.lte => numLe numValue ruleValue
    | ConditionType.eq => numEq numValue ruleValue
    | ConditionType.contains => false
    end
  else
    let strVal := toLowerCase (ToString v) in
    let strRule := toLowerCase (ToString (ConditionalRule.value rule)) in
    match ConditionalRule.condition rule with
    | ConditionType.contains => includes strVal strRule
    | ConditionType.eq => strEq strVal strRule
    | _ => false
    end.

Definition styleOf (rule : ConditionalRule.t) : CellStyle.t :=
  {| CellStyle.backgroundColor := ConditionalStyle.backgroundColor (ConditionalRule.style rule);
     CellStyle.color := ConditionalStyle.color (ConditionalRule.style rule);
     CellStyle.fontWeight := "500" |}.

(** [for (const rule of columnRules) { ... if (match) return {...} } return {}] *)
Fixpoint firstMatch (v : CellValue) (columnRules : list ConditionalRule.t)
  : option CellStyle.t :=
  match columnRules with
  | [] => None
  | rule :: rest => if ruleMatches v rule then Some (styleOf rule) else firstMatch v rest
  end.

Definition onColumn (colIndex : nat) (r : ConditionalRule.t) : bool :=
  Nat.eqb (ConditionalRule.columnIndex r) colIndex.

(** [getCellStyle(rowIndex, colIndex, value)] of a grid whose [rules] prop is
    the array [rules] (for an array [!rules] is false); [None] is the empty
    style object. *)
Definition getCellStyle (rules : list ConditionalRule.t)
    (rowIndex colIndex : nat) (v : CellValue) : option CellStyle.t :=
  if Nat.eqb rowIndex 0 then None
  else
    let columnRules := List.filter (onColumn colIndex) rules in
    match columnRules with
    | [] => None
    | _ => firstMatch v columnRules
    end.

(** The preset styles of [App.tsx] and the two rules its bulk average
    installs on the average column (here column 2). *)
Definition PRESET_STYLES : list ConditionalStyle.t :=
  [ {| ConditionalStyle.name := "Vermelho (Reprovado)";
       ConditionalStyle.backgroundColor := "#FECACA"; ConditionalStyle.color := "#991B1B" |};
    {| ConditionalStyle.name := "Verde (Aprovado)";
       ConditionalStyle.backgroundColor := "#BBF7D0"; ConditionalStyle.color := "#166534" |};
    {| ConditionalStyle.name := "Amarelo (Aten" +:+ String "231" (String "227" "o)");
       ConditionalStyle.backgroundColor := "#FEF08A"; ConditionalStyle.color := "#854D0E" |};
    {| ConditionalStyle.name := "Azul (Destaque)";
       ConditionalStyle.backgroundColor := "#BFDBFE"; ConditionalStyle.color := "#1E40AF" |} ].

Definition presetStyle (i : nat) : ConditionalStyle.t :=
  nth i PRESET_STYLES
    {| ConditionalStyle.name := ""; ConditionalStyle.backgroundColor := "";
       ConditionalStyle.color := "" |}.

Definition failRule (ident : string) (mediaColIdx : nat) : ConditionalRule.t :=
  {| ConditionalRule.id := ident; ConditionalRule.columnIndex := mediaColIdx;
     ConditionalRule.condition := ConditionType.lt;
     ConditionalRule.value := VNum (ofZ 5);
     ConditionalRule.style := presetStyle 0 |}.

Definition passRule (ident : string) (mediaColIdx : nat) : ConditionalRule.t :=
  {| ConditionalRule.id := ident; ConditionalRule.columnIndex := mediaColIdx;
     ConditionalRule.condition := ConditionType.gte;
     ConditionalRule.value := VNum (ofZ 5);
     ConditionalRule.style := presetStyle 1 |}.

(** A rule as the format dialog builds it: the bound is the text typed. *)
Definition dialogRule (ident : string) (col : nat) (cond : ConditionType.t)
    (bound : string) (styleIndex : nat) : ConditionalRule.t :=
  {| ConditionalRule.id := ident; ConditionalRule.columnIndex := col;
     ConditionalRule.condition := cond;
     ConditionalRule.value := VStr bound;
     ConditionalRule.style := presetStyle styleIndex |}.

(* ===================================================================== *)
(** * Validation ([App.tsx], [validateValue])                             *)
(* ===================================================================== *)

(** What the host decides: whether [new Date(s)] is a valid date.  Parsing
    of date strings is implementation-defined, so it is a parameter. *)
Class Host : Type := {
  dateIsValid : string -> bool;
}.

(** The result [{ valid, msg? }]. *)
Module Check.
Record t : Type := {
  valid : bool;
  msg : option string;
}.
End Check.

Definition accepted : Check.t := {| Check.valid := true; Check.msg := None |}.
Definition rejected (m : string) : Check.t := {| Check.valid := false; Check.msg := Some m |}.

(** The messages.  U+00FA, U+00E1, U+00E3 and U+00E7 are spelled by code. *)
Definition msgNotNumber : string := "O valor deve ser um n" +:+ String "250" "mero.".
Definition msgMin (bound : string) : string := "O valor deve ser maior ou igual a " +:+ bound +:+ ".".
Definition msgMax (bound : string) : string := "O valor deve ser menor ou igual a " +:+ bound +:+ ".".
Definition msgBadDate : string := "Data inv" +:+ String "225" "lida.".
Definition msgDateMin (bound : string) : string := "A data deve ser posterior a " +:+ bound +:+ ".".
Definition msgDateMax (bound : string) : string := "A data deve ser anterior a " +:+ bound +:+ ".".
Definition msgNotInList : string := "Valor n" +:+ String "227" "o permitido na lista.".
Definition msgBadEmail : string :=
  "Endere" +:+ String "231" ("o de email inv" +:+ String "225" "lido.").

(** [rule.min && ...]: an optional string is truthy when present and not
    empty. *)
Definition isSet (o : option string) : bool :=
  match o with
  | Some s => negb (strEq s "")
  | None => false
  end.

Definition bound (o : option string) : string :=
  match o with Some s => s | None => "" end.

(** Each [if (rule.type === ...) { ... }] block: [Some m] when it returns
    [{ valid: false, msg: m }], [None] when control leaves the block. *)
Definition numberBlock (v : value) (rule : ValidationRule.t) : option string :=
  match ValidationRule.type rule with
  | ValidationType.number =>
      let num := ToNumber v in
      if isNaN num then Some msgNotNumber
      else if isSet (ValidationRule.min rule)
              && numLt num (StringToNumber (bound (ValidationRule.min rule)))
      then Some (msgMin (bound (ValidationRule.min rule)))
      else if isSet (ValidationRule.max rule)
              && numGt num (StringToNumber (bound (ValidationRule.max rule)))
      then Some (msgMax (bound (ValidationRule.max rule)))
      else None
  | _ => None
  end.

Definition dateBlock `{Host} (strVal : string) (rule : ValidationRule.t) : option string :=
  match ValidationRule.type rule with
  | ValidationType.date =>
      if negb (dateIsValid strVal) then Some msgBadDate
      else if isSet (ValidationRule.min rule) && strLt strVal (bound (ValidationRule.min rule))
      then Some (msgDateMin (bound (ValidationRule.min rule)))
      else if isSet (ValidationRule.max rule) && strLt (bound (ValidationRule.max rule)) strVal
      then Some (msgDateMax (bound (ValidationRule.max rule)))
      else None
  | _ => None
  end.

Definition listBlock (strVal : string) (rule : ValidationRule.t) : option string :=
  match ValidationRule.type rule, ValidationRule.options rule with
  | ValidationType.list, Some options =>
      if negb (existsb (strEq strVal) options) then Some msgNotInList else None
  | _, _ => None
  end.

(** [/^[^\s@]+@[^\s@]+\.[^\s@]+$/]. *)
Definition plainChar (c : ascii) : bool := negb (isWhiteSpace c) && negb (Ascii.eqb c "@").

Fixpoint allPlain (s : string) : bool :=
  match s with
  | EmptyString => true
  | String c s' => plainChar c && allPlain s'
  end.

(** A dot of [s] with at least one character after it. *)
Fixpoint dotBeforeEnd (s : string) : bool :=
  match s with
  | EmptyString => false
  | String c s' =>
      (Ascii.eqb c "." && negb (strEq s' "")) || dotBeforeEnd s'
  end.

(** [seen] tells whether a character before the "@" was read. *)
Fixpoint emailFrom (seen : bool) (s : string) : bool :=
  match s with
  | EmptyString => false
  | String c s' =>
      if Ascii.eqb c "@" then
        seen && allPlain s' &&
        match s' with
        | String _ d => dotBeforeEnd d
        | EmptyString => false
        end
      else plainChar c && emailFrom true s'
  end.

Definition emailRegexTest (s : string) : bool := emailFrom false s.

Definition emailBlock (strVal : string) (rule : ValidationRule.t) : option string :=
  match ValidationRule.type rule with
  | ValidationType.email => if negb (emailRegexTest strVal) then Some msgBadEmail else None
  | _ => None
  end.

Definition isEmptyInput (v : value) : bool :=
  isString v "" || match v with VNull | VUndefined => true | _ => false end.

Definition validateValue `{Host} (v : value) (rule : ValidationRule.t) : Check.t :=
  if isEmptyInput v then accepted
  else
    let strVal := trim (ToString v) in
    match numberBlock v rule with
    | Some m => rejected m
    | None =>
    match dateBlock strVal rule with
    | Some m => rejected m
    | None =>
    match listBlock strVal rule with
    | Some m => rejected m
    | None =>
    match emailBlock strVal rule with
    | Some m => rejected m
    | None => accepted
    end end end end.

(* ===================================================================== *)
(** * The state of [App] and its derived values                           *)
(* ===================================================================== *)

(** The access levels ['edit' | 'view'] of [unlockedSheets]. *)
Inductive AccessLevel : Type := edit | view.

#[global] Instance AccessLevel_eq_dec : EqDecision AccessLevel.
Proof. solve_decision. Defined.

(** The state hooks of [App] that the handlers below read or write.
    [contextMenu] keeps the [sheetId] of the open tab menu, [dragItem] the
    ref of the dragged tab. *)
Record AppState : Type := {
  sheets : list Sheet.t;
  activeSheetId : option string;
  unlockedSheets : gmap string AccessLevel;
  accessCodeInput : string;
  accessError : option string;
  contextMenu : option string;
  dragItem : option nat;
}.

Definition setSheets (l : list Sheet.t) (st : AppState) : AppState :=
  {| sheets := l; activeSheetId := activeSheetId st;
     unlockedSheets := unlockedSheets st; accessCodeInput := accessCodeInput st;
     accessError := accessError st; contextMenu := contextMenu st;
     dragItem := dragItem st |}.

Definition setActiveSheetId (i : option string) (st : AppState) : AppState :=
  {| sheets := sheets st; activeSheetId := i;
     unlockedSheets := unlockedSheets st; accessCodeInput := accessCodeInput st;
     accessError := accessError st; contextMenu := contextMenu st;
     dragItem := dragItem st |}.

Definition setUnlockedSheets (m : gmap string AccessLevel) (st : AppState) : AppState :=
  {| sheets := sheets st; activeSheetId := activeSheetId st;
     unlockedSheets := m; accessCodeInput := accessCodeInput st;
     accessError := accessError st; contextMenu := contextMenu st;
     dragItem := dragItem st |}.

Definition setAccessCodeInput (i : string) (st : AppState) : AppState :=
  {| sheets := sheets st; activeSheetId := activeSheetId st;
     unlockedSheets := unlockedSheets st; accessCodeInput := i;
     accessError := accessError st; contextMenu := contextMenu st;
     dragItem := dragItem st |}.

Definition setAccessError (e : option string) (st : AppState) : AppState :=
  {| sheets := sheets st; activeSheetId := activeSheetId st;
     unlockedSheets := unlockedSheets st; accessCodeInput := accessCodeInput st;
     accessError := e; contextMenu := contextMenu st;
     dragItem := dragItem st |}.

Definition setContextMenu (m : option string) (st : AppState) : AppState :=
  {| sheets := sheets st; activeSheetId := activeSheetId st;
     unlockedSheets := unlockedSheets st; accessCodeInput := accessCodeInput st;
     accessError := accessError st; contextMenu := m;
     dragItem := dragItem st |}.

Definition setDragItem (d : option nat) (st : AppState) : AppState :=
  {| sheets := sheets st; activeSheetId := activeSheetId st;
     unlockedSheets := unlockedSheets st; accessCodeInput := accessCodeInput st;
     accessError := accessError st; contextMenu := contextMenu st;
     dragItem := d |}.

(** [s.id === i] for a possibly null [i]. *)
Definition hasId (i : option string) (s : Sheet.t) : bool :=
  match i with
  | Some j => strEq (Sheet.id s) j
  | None => false
  end.

(** [i === j] for a possibly null [i]. *)
Definition hasIdOpt (i : option string) (j : string) : bool :=
  match i with
  | Some k => strEq k j
  | None => false
  end.

(** [sheets.find(s => s.id === i)] *)
Definition findSheet (l : list Sheet.t) (i : option string) : option Sheet.t :=
  List.find (hasId i) l.

Definition activeSheet (st : AppState) : option Sheet.t :=
  findSheet (sheets st) (activeSheetId st).

(** [activeSheetId ? unlockedSheets[activeSheetId] : undefined] *)
Definition currentAccess (st : AppState) : option AccessLevel :=
  match activeSheetId st with
  | Some i => if strEq i "" then None else unlockedSheets st !! i
  | None => None
  end.

(** [sheet.editCode || sheet.viewCode] as a condition. *)
Definition hasCodes (s : Sheet.t) : bool :=
  isSet (Sheet.editCode s) || isSet (Sheet.viewCode s).

Definition isEdit (a : option AccessLevel) : bool :=
  match a with Some edit => true | _ => false end.

(** [activeSheet && (!activeSheet.editCode && !activeSheet.viewCode) ? true
     : currentAccess === 'edit'] *)
Definition canEdit (st : AppState) : bool :=
  match activeSheet st with
  | Some s => if negb (hasCodes s) then true else isEdit (currentAccess st)
  | None => isEdit (currentAccess st)
  end.

(** [prev.map(s => s.id === i ? updated : s)] *)
Definition replaceSheet (i : string) (updated : Sheet.t) (l : list Sheet.t) : list Sheet.t :=
  List.map (fun s => if strEq (Sheet.id s) i then updated else s) l.

Definition withData (s : Sheet.t) (d : SheetData) : Sheet.t :=
  {| Sheet.id := Sheet.id s; Sheet.name := Sheet.name s; Sheet.data := d;
     Sheet.conditionalFormats := Sheet.conditionalFormats s;
     Sheet.validationRules := Sheet.validationRules s;
     Sheet.editCode := Sheet.editCode s; Sheet.viewCode := Sheet.viewCode s;
     Sheet.accessCode := Sheet.accessCode s;
     Sheet.accessCodeExpiration := Sheet.accessCodeExpiration s;
     Sheet.isShared := Sheet.isShared s |}.

(* ===================================================================== *)
(** * Cell writes ([App.tsx], [updateCell])                               *)
(* ===================================================================== *)

(** [[...a]]: the copy has [undefined] where [a] has a hole. *)
Definition spread (row : Row) : Row :=
  List.map (fun o => Some (match o with Some v => v | None => VUndefined end)) row.

(** [a.findIndex(p)]: [p] is called on every index up to the first hit, on a
    hole with [undefined] (here [None]); [Ok None] stands for [-1]. *)
Fixpoint findIndexFrom {A} (p : option A -> result bool) (a : array A) (i : nat)
  : result (option nat) :=
  match a with
  | [] => Ok None
  | h :: t =>
      let! b := p h in
      if b then Ok (Some i) else findIndexFrom p t (S i)
  end.

Definition findIndex {A} (p : option A -> result bool) (a : array A) : result (option nat) :=
  findIndexFrom p a 0.

(** U+00E9 *)
Definition eAcute : ascii := "233".
Definition str_media_accent : string := String "m" (String eAcute "dia").
Definition str_Media : string := String "M" (String eAcute "dia").

(** [h => h.includes(k) || h === a || h === b]; reading [includes] of
    [undefined] throws. *)
Definition isGradeHeader (k a b : string) (h : option string) : result bool :=
  match h with
  | Some h => Ok (includes h k || strEq h a || strEq h b)
  | None => TypeError
  end.

(** [h => h === 'média' || h === 'media'] *)
Definition isMediaHeader (h : option string) : result bool :=
  match h with
  | Some h => Ok (strEq h str_media_accent || strEq h "media")
  | None => Ok false
  end.

(** [row.map(h => String(h || "").toLowerCase().trim())]: [map] skips the
    holes and leaves them in the result. *)
Definition headersOf (row : Row) : array string :=
  List.map (option_map (fun h => trim (toLowerCase (ToString (orElse h (VStr "")))))) row.

(** [parseFloat(String(x || "").replace(',', '.'))] *)
Definition operand (x : CellValue) : Js.number :=
  parseFloat (replaceFirst "," "." (ToString (orElse x (VStr "")))).

(** [while (row.length <= i) row.push("")] *)
Definition padTo (row : Row) (i : nat) : Row :=
  row ++ List.repeat (Some (VStr "")) (S i - length row).

Definition two : Js.number := ofZ 2.

(** [((val1 + val2) / 2).toFixed(1)] *)
Definition average (val1 val2 : Js.number) : string :=
  toFixed1 (numDiv (numAdd val1 val2) two).

(** [useComma ? avg.replace('.', ',') : avg] *)
Definition rendered (useComma : bool) (avg : string) : string :=
  if useComma then replaceFirst "." "," avg else avg.

(** The reactive average of [updateCell], on the row [newRow] in which the
    cell [c] has just been written. *)
Definition reactiveAverage (headers : array string) (c : nat) (newRow : Row) : result Row :=
  let! col1Idx := findIndex (isGradeHeader "nota 1" "p1" "n1") headers in
  let! col2Idx := findIndex (isGradeHeader "nota 2" "p2" "n2") headers in
  let! mediaIdx := findIndex isMediaHeader headers in
  match mediaIdx, col1Idx, col2Idx with
  | Some mediaIdx, Some col1Idx, Some col2Idx =>
      if Nat.eqb c col1Idx || Nat.eqb c col2Idx then
        let val1 := operand (cell newRow col1Idx) in
        let val2 := operand (cell newRow col2Idx) in
        if negb (isNaN val1) && negb (isNaN val2)
           && negb (isString (cell newRow col1Idx) "")
           && negb (isString (cell newRow col2Idx) "")
        then
          let avg := average val1 val2 in
          let useComma := includes (ToString (cell newRow col1Idx)) ","
                          || includes (ToString (cell newRow col2Idx)) "," in
          Ok (setAt (padTo newRow mediaIdx) mediaIdx (VStr (rendered useComma avg)))
        else Ok newRow
      else Ok newRow
  | _, _, _ => Ok newRow
  end.

(** [data[r]], or the empty row put in its place when it is absent. *)
Definition rowAt (data : SheetData) (r : nat) : Row :=
  match at_ data r with
  | Some row => row
  | None => []
  end.

(** [newRow] after [newRow[c] = value]. *)
Definition writtenRow (data : SheetData) (r c : nat) (v : value) : Row :=
  setAt (spread (rowAt data r)) c v.

(** [headers]: read from row 0 of [newData] once [newData[r] = newRow] is
    done and before the average is filled in. *)
Definition headersAfter (data : SheetData) (r c : nat) (v : value) : array string :=
  match at_ (setAt data r (writtenRow data r c v)) 0 with
  | Some row0 => headersOf row0
  | None => []
  end.

(** The new [data] of the sheet: the row [r] is copied, written at [c] and
    put back at [r]; the average is then filled into that same row. *)
Definition writeData (data : SheetData) (r c : nat) (v : value) : result SheetData :=
  let! finalRow := reactiveAverage (headersAfter data r c v) c (writtenRow data r c v) in
  Ok (setAt data r finalRow).

Definition msgInvalid : string := "Valor inv" +:+ String "225" "lido.".

Definition orString (o : option string) (d : string) : string :=
  if isSet o then bound o else d.

(** [activeSheet.validationRules?.find(rule => rule.columnIndex === c)] *)
Definition validationRuleFor (s : Sheet.t) (c : nat) : option ValidationRule.t :=
  match Sheet.validationRules s with
  | Some rules => List.find (fun rule => Nat.eqb (ValidationRule.columnIndex rule) c) rules
  | None => None
  end.

(** What a call of [updateCell] does. *)
Inductive CellUpdate : Type :=
  | Ignored                      (* no active sheet, or no edit access *)
  | Refused (alert : string)     (* the validation rule rejects the value *)
  | Thrown                       (* a TypeError leaves the handler *)
  | Written (st' : AppState).    (* [setSheets] was called *)

Definition updateCell `{Host} (st : AppState) (r c : nat) (v : value) : CellUpdate :=
  match activeSheet st with
  | None => Ignored
  | Some sheet =>
      if negb (canEdit st) then Ignored
      else
        let check :=
          match validationRuleFor sheet c with
          | Some rule =>
              let chk := validateValue v rule in
              if negb (Check.valid chk)
              then Some (orString (ValidationRule.errorMessage rule)
                                  (orString (Check.msg chk) msgInvalid))
              else None
          | None => None
          end in
        match check with
        | Some alert => Refused alert
        | None =>
            match writeData (Sheet.data sheet) r c v with
            | TypeError => Thrown
            | Ok newData =>
                Written (setSheets (replaceSheet (Sheet.id sheet) (withData sheet newData)
                                                 (sheets st)) st)
            end
        end
  end.

(* ===================================================================== *)
(** * Plain objects used as maps ([Record<string, V>])                    *)
(* ===================================================================== *)

(** A plain object [{}] is kept as its own properties in creation order. *)
Definition object (V : Type) : Type := list (string * V).

Fixpoint ownProp {V} (k : string) (o : object V) : option V :=
  match o with
  | [] => None
  | (k', v) :: t => if strEq k' k then Some v else ownProp k t
  end.

(** [o[k] = v]: an existing property keeps its place. *)
Fixpoint setProp {V} (k : string) (v : V) (o : object V) : object V :=
  match o with
  | [] => [(k, v)]
  | (k', v') :: t => if strEq k' k then (k', v) :: t else (k', v') :: setProp k v t
  end.

(** The properties every plain object inherits from [Object.prototype];
    all of them are truthy, none has a [push]. *)
Definition protoKeys : list string :=
  [ "constructor"; "__defineGetter__"; "__defineSetter__"; "hasOwnProperty";
    "__lookupGetter__"; "__lookupSetter__"; "isPrototypeOf";
    "propertyIsEnumerable"; "toString"; "valueOf"; "__proto__"; "toLocaleString" ].

Definition isProtoKey (k : string) : bool := existsb (strEq k) protoKeys.

(** An array index: the canonical decimal form of an integer below
    [2^32 - 1]. *)
Definition isArrayIndex (k : string) : bool :=
  strEq (decimal (digitsValue k)) k && (digitsValue k <=? 4294967294)%N.

Fixpoint insertSorted (n : N) (l : list N) : list N :=
  match l with
  | [] => [n]
  | m :: t => if (n <=? m)%N then n :: l else m :: insertSorted n t
  end.

Definition sortAscending (l : list N) : list N := fold_right insertSorted [] l.

(** [Object.keys(o)]: the array indices in ascending order, then the other
    keys in creation order. *)
Definition ownKeys {V} (o : object V) : list string :=
  let ks := List.map fst o in
  List.map decimal (sortAscending (List.map digitsValue (List.filter isArrayIndex ks)))
  ++ List.filter (fun k => negb (isArrayIndex k)) ks.

(* ===================================================================== *)
(** * Splitting a sheet ([utils/excelUtils.ts], [splitSheetByColumn])     *)
(* ===================================================================== *)

Definition semTurma : string := "Sem Turma".

(** [String(row[columnIndex] || "Sem Turma")] *)
Definition keyOf (columnIndex : nat) (row : Row) : string :=
  ToString (orElse (cell row columnIndex) (VStr semTurma)).

(** The body of [rows.forEach(row => ...)]. *)
Definition addRow (columnIndex : nat) (groups : object (list Row)) (row : option Row)
  : result (object (list Row)) :=
  match row with
  | None => Ok groups
  | Some [] => Ok groups
  | Some row =>
      let key := keyOf columnIndex row in
      match ownProp key groups with
      | Some rows => Ok (setProp key (rows ++ [row]) groups)
      | None =>
          if isProtoKey key then TypeError
          else Ok (setProp key [row] groups)
      end
  end.

Fixpoint forEachRow (columnIndex : nat) (rows : list (option Row))
    (groups : object (list Row)) : result (object (list Row)) :=
  match rows with
  | [] => Ok groups
  | row :: rest =>
      let! groups' := addRow columnIndex groups row in
      forEachRow columnIndex rest groups'
  end.

(** A sheet object with the three fields [id], [name] and [data]. *)
Definition bareSheet (ident name : string) (d : SheetData) : Sheet.t :=
  {| Sheet.id := ident; Sheet.name := name; Sheet.data := d;
     Sheet.conditionalFormats := None; Sheet.validationRules := None;
     Sheet.editCode := None; Sheet.viewCode := None; Sheet.accessCode := None;
     Sheet.accessCodeExpiration := None; Sheet.isShared := None |}.

Definition groupRowsOf (groups : object (list Row)) (key : string) : list Row :=
  match ownProp key groups with
  | Some rows => rows
  | None => []
  end.

(** [splitSheetByColumn(sheet, columnIndex)]; [uuid i] is what the [i]-th
    call of [generateUUID] returns. *)
Definition splitSheetByColumn (uuid : nat -> string) (sheet : Sheet.t) (columnIndex : nat)
  : result (list Sheet.t) :=
  let data := Sheet.data sheet in
  if (length data <? 2)%nat then Ok []
  else
    let header := at_ data 0 in
    let rows := List.tl data in
    let! groups := forEachRow columnIndex rows [] in
    Ok (imap (fun i key =>
                bareSheet (uuid i) (Sheet.name sheet +:+ " - " +:+ key)
                          (header :: List.map Some (groupRowsOf groups key)))
             (ownKeys groups)).

(* ===================================================================== *)
(** * The handlers of [App.tsx] that act on the sheet collection          *)
(* ===================================================================== *)

(** What a handler leaves behind: the state after the updates it issued,
    the alerts it showed, and whether a TypeError left it. *)
Record Outcome : Type := {
  after : AppState;
  alerts : list string;
  threw : bool;
}.

Definition done (st : AppState) : Outcome := {| after := st; alerts := []; threw := false |}.
Definition alerting (m : string) (st : AppState) : Outcome :=
  {| after := st; alerts := [m]; threw := false |}.
Definition throwing (st : AppState) : Outcome := {| after := st; alerts := []; threw := true |}.

(** [unlockedSheets[sheet.id] !== 'edit' && (sheet.editCode || sheet.viewCode)] *)
Definition lacksEditAccess (st : AppState) (sheet : Sheet.t) : bool :=
  negb (isEdit (unlockedSheets st !! Sheet.id sheet)) && hasCodes sheet.

(** Messages; U+00E3, U+00E9, U+00ED, U+00FA, U+00F3 by code. *)
Definition msgOnlyEditorsDelete : string := "Apenas editores podem excluir planilhas.".
Definition msgOnlyEditorsRename : string := "Apenas editores podem renomear planilhas.".
Definition msgLastSheet : string :=
  "N" +:+ String "227" ("o " +:+ String "233" (" poss" +:+ String "237" ("vel excluir a "
  +:+ String "250" "nica planilha existente."))).
Definition msgExpired : string :=
  "Os c" +:+ String "243" "digos expiraram. O administrador deve gerar novos.".
Definition msgWrongCode : string := "C" +:+ String "243" "digo incorreto.".
Definition copySuffix : string := " (C" +:+ String "243" "pia)".

(** ** [handleDeleteSheet] *)

(** [sheets.filter(s => s.id !== sheetId)] *)
Definition withoutId (sheetId : string) (l : list Sheet.t) : list Sheet.t :=
  List.filter (fun s => negb (strEq (Sheet.id s) sheetId)) l.

(** [confirmed] is the answer to the [confirm] dialog. *)
Definition handleDeleteSheet (confirmed : bool) (st : AppState) : Outcome :=
  match contextMenu st with
  | None => done st
  | Some sheetId =>
      let sheet := findSheet (sheets st) (Some sheetId) in
      if match sheet with Some sh => lacksEditAccess st sh | None => false end
      then alerting msgOnlyEditorsDelete (setContextMenu None st)
      else if (length (sheets st) <=? 1)%nat
      then alerting msgLastSheet (setContextMenu None st)
      else if confirmed then
        let newSheets := withoutId sheetId (sheets st) in
        let st1 := setSheets newSheets st in
        if hasIdOpt (activeSheetId st) sheetId then
          match newSheets with
          | first :: _ =>
              done (setContextMenu None (setActiveSheetId (Some (Sheet.id first)) st1))
          | [] => throwing st1
          end
        else done (setContextMenu None st1)
      else done (setContextMenu None st)
  end.

(** ** [handleDuplicateSheet] *)

(** [JSON.parse(JSON.stringify(x))] on a number: a finite number is printed
    and read back, the other numbers become [null]. *)
Definition jsonCell (v : CellValue) : CellValue :=
  match v with
  | VNum (S754_finite _ _ _ as x) => VNum (StringToNumber (numberToString x))
  | VNum (S754_zero _) => VNum (S754_zero false)
  | VNum _ => VNull
  | VUndefined => VNull
  | _ => v
  end.

Definition jsonRow (row : Row) : Row :=
  List.map (fun o => Some (match o with Some v => jsonCell v | None => VNull end)) row.

(** [JSON.parse(JSON.stringify(sheet.data))] *)
Definition jsonData (d : SheetData) : SheetData := List.map (option_map jsonRow) d.

Definition orEmpty {A} (o : option (list A)) : list A :=
  match o with Some l => l | None => [] end.

(** The object literal [newSheet] of [handleDuplicateSheet]. *)
Definition duplicateOf (newId : string) (sheet : Sheet.t) : Sheet.t :=
  {| Sheet.id := newId;
     Sheet.name := Sheet.name sheet +:+ copySuffix;
     Sheet.data := jsonData (Sheet.data sheet);
     Sheet.conditionalFormats := Some (orEmpty (Sheet.conditionalFormats sheet));
     Sheet.validationRules := Some (orEmpty (Sheet.validationRules sheet));
     Sheet.editCode := Sheet.editCode sheet;
     Sheet.viewCode := Sheet.viewCode sheet;
     Sheet.accessCode := Sheet.accessCode sheet;
     Sheet.accessCodeExpiration := Sheet.accessCodeExpiration sheet;
     Sheet.isShared := Sheet.isShared sheet |}.

(** [newId] is the value [generateUUID()] returns. *)
Definition handleDuplicateSheet (newId : string) (st : AppState) : Outcome :=
  match contextMenu st with
  | None => done st
  | Some sheetId =>
      match findSheet (sheets st) (Some sheetId) with
      | None => done st
      | Some sheet =>
          let newSheet := duplicateOf newId sheet in
          let unlocked :=
            match unlockedSheets st !! Sheet.id sheet with
            | Some level => <[newId := level]> (unlockedSheets st)
            | None => unlockedSheets st
            end in
          done (setContextMenu None
                 (setActiveSheetId (Some newId)
                   (setSheets (sheets st ++ [newSheet])
                     (setUnlockedSheets unlocked st))))
      end
  end.

(** ** [handleUnlockSheet] *)

(** [input === code] for an optional code. *)
Definition codeIs (input : string) (code : option string) : bool :=
  match code with
  | Some c => strEq input c
  | None => false
  end.

(** [activeSheet.accessCodeExpiration && Date.now() > activeSheet.accessCodeExpiration] *)
Definition expiredAt (now : Js.number) (sheet : Sheet.t) : bool :=
  match Sheet.accessCodeExpiration sheet with
  | Some e => truthy (VNum e) && numGt now e
  | None => false
  end.

Definition grant (level : AccessLevel) (sheet : Sheet.t) (st : AppState) : AppState :=
  setAccessError None
    (setAccessCodeInput ""
      (setUnlockedSheets (<[Sheet.id sheet := level]> (unlockedSheets st)) st)).

(** [now] is the value of [Date.now()]. *)
Definition handleUnlockSheet (now : Js.number) (st : AppState) : AppState :=
  match activeSheet st with
  | None => st
  | Some sheet =>
      if expiredAt now sheet then setAccessError (Some msgExpired) st
      else
        let input := toUpperCase (trim (accessCodeInput st)) in
        if codeIs input (Sheet.editCode sheet) then grant edit sheet st
        else if codeIs input (Sheet.viewCode sheet) then grant view sheet st
        else if codeIs input (Sheet.accessCode sheet) then grant edit sheet st
        else setAccessError (Some msgWrongCode) st
  end.

(** The state a call of [updateCell] leaves. *)
Definition writtenState (u : CellUpdate) (st : AppState) : AppState :=
  match u with
  | Written st' => st'
  | _ => st
  end.

(** ** The other handlers that write the sheet collection *)

Definition msgUploadError : string :=
  "Erro ao ler arquivo Excel. Verifique se o formato " +:+ String "233" (" v" +:+ String "225" "lido.").
Definition msgSplitError : string := "Erro ao separar turmas.".
Definition msgNoColumn : string := "Coluna n" +:+ String "227" "o encontrada.".
Definition msgSplitDone (n : nat) : string :=
  decimal (N.of_nat n) +:+ " novas turmas separadas com sucesso!".

(** [currentAccess === 'view'] *)
Definition isReadOnly (st : AppState) : bool :=
  match currentAccess st with Some view => true | _ => false end.

Definition isSome {A} (o : option A) : bool :=
  match o with Some _ => true | None => false end.

(** A string used as a condition. *)
Definition nonEmpty (o : option string) : bool := isSet o.

(** [next[id] = 'edit'] for every sheet of [l]. *)
Definition unlockAll (l : list Sheet.t) (m : gmap string AccessLevel) : gmap string AccessLevel :=
  fold_left (fun acc s => <[Sheet.id s := edit]> acc) l m.

(** The effect on [sheets.length]: the initial sheet of an empty collection,
    else the choice of the active sheet; [pauta] is the query parameter. *)
Definition initialSheet : Sheet.t :=
  {| Sheet.id := "init"; Sheet.name := "Pauta 1";
     Sheet.data := List.repeat (Some (List.repeat (Some (VStr "")) 10)) 20;
     Sheet.conditionalFormats := Some []; Sheet.validationRules := Some [];
     Sheet.editCode := None; Sheet.viewCode := None; Sheet.accessCode := None;
     Sheet.accessCodeExpiration := None; Sheet.isShared := None |}.

Definition lengthEffect (pauta : option string) (st : AppState) : AppState :=
  match sheets st with
  | [] =>
      setUnlockedSheets (<["init" := edit]> (unlockedSheets st))
        (setActiveSheetId (Some "init") (setSheets [initialSheet] st))
  | firstSheet :: _ =>
      if nonEmpty (activeSheetId st) then st
      else if nonEmpty pauta && isSome (findSheet (sheets st) pauta)
      then setActiveSheetId pauta st
      else
        let st1 := setActiveSheetId (Some (Sheet.id firstSheet)) st in
        if negb (hasCodes firstSheet)
        then setUnlockedSheets (<[Sheet.id firstSheet := edit]> (unlockedSheets st)) st1
        else st1
  end.

(** [a.splice(i, 1)] and [a.splice(i, 0, x)] *)
Definition removeAt {A} (i : nat) (l : list A) : list A := firstn i l ++ skipn (S i) l.
Definition insertAt {A} (i : nat) (x : A) (l : list A) : list A := firstn i l ++ x :: skipn i l.

Definition handleDragStart (index : nat) (st : AppState) : AppState :=
  setDragItem (Some index) st.

Definition handleDragOver (index : nat) (st : AppState) : AppState :=
  match dragItem st with
  | None => st
  | Some currentDragIndex =>
      if Nat.eqb currentDragIndex index then st
      else
        match nth_error (sheets st) currentDragIndex with
        | None => st
        | Some draggedItemContent =>
            setSheets (insertAt index draggedItemContent (removeAt currentDragIndex (sheets st)))
                      (setDragItem (Some index) st)
        end
  end.

Definition handleDragEnd (st : AppState) : AppState := setDragItem None st.

(** [parsed] is what [parseExcelFile] resolves to, [None] when it rejects. *)
Definition handleFileUpload (parsed : option (list Sheet.t)) (st : AppState) : Outcome :=
  match parsed with
  | None => alerting msgUploadError st
  | Some parsedSheets =>
      let st1 := setSheets (sheets st ++ parsedSheets)
                   (setUnlockedSheets (unlockAll parsedSheets (unlockedSheets st)) st) in
      match parsedSheets with
      | first :: _ => done (setActiveSheetId (Some (Sheet.id first)) st1)
      | [] => alerting msgUploadError st1
      end
  end.

(** [h => String(h || "").trim().toLowerCase() === userInput.trim().toLowerCase()];
    a hole is read as [undefined]. *)
Definition isColumnNamed (userInput : string) (h : option CellValue) : result bool :=
  let text := match h with Some v => v | None => VUndefined end in
  Ok (strEq (toLowerCase (trim (ToString (orElse text (VStr "")))))
            (toLowerCase (trim userInput))).

(** [userInput] is the answer to the prompt ([None]: cancelled). *)
Definition handleSplitClasses (userInput : option string) (uuid : nat -> string)
    (st : AppState) : Outcome :=
  match activeSheet st with
  | None => done st
  | Some sheet =>
      match Sheet.data sheet with
      | [] => done st
      | header :: _ =>
          match header with
          | None | Some [] => alerting msgSplitError st
          | Some headers =>
              if negb (nonEmpty userInput) then done st
              else
                match findIndex (isColumnNamed (bound userInput)) headers with
                | TypeError => alerting msgSplitError st
                | Ok None => alerting msgNoColumn st
                | Ok (Some columnIndex) =>
                    match splitSheetByColumn uuid sheet columnIndex with
                    | TypeError => alerting msgSplitError st
                    | Ok newSheets =>
                        let st1 := setSheets (sheets st ++ newSheets)
                                     (setUnlockedSheets
                                        (unlockAll newSheets (unlockedSheets st)) st) in
                        alerting (msgSplitDone (length newSheets))
                          match newSheets with
                          | first :: _ => setActiveSheetId (Some (Sheet.id first)) st1
                          | [] => st1
                          end
                    end
                end
          end
      end
  end.

(** [handleSetupClassValidation], [handleCalculateAverages], [handleAddRule]
    and [handleAddValidation] end in
    [setSheets(prev => prev.map(s => s.id === activeSheet.id ? updatedSheet : s))]
    where [updatedSheet] is [{...activeSheet, data?, conditionalFormats?,
    validationRules?}].  They are kept by what they store: the three fields
    of the new version. *)
Definition storeActive (d : SheetData) (cf : option (list ConditionalRule.t))
    (vr : option (list ValidationRule.t)) (st : AppState) : AppState :=
  match activeSheet st with
  | None => st
  | Some sheet =>
      let updatedSheet :=
        {| Sheet.id := Sheet.id sheet; Sheet.name := Sheet.name sheet; Sheet.data := d;
           Sheet.conditionalFormats := cf; Sheet.validationRules := vr;
           Sheet.editCode := Sheet.editCode sheet; Sheet.viewCode := Sheet.viewCode sheet;
           Sheet.accessCode := Sheet.accessCode sheet;
           Sheet.accessCodeExpiration := Sheet.accessCodeExpiration sheet;
           Sheet.isShared := Sheet.isShared sheet |} in
      setSheets (replaceSheet (Sheet.id sheet) updatedSheet (sheets st)) st
  end.

Definition withName (s : Sheet.t) (n : string) : Sheet.t :=
  {| Sheet.id := Sheet.id s; Sheet.name := n; Sheet.data := Sheet.data s;
     Sheet.conditionalFormats := Sheet.conditionalFormats s;
     Sheet.validationRules := Sheet.validationRules s;
     Sheet.editCode := Sheet.editCode s; Sheet.viewCode := Sheet.viewCode s;
     Sheet.accessCode := Sheet.accessCode s;
     Sheet.accessCodeExpiration := Sheet.accessCodeExpiration s;
     Sheet.isShared := Sheet.isShared s |}.

(** [newName] is the answer to the prompt. *)
Definition handleRenameSheet (newName : option string) (st : AppState) : Outcome :=
  match contextMenu st with
  | None => done st
  | Some sheetId =>
      match findSheet (sheets st) (Some sheetId) with
      | None => done st
      | Some sheet =>
          if lacksEditAccess st sheet then alerting msgOnlyEditorsRename st
          else
            let st1 :=
              if nonEmpty newName && negb (strEq (trim (bound newName)) "")
              then setSheets
                     (List.map (fun s => if strEq (Sheet.id s) (Sheet.id sheet)
                                         then withName s (trim (bound newName)) else s)
                               (sheets st)) st
              else st in
            done (setContextMenu None st1)
      end
  end.

(** The "+" button of the tab bar. *)
Definition newSheetOf (newId : string) (count : nat) : Sheet.t :=
  {| Sheet.id := newId;
     Sheet.name := "Nova Planilha " +:+ decimal (N.of_nat (count + 1));
     Sheet.data := [Some []];
     Sheet.conditionalFormats := Some []; Sheet.validationRules := None;
     Sheet.editCode := None; Sheet.viewCode := None; Sheet.accessCode := None;
     Sheet.accessCodeExpiration := None; Sheet.isShared := None |}.

Definition handleNewSheet (newId : string) (st : AppState) : AppState :=
  if isReadOnly st then st
  else
    setUnlockedSheets (<[newId := edit]> (unlockedSheets st))
      (setActiveSheetId (Some newId)
        (setSheets (sheets st ++ [newSheetOf newId (length (sheets st))]) st)).

(** A click on the tab at [index], and its context menu. *)
Definition selectTab (index : nat) (st : AppState) : AppState :=
  match nth_error (sheets st) index with
  | Some sheet => setActiveSheetId (Some (Sheet.id sheet)) st
  | None => st
  end.

Definition handleContextMenu (index : nat) (st : AppState) : AppState :=
  match nth_error (sheets st) index with
  | Some sheet => setContextMenu (Some (Sheet.id sheet)) st
  | None => st
  end.

Inductive ExpirationUnit : Type := hours | days | weeks | months.

Definition multiplier (u : ExpirationUnit) : Js.number :=
  match u with
  | hours => ofZ (1000 * 60 * 60)
  | days => ofZ (1000 * 60 * 60 * 24)
  | weeks => ofZ (1000 * 60 * 60 * 24 * 7)
  | months => ofZ (1000 * 60 * 60 * 24 * 30)
  end.

(** [now] is [Date.now()], the two codes are what
    [Math.random().toString(36).slice(-6).toUpperCase()] returned. *)
Definition handleCreateAccessCode (now : Js.number) (newEditCode newViewCode : string)
    (expirationValue : Js.number) (expirationUnit : ExpirationUnit) (st : AppState) : AppState :=
  match activeSheet st with
  | None => st
  | Some sheet =>
      let expiresAt := numAdd now (numMul expirationValue (multiplier expirationUnit)) in
      let updatedSheet :=
        {| Sheet.id := Sheet.id sheet; Sheet.name := Sheet.name sheet;
           Sheet.data := Sheet.data sheet;
           Sheet.conditionalFormats := Sheet.conditionalFormats sheet;
           Sheet.validationRules := Sheet.validationRules sheet;
           Sheet.editCode := Some newEditCode; Sheet.viewCode := Some newViewCode;
           Sheet.accessCode := Sheet.accessCode sheet;
           Sheet.accessCodeExpiration := Some expiresAt;
           Sheet.isShared := Some true |} in
      setUnlockedSheets (<[Sheet.id sheet := edit]> (unlockedSheets st))
        (setSheets (replaceSheet (Sheet.id sheet) updatedSheet (sheets st)) st)
  end.

Definition handleRemoveAccessCode (st : AppState) : AppState :=
  match activeSheet st with
  | None => st
  | Some sheet =>
      let updatedSheet :=
        {| Sheet.id := Sheet.id sheet; Sheet.name := Sheet.name sheet;
           Sheet.data := Sheet.data sheet;
           Sheet.conditionalFormats := Sheet.conditionalFormats sheet;
           Sheet.validationRules := Sheet.validationRules sheet;
           Sheet.editCode := None; Sheet.viewCode := None; Sheet.accessCode := None;
           Sheet.accessCodeExpiration := None;
           Sheet.isShared := Some false |} in
      setSheets (replaceSheet (Sheet.id sheet) updatedSheet (sheets st)) st
  end.

Definition handleSimulateLock (st : AppState) : AppState :=
  match activeSheet st with
  | None => st
  | Some sheet => setUnlockedSheets (delete (Sheet.id sheet) (unlockedSheets st)) st
  end.

(** Typing in the code field. *)
Definition typeCode (text : string) (st : AppState) : AppState :=
  setAccessError None (setAccessCodeInput (toUpperCase text) st).

(* ===================================================================== *)
(** * The session as a transition system                                  *)
(* ===================================================================== *)

(** What can happen to a session; the values the environment supplies
    (prompt answers, generated identifiers, the clock, parsed files) come
    with the event. *)
Inductive Event : Type :=
  | LengthEffect (pauta : option string)
  | DragStart (index : nat)
  | DragOver (index : nat)
  | DragEnd
  | FileUpload (parsed : option (list Sheet.t))
  | SplitClasses (userInput : option string) (uuid : nat -> string)
  | StoreActive (d : SheetData) (cf : option (list ConditionalRule.t))
                (vr : option (list ValidationRule.t))
  | UpdateCell (r c : nat) (v : value)
  | ContextMenu (index : nat)
  | CloseMenu
  | RenameSheet (newName : option string)
  | DuplicateSheet (newId : string)
  | DeleteSheet (confirmed : bool)
  | NewSheet (newId : string)
  | SelectTab (index : nat)
  | CreateAccessCode (now : Js.number) (newEditCode newViewCode : string)
                     (expirationValue : Js.number) (expirationUnit : ExpirationUnit)
  | RemoveAccessCode
  | TypeCode (text : string)
  | UnlockSheet (now : Js.number)
  | SimulateLock.

Definition step `{Host} (st : AppState) (e : Event) : AppState :=
  match e with
  | LengthEffect pauta => lengthEffect pauta st
  | DragStart index => handleDragStart index st
  | DragOver index => if isReadOnly st then st else handleDragOver index st
  | DragEnd => handleDragEnd st
  | FileUpload parsed => after (handleFileUpload parsed st)
  | SplitClasses userInput uuid => after (handleSplitClasses userInput uuid st)
  | StoreActive d cf vr => storeActive d cf vr st
  | UpdateCell r c v => writtenState (updateCell st r c v) st
  | ContextMenu index => handleContextMenu index st
  | CloseMenu => setContextMenu None st
  | RenameSheet newName => after (handleRenameSheet newName st)
  | DuplicateSheet newId => after (handleDuplicateSheet newId st)
  | DeleteSheet confirmed => after (handleDeleteSheet confirmed st)
  | NewSheet newId => handleNewSheet newId st
  | SelectTab index => selectTab index st
  | CreateAccessCode now e v ev eu => handleCreateAccessCode now e v ev eu st
  | RemoveAccessCode => handleRemoveAccessCode st
  | TypeCode text => typeCode text st
  | UnlockSheet now => handleUnlockSheet now st
  | SimulateLock => handleSimulateLock st
  end.

Definition ids (l : list Sheet.t) : list string := List.map Sheet.id l.

(** The identifiers an event brings are new: [generateUUID] never returns
    an identifier twice, nor one that a sheet of the collection has. *)
Definition freshIds (new : list string) (st : AppState) : Prop :=
  NoDup new /\ forall i, In i new -> ~ In i (ids (sheets st)).

Definition fresh (st : AppState) (e : Event) : Prop :=
  match e with
  | FileUpload (Some parsed) => freshIds (ids parsed) st
  | SplitClasses _ uuid =>
      (forall i j : nat, uuid i = uuid j -> i = j)
      /\ forall i, ~ In (uuid i) (ids (sheets st))
  | DuplicateSheet newId | NewSheet newId => ~ In newId (ids (sheets st))
  | _ => True
  end.

Fixpoint run `{Host} (st : AppState) (events : list Event) : AppState :=
  match events with
  | [] => st
  | e :: rest => run (step st e) rest
  end.

Fixpoint allFresh `{Host} (st : AppState) (events : list Event) : Prop :=
  match events with
  | [] => True
  | e :: rest => fresh st e /\ allFresh (step st e) rest
  end.

(* ===================================================================== *)
(** * Object identity: what [handleDuplicateSheet] copies                 *)
(* ===================================================================== *)

(** The handlers above build new arrays and objects for what they change,
    so they are stated on values.  Whether two sheets share an array or an
    object only shows under mutation; the store below keeps the arrays and
    the rule objects of a sheet by reference for that purpose. *)
Module Store.

Definition loc : Type := positive.

(** The objects a sheet refers to. *)
Inductive obj : Type :=
  | ORow (cells : Row)                   (* a row: an array of primitives *)
  | OData (rows : list (option loc))     (* [data]: row references, or null *)
  | ORules (refs : list loc)             (* an array of rule objects *)
  | OConditional (r : ConditionalRule.t)
  | OValidation (r : ValidationRule.t).

(** Objects by location; [next] is the first location never used. *)
Record heap : Type := {
  objects : gmap loc obj;
  next : loc;
}.

Definition alloc (o : obj) (h : heap) : loc * heap :=
  (next h, {| objects := <[next h := o]> (objects h); next := Pos.succ (next h) |}).

(** A mutation in place of the object at [l]. *)
Definition write (l : loc) (o : obj) (h : heap) : heap :=
  {| objects := <[l := o]> (objects h); next := next h |}.

Definition writeAll (ws : list (loc * obj)) (h : heap) : heap :=
  fold_left (fun acc w => write (fst w) (snd w) acc) ws h.

(** A sheet object: its primitive fields, and references for the rest. *)
Record sheet : Type := {
  id : string;
  name : string;
  data : loc;
  conditionalFormats : option loc;
  validationRules : option loc;
  editCode : option string;
  viewCode : option string;
  accessCode : option string;
  accessCodeExpiration : option Js.number;
  isShared : option bool;
}.

(** ** Reading a sheet out of the store *)

Definition readRow (h : heap) (l : loc) : option Row :=
  match objects h !! l with
  | Some (ORow cells) => Some cells
  | _ => None
  end.

Definition rowRefs (h : heap) (l : loc) : list (option loc) :=
  match objects h !! l with
  | Some (OData refs) => refs
  | _ => []
  end.

(** The row behind an element of [data]. *)
Definition rowOf (h : heap) (r : option loc) : option Row :=
  match r with
  | Some rl => readRow h rl
  | None => None
  end.

Definition readData (h : heap) (l : loc) : SheetData :=
  List.map (rowOf h) (rowRefs h l).

Definition ruleRefs (h : heap) (a : option loc) : option (list loc) :=
  match a with
  | Some l => match objects h !! l with
              | Some (ORules refs) => Some refs
              | _ => None
              end
  | None => None
  end.

Definition readConditional (h : heap) (l : loc) : option ConditionalRule.t :=
  match objects h !! l with
  | Some (OConditional r) => Some r
  | _ => None
  end.

Definition readValidation (h : heap) (l : loc) : option ValidationRule.t :=
  match objects h !! l with
  | Some (OValidation r) => Some r
  | _ => None
  end.

(** What a sheet shows: its rows and its two lists of rules. *)
Record contents : Type := {
  rows : SheetData;
  formats : option (list (option ConditionalRule.t));
  validations : option (list (option ValidationRule.t));
}.

Definition read (h : heap) (s : sheet) : contents :=
  {| rows := readData h (data s);
     formats := option_map (List.map (readConditional h)) (ruleRefs h (conditionalFormats s));
     validations := option_map (List.map (readValidation h)) (ruleRefs h (validationRules s)) |}.

(** The locations [read] looks at. *)
Definition somes {A} (l : list (option A)) : list A :=
  List.flat_map (fun o => match o with Some x => [x] | None => [] end) l.

Definition reach (h : heap) (s : sheet) : list loc :=
  data s :: somes (rowRefs h (data s))
  ++ somes [conditionalFormats s] ++ orEmpty (ruleRefs h (conditionalFormats s))
  ++ somes [validationRules s] ++ orEmpty (ruleRefs h (validationRules s)).

(** ** [handleDuplicateSheet], the object literal [newSheet] *)

(** [JSON.parse(JSON.stringify(sheet.data))]: a new array for every row. *)
Definition copyRow (src : heap) (r : option loc) (h : heap) : option loc * heap :=
  match rowOf src r with
  | Some cells => let '(l', h1) := alloc (ORow (jsonRow cells)) h in (Some l', h1)
  | None => (None, h)
  end.

Fixpoint copyRows (src : heap) (refs : list (option loc)) (h : heap)
  : list (option loc) * heap :=
  match refs with
  | [] => ([], h)
  | r :: rest =>
      let '(r', h1) := copyRow src r h in
      let '(rest', h2) := copyRows src rest h1 in
      (r' :: rest', h2)
  end.

(** [a ? [...a] : []]: a new array with the same elements. *)
Definition copyRules (src : heap) (a : option loc) (h : heap) : loc * heap :=
  alloc (ORules (orEmpty (ruleRefs src a))) h.

Definition duplicate (newId : string) (s : sheet) (h : heap) : sheet * heap :=
  let '(rowsCopy, h1) := copyRows h (rowRefs h (data s)) h in
  let '(dataCopy, h2) := alloc (OData rowsCopy) h1 in
  let '(formatsCopy, h3) := copyRules h (conditionalFormats s) h2 in
  let '(validationsCopy, h4) := copyRules h (validationRules s) h3 in
  ({| id := newId;
      name := name s +:+ copySuffix;
      data := dataCopy;
      conditionalFormats := Some formatsCopy;
      validationRules := Some validationsCopy;
      editCode := editCode s;
      viewCode := viewCode s;
      accessCode := accessCode s;
      accessCodeExpiration := accessCodeExpiration s;
      isShared := isShared s |}, h4).

(** The arrays that belong to a sheet: [data], its rows and the two rule
    arrays (not the rule objects in them). *)
Definition arrays (h : heap) (s : sheet) : list loc :=
  data s :: somes (rowRefs h (data s))
  ++ somes [conditionalFormats s] ++ somes [validationRules s].

(** The rule objects a sheet refers to. *)
Definition ruleObjects (h : heap) (s : sheet) : list loc :=
  orEmpty (ruleRefs h (conditionalFormats s)) ++ orEmpty (ruleRefs h (validationRules s)).

(** [h'] has every object of [h] at its place. *)
Definition extends (h h' : heap) : Prop :=
  (next h <= next h')%positive
  /\ forall l, (l < next h)%positive -> objects h' !! l = objects h !! l.

End Store.

(* ===================================================================== *)
(** * Notions used in the statements                                      *)
(* ===================================================================== *)

(** The reactive average applies: the three headers are found, the column
    written is one of the two grades, both grades are read as numbers and
    neither is the empty text.  The result is the column of the average
    with the text written there. *)
Definition reactiveWriteOn (headers : array string) (c : nat) (newRow : Row)
  : option (nat * string) :=
  match findIndex (isGradeHeader "nota 1" "p1" "n1") headers,
        findIndex (isGradeHeader "nota 2" "p2" "n2") headers,
        findIndex isMediaHeader headers with
  | Ok (Some col1Idx), Ok (Some col2Idx), Ok (Some mediaIdx) =>
      let val1 := operand (cell newRow col1Idx) in
      let val2 := operand (cell newRow col2Idx) in
      if (Nat.eqb c col1Idx || Nat.eqb c col2Idx)
         && (negb (isNaN val1) && negb (isNaN val2)
             && negb (isString (cell newRow col1Idx) "")
             && negb (isString (cell newRow col2Idx) ""))
      then Some (mediaIdx,
                 rendered (includes (ToString (cell newRow col1Idx)) ","
                           || includes (ToString (cell newRow col2Idx)) ",")
                          (average val1 val2))
      else None
  | _, _, _ => None
  end.

(** The same for the write of [v] at row [r], column [c] of [data]. *)
Definition reactiveWrite (data : SheetData) (r c : nat) (v : value) : option (nat * string) :=
  reactiveWriteOn (headersAfter data r c v) c (writtenRow data r c v).

Definition reactiveColumn (data : SheetData) (r c : nat) (v : value) : option nat :=
  option_map fst (reactiveWrite data r c v).

(** The rows [forEach] does not skip: those after the header that are
    present and have at least one element. *)
Definition keptRows (data : SheetData) : list Row :=
  List.flat_map (fun o => match o with
                          | Some (x :: row) => [x :: row]
                          | _ => []
                          end)
                (List.tl data).

(** [String(row[columnIndex] || "Sem Turma") === k] *)
Definition hasKey (columnIndex : nat) (k : string) (row : Row) : bool :=
  strEq (keyOf columnIndex row) k.

(** What [groups] holds once the rows [seen] went through [forEach]: under
    each key, in order, the rows of that key, and no other key. *)
Definition grouped (columnIndex : nat) (seen : list Row) (groups : object (list Row)) : Prop :=
  NoDup (List.map fst groups)
  /\ forall k, ownProp k groups
               = match List.filter (hasKey columnIndex k) seen with
                 | [] => None
                 | rows => Some rows
                 end.

(** The group label as the specification words it: the text of the cell,
    and the sentinel for an empty or absent cell. *)
Definition groupKey (v : CellValue) : string :=
  if isEmptyInput v then semTurma else ToString v.

(** The collection holds a sheet, and no two sheets of it share their
    identifier. *)
Definition wellFormed (st : AppState) : Prop :=
  sheets st <> [] /\ NoDup (ids (sheets st)).

(** [s.includes(',')] *)
Definition hasComma (s : string) : bool := includes s ",".

(* ===================================================================== *)
(** * Sample objects used by the worked examples                          *)
(* ===================================================================== *)

(** A host whose [Date] accepts every string (the examples never validate
    a date). *)
Definition lenientHost : Host := {| dateIsValid := fun _ => true |}.

Definition cells (l : list string) : Row := List.map (fun s => Some (VStr s)) l.

(** A sheet without rules and codes. *)
Definition plainSheet (ident name : string) (d : SheetData) : Sheet.t :=
  {| Sheet.id := ident; Sheet.name := name; Sheet.data := d;
     Sheet.conditionalFormats := Some []; Sheet.validationRules := Some [];
     Sheet.editCode := None; Sheet.viewCode := None; Sheet.accessCode := None;
     Sheet.accessCodeExpiration := None; Sheet.isShared := None |}.

(** A shared sheet: two codes and an expiration time. *)
Definition sharedSheet (ident : string) (editCode viewCode : string) (expires : Z) : Sheet.t :=
  {| Sheet.id := ident; Sheet.name := "Pauta"; Sheet.data := [Some []];
     Sheet.conditionalFormats := Some []; Sheet.validationRules := Some [];
     Sheet.editCode := Some editCode; Sheet.viewCode := Some viewCode;
     Sheet.accessCode := None;
     Sheet.accessCodeExpiration := Some (ofZ expires); Sheet.isShared := Some true |}.

(** A session that shows the sheets [l], the first one active, with the
    access levels [unlocked], the text [input] in the code field and the tab
    menu of [menu] open. *)
Definition session (l : list Sheet.t) (unlocked : gmap string AccessLevel)
    (input : string) (menu : option string) : AppState :=
  {| sheets := l;
     activeSheetId := match l with s :: _ => Some (Sheet.id s) | [] => None end;
     unlockedSheets := unlocked;
     accessCodeInput := input;
     accessError := None;
     contextMenu := menu;
     dragItem := None |}.

(** A number rule as the validation dialog builds it. *)
Definition numberRule (col : nat) (lo hi : string) : ValidationRule.t :=
  {| ValidationRule.id := "v"; ValidationRule.columnIndex := col;
     ValidationRule.type := ValidationType.number;
     ValidationRule.min := Some lo; ValidationRule.max := Some hi;
     ValidationRule.options := None; ValidationRule.errorMessage := Some "" |}.

(** A grade book: name, two grades and their average. *)
Definition gradeHeader : Row := cells ["Nome"; "Nota 1"; "Nota 2"; str_Media].

Definition gradeBook (rows : list Row) : Sheet.t :=
  plainSheet "init" "Pauta 1" (Some gradeHeader :: List.map Some rows).

Definition gradeSession (rows : list Row) : AppState :=
  session [gradeBook rows] {[ "init" := edit ]} "" None.

(** The rows of the active sheet. *)
Definition activeData (st : AppState) : SheetData :=
  match activeSheet st with
  | Some s => Sheet.data s
  | None => []
  end.

(** A store with one sheet: two rows, one conditional rule and no
    validation rule. *)
Definition sampleHeap : Store.heap :=
  {| Store.objects :=
       <[1%positive := Store.ORow gradeHeader]>
       (<[2%positive := Store.ORow (cells ["Ana"; "7,5"; "8"; "7,8"])]>
       (<[3%positive := Store.OData [Some 1%positive; Some 2%positive]]>
       (<[4%positive := Store.OConditional (failRule "r1" 3)]>
       (<[5%positive := Store.ORules [4%positive]]>
       (<[6%positive := Store.ORules []]> ∅)))));
     Store.next := 7%positive |}.

Definition sampleSheet : Store.sheet :=
  {| Store.id := "s1"; Store.name := "Pauta 1"; Store.data := 3%positive;
     Store.conditionalFormats := Some 5%positive;
     Store.validationRules := Some 6%positive;
     Store.editCode := None; Store.viewCode := None; Store.accessCode := None;
     Store.accessCodeExpiration := None; Store.isShared := None |}.

Definition sampleUuid (i : nat) : string := "id-" +:+ decimal (N.of_nat i).

(** A class book: the class of each pupil in column 1, one without class. *)
Definition classBook : Sheet.t :=
  plainSheet "s" "Turmas"
    [Some (cells ["Nome"; "Turma"]); Some (cells ["Ana"; "10A"]); Some (cells ["Rui"; "10B"]);
     Some (cells ["Eva"; "10A"]); Some (cells ["Ivo"; ""])].

(** Delete the only sheet, add one, delete twice more. *)
Definition deleteTwice : list Event :=
  [ContextMenu 0; DeleteSheet true; NewSheet "b"; ContextMenu 0; DeleteSheet true;
   ContextMenu 0; DeleteSheet true].

(* ===================================================================== *)
(** * Column letters ([components/Spreadsheet.tsx], [App.tsx])            *)
(* ===================================================================== *)

From Stdlib Require Import DecimalN.
From Equations Require Import Equations.

(** The integers of this part are array indices and small sums of them:
    numbers that binary64 holds exactly, so they are kept as [Z] and
    [nat].  [getColIndex] reads a text of any length; its arithmetic is
    that of [Z] as long as the sums stay below 2^53, which holds for the
    headers of at most ten code units (once in capitals and trimmed) the
    statements are about. *)

(** [String.fromCharCode((n % 26) + 65)] *)
Definition letter (n : Z) : ascii := ascii_of_N (Z.to_N (Z.rem n 26 + 65)).

(** [while (n >= 0) { label = letter(n) + label; n = Math.floor(n / 26) - 1; }] *)
Equations labelLoop (n : Z) (label : string) : string by wf (Z.to_nat (n + 1)) lt :=
  labelLoop n label with Z_lt_ge_dec n 0 := {
    | left _ => label
    | right more => labelLoop (n / 26 - 1) (String (letter n) label) }.
Next Obligation.
  assert (n / 26 <= n) by (apply Z.div_le_upper_bound; lia). lia.
Qed.

(** The label of column [i]. *)
Definition columnLabel (i : nat) : string := labelLoop (Z.of_nat i) "".

(** [data.reduce((max, row) => Math.max(max, row && Array.isArray(row) ? row.length : 0), 0)] *)
Definition maxCols (data : SheetData) : nat :=
  fold_left (fun mx row => Nat.max mx (match row with Some cells => length cells | None => 0 end))
            data 0%nat.

(** [Array.from({ length: maxCols || 0 }, (_, i) => label(i))] *)
Definition headers (data : SheetData) : list string :=
  List.map columnLabel (seq 0 (maxCols data)).

(** The loop of [getColIndex]:
    [colIndex = colIndex * 26 + (cleanHeader.charCodeAt(i) - 64)]. *)
Fixpoint colIndexFrom (colIndex : Z) (cleanHeader : string) : Z :=
  match cleanHeader with
  | EmptyString => colIndex
  | String ch rest => colIndexFrom (colIndex * 26 + (Z.of_N (code ch) - 64)) rest
  end.

(** [header.toUpperCase().trim()] *)
Definition cleanHeader (header : string) : string := trim (toUpperCase header).

Definition getColIndex (header : string) : Z :=
  colIndexFrom 0 (cleanHeader header) - 1.

(* ===================================================================== *)
(** * The grid: selection and keys ([components/Spreadsheet.tsx])         *)
(* ===================================================================== *)

Module Grid.

(** [{ r, c }] *)
Record ref : Type := {
  r : Z;
  c : Z;
}.

(** The two state hooks of [Spreadsheet]. *)
Record state : Type := {
  editingCell : option ref;
  selectedCell : option ref;
}.

(** [e.key], with [e.shiftKey] where [handleKeyDown] reads it. *)
Inductive key : Type :=
  | ArrowUp | ArrowDown | ArrowLeft | ArrowRight
  | Enter | F2 | Delete | Backspace
  | Tab (shiftKey : bool)
  | Escape
  | OtherKey.

Definition setEditingCell (e : option ref) (g : state) : state :=
  {| editingCell := e; selectedCell := selectedCell g |}.

Definition setSelectedCell (s : option ref) (g : state) : state :=
  {| editingCell := editingCell g; selectedCell := s |}.

(** What a key does: the state after it and, for [Delete] and
    [Backspace], the cell that [onCellChange(r, c, "")] clears. *)
Definition handleKeyDown (data : SheetData) (k : key) (g : state) : state * option ref :=
  match data with
  | [] => (g, None)
  | _ :: _ =>
      match editingCell g with
      | Some _ =>
          match k with
          | Escape => (setEditingCell None g, None)
          | _ => (g, None)
          end
      | None =>
          match selectedCell g with
          | None => (g, None)
          | Some sel =>
              let maxRows := Z.of_nat (length data) in
              let maxCols := Z.of_nat (maxCols data) in
              match k with
              | ArrowUp =>
                  (setSelectedCell (Some {| r := Z.max 0 (r sel - 1); c := c sel |}) g, None)
              | ArrowDown =>
                  (setSelectedCell (Some {| r := Z.min (maxRows - 1) (r sel + 1); c := c sel |}) g,
                   None)
              | ArrowLeft =>
                  (setSelectedCell (Some {| r := r sel; c := Z.max 0 (c sel - 1) |}) g, None)
              | ArrowRight =>
                  (setSelectedCell (Some {| r := r sel; c := Z.min (maxCols - 1) (c sel + 1) |}) g,
                   None)
              | Enter | F2 => (setEditingCell (Some sel) g, None)
              | Delete | Backspace => (g, Some sel)
              | Tab true =>
                  (setSelectedCell (Some {| r := r sel; c := Z.max 0 (c sel - 1) |}) g, None)
              | Tab false =>
                  (setSelectedCell (Some {| r := r sel; c := Z.min (maxCols - 1) (c sel + 1) |}) g,
                   None)
              | Escape | OtherKey => (g, None)
              end
          end
      end
  end.

(** The cell is one the table shows. *)
Definition inGrid (data : SheetData) (sel : ref) : Prop :=
  0 <= r sel < Z.of_nat (length data) /\ 0 <= c sel < Z.of_nat (maxCols data).

End Grid.

(* ===================================================================== *)
(** * The rule dialogs ([App.tsx])                                        *)
(* ===================================================================== *)

(** [s.split(sep)] for a separator of one character. *)
Fixpoint split (sep : ascii) (s : string) : list string :=
  match s with
  | EmptyString => [EmptyString]
  | String ch rest =>
      if Ascii.eqb ch sep then EmptyString :: split sep rest
      else
        match split sep rest with
        | piece :: pieces => String ch piece :: pieces
        | [] => [String ch EmptyString]
        end
  end.

(** [text.split(',').map(s => s.trim()).filter(s => s.length > 0)] *)
Definition parseOptions (text : string) : list string :=
  List.filter (fun s => negb (strEq s "")) (List.map trim (split "," text)).

(** The state [newRule] of the format dialog. *)
Module NewRule.
Record t : Type := {
  colHeader : string;
  condition : ConditionType.t;
  value : string;
  styleIndex : nat;
}.
End NewRule.

(** The state [newValidation] of the validation dialog. *)
Module NewValidation.
Record t : Type := {
  colHeader : string;
  type : ValidationType.t;
  min : string;
  max : string;
  options : string;
  errorMessage : string;
}.
End NewValidation.

Definition msgBadColumn : string := "Coluna inv" +:+ String "225" "lida".

(** [existingRules.filter(r => r.columnIndex !== colIndex)] *)
Definition otherValidations (colIndex : nat) (rules : list ValidationRule.t)
  : list ValidationRule.t :=
  List.filter (fun r => negb (Nat.eqb (ValidationRule.columnIndex r) colIndex)) rules.

Definition otherFormats (colIndex : nat) (rules : list ConditionalRule.t)
  : list ConditionalRule.t :=
  List.filter (fun r => negb (Nat.eqb (ConditionalRule.columnIndex r) colIndex)) rules.

(** [handleAddRule]; [newId] is the value of [generateUUID()], and
    [PRESET_STYLES[styleIndex]] is read for one of the four indices the
    dialog offers. *)
Definition handleAddRule (newId : string) (newRule : NewRule.t) (st : AppState) : Outcome :=
  match activeSheet st with
  | None => done st
  | Some sheet =>
      if negb (canEdit st) then done st
      else
        let colIndex := getColIndex (NewRule.colHeader newRule) in
        if colIndex <? 0 then alerting msgBadColumn st
        else
          let rule := dialogRule newId (Z.to_nat colIndex) (NewRule.condition newRule)
                        (NewRule.value newRule) (NewRule.styleIndex newRule) in
          done (storeActive (Sheet.data sheet)
                  (Some (orEmpty (Sheet.conditionalFormats sheet) ++ [rule]))
                  (Sheet.validationRules sheet) st)
  end.

(** The object literal [rule] of [handleAddValidation]. *)
Definition validationOf (newId : string) (colIndex : nat) (nv : NewValidation.t)
  : ValidationRule.t :=
  {| ValidationRule.id := newId;
     ValidationRule.columnIndex := colIndex;
     ValidationRule.type := NewValidation.type nv;
     ValidationRule.min := Some (NewValidation.min nv);
     ValidationRule.max := Some (NewValidation.max nv);
     ValidationRule.options :=
       match NewValidation.type nv with
       | ValidationType.list => Some (parseOptions (NewValidation.options nv))
       | _ => None
       end;
     ValidationRule.errorMessage := Some (NewValidation.errorMessage nv) |}.

Definition handleAddValidation (newId : string) (nv : NewValidation.t) (st : AppState)
  : Outcome :=
  match activeSheet st with
  | None => done st
  | Some sheet =>
      if negb (canEdit st) then done st
      else
        let colIndex := getColIndex (NewValidation.colHeader nv) in
        if colIndex <? 0 then alerting msgBadColumn st
        else
          let rule := validationOf newId (Z.to_nat colIndex) nv in
          let filteredRules :=
            otherValidations (Z.to_nat colIndex) (orEmpty (Sheet.validationRules sheet)) in
          done (storeActive (Sheet.data sheet) (Sheet.conditionalFormats sheet)
                  (Some (filteredRules ++ [rule])) st)
  end.

(** ** [handleSetupClassValidation] *)

Definition msgNoHeaders : string :=
  "Planilha vazia ou sem cabe" +:+ String "231" "alhos.".
Definition msgClassError : string :=
  "Turma inv" +:+ String "225" "lida. Selecione uma da lista.".
Definition msgSetupError : string :=
  "Erro ao configurar valida" +:+ String "231" (String "227" "o de turmas.").
Definition msgSetupDone (header : string) : string :=
  "Valida" +:+ String "231" (String "227" ("o configurada para a coluna '" +:+ header +:+ "'.")).

Definition classRule (newId : string) (columnIndex : nat) (options : list string)
  : ValidationRule.t :=
  {| ValidationRule.id := newId;
     ValidationRule.columnIndex := columnIndex;
     ValidationRule.type := ValidationType.list;
     ValidationRule.min := None;
     ValidationRule.max := None;
     ValidationRule.options := Some options;
     ValidationRule.errorMessage := Some msgClassError |}.

(** [userInput] and [userClasses] are the answers to the two prompts
    ([None]: cancelled); the suggestion of the assistant only sets the
    default text of the first prompt. *)
Definition handleSetupClassValidation (userInput userClasses : option string)
    (newId : string) (st : AppState) : Outcome :=
  match activeSheet st with
  | None => done st
  | Some sheet =>
      match Sheet.data sheet with
      | [] => done st
      | header :: _ =>
          match header with
          | None | Some [] => alerting msgNoHeaders st
          | Some headerRow =>
              if negb (nonEmpty userInput) then done st
              else
                match findIndex (isColumnNamed (bound userInput)) headerRow with
                | TypeError => alerting msgSetupError st
                | Ok None => alerting msgNoColumn st
                | Ok (Some columnIndex) =>
                    if negb (nonEmpty userClasses) then done st
                    else
                      let rule := classRule newId columnIndex
                                    (parseOptions (bound userClasses)) in
                      let filteredRules :=
                        otherValidations columnIndex
                          (orEmpty (Sheet.validationRules sheet)) in
                      alerting (msgSetupDone (ToString (cell headerRow columnIndex)))
                        (storeActive (Sheet.data sheet) (Sheet.conditionalFormats sheet)
                           (Some (filteredRules ++ [rule])) st)
                end
          end
      end
  end.

(* ===================================================================== *)
(** * The bulk average ([App.tsx], [handleCalculateAverages])             *)
(* ===================================================================== *)

Definition msgNoGradeColumns : string :=
  "N" +:+ String "227" "o encontrei as colunas 'Nota 1' e 'Nota 2'.".
Definition msgAveragesDone (updatedCount : nat) : string :=
  "M" +:+ String "233" ("dia calculada para " +:+ decimal (N.of_nat updatedCount)
  +:+ " linhas. Formata" +:+ String "231" (String "227"
      "o aplicada: Verde (>=5), Vermelho (<5).")).

(** [activeSheet.data.map(row => row ? [...row] : [])].  [map] passes over
    the holes of [data] and turns a row that is [null] into an empty one;
    [isNull i] tells which of the two the absent row [i] is. *)
Definition copiedRows (isNull : nat -> bool) (data : SheetData) : SheetData :=
  imap (fun i row =>
          match row with
          | Some cells => Some (spread cells)
          | None => if isNull i then Some [] else None
          end) data.

Definition isNullCell (v : CellValue) : bool :=
  match v with VNull => true | _ => false end.

(** The body of the loop over the rows, on a row that is present: the row
    after it, and whether its average was written. *)
Definition averagedRow (col1Idx col2Idx mediaColIdx : nat) (row0 : Row) : Row * bool :=
  let row := padTo row0 mediaColIdx in
  let val1 := operand (cell row col1Idx) in
  let val2 := operand (cell row col2Idx) in
  if negb (isNaN val1) && negb (isNaN val2)
     && negb (isString (cell row col1Idx) "") && negb (isString (cell row col2Idx) "")
     && negb (isNullCell (cell row col1Idx)) && negb (isNullCell (cell row col2Idx))
  then
    let avg := average val1 val2 in
    let useComma := includes (ToString (cell row col1Idx)) ","
                    || includes (ToString (cell row col2Idx)) "," in
    (setAt row mediaColIdx (VStr (rendered useComma avg)), true)
  else (row, false).

(** [for (let i = 1; i < newData.length; i++) { ... }]: the rows after the
    loop and [updatedCount]. *)
Fixpoint averagedRows (col1Idx col2Idx mediaColIdx : nat) (rows : SheetData)
  : SheetData * nat :=
  match rows with
  | [] => ([], 0%nat)
  | None :: rest =>
      let '(rest', n) := averagedRows col1Idx col2Idx mediaColIdx rest in
      (None :: rest', n)
  | Some row :: rest =>
      let '(row', written) := averagedRow col1Idx col2Idx mediaColIdx row in
      let '(rest', n) := averagedRows col1Idx col2Idx mediaColIdx rest in
      (Some row' :: rest', if written then S n else n)
  end.

(** The header row and the column of the average, once ["Média"] was
    pushed where no column has that name. *)
Definition withMediaColumn (header : Row) (found : option nat) : Row * nat :=
  match found with
  | Some mediaColIdx => (header, mediaColIdx)
  | None => (header ++ [Some (VStr str_Media)], length header)
  end.

(** [id1] and [id2] are the values of the two calls of [generateUUID()]. *)
Definition handleCalculateAverages (isNull : nat -> bool) (id1 id2 : string) (st : AppState)
  : Outcome :=
  match activeSheet st with
  | None => done st
  | Some sheet =>
      match copiedRows isNull (Sheet.data sheet) with
      | [] | None :: _ => done st
      | Some header :: rows =>
          let headerTexts := headersOf header in
          let found :=
            let! col1Idx := findIndex (isGradeHeader "nota 1" "p1" "n1") headerTexts in
            let! col2Idx := findIndex (isGradeHeader "nota 2" "p2" "n2") headerTexts in
            Ok (col1Idx, col2Idx) in
          match found with
          | TypeError => throwing st
          | Ok (Some col1Idx, Some col2Idx) =>
              match findIndex isMediaHeader headerTexts with
              | TypeError => throwing st
              | Ok media =>
                  let '(header', mediaColIdx) := withMediaColumn header media in
                  let '(rows', updatedCount) :=
                    averagedRows col1Idx col2Idx mediaColIdx rows in
                  let otherRules := otherFormats mediaColIdx
                                      (orEmpty (Sheet.conditionalFormats sheet)) in
                  alerting (msgAveragesDone updatedCount)
                    (storeActive (Some header' :: rows')
                       (Some (otherRules
                              ++ [failRule id1 mediaColIdx; passRule id2 mediaColIdx]))
                       (Sheet.validationRules sheet) st)
              end
          | Ok _ => alerting msgNoGradeColumns st
          end
      end
  end.

(* ===================================================================== *)
(** * Names of the exported sheets ([App.tsx], [handleExportAll])         *)
(* ===================================================================== *)

(** The class of the regular expression: backslash (U+005C), slash,
    question mark, asterisk and the two square brackets. *)
Definition isForbidden (ch : ascii) : bool :=
  Ascii.eqb ch "092" || Ascii.eqb ch "/" || Ascii.eqb ch "?" || Ascii.eqb ch "*"
  || Ascii.eqb ch "[" || Ascii.eqb ch "]".

(** [s.replace(/.../g, " ")] with that class. *)
Fixpoint blankForbidden (s : string) : string :=
  match s with
  | EmptyString => EmptyString
  | String ch rest => String (if isForbidden ch then " "%char else ch) (blankForbidden rest)
  end.

(** [sheetName] before the search for a name that is free. *)
Definition exportBase (name : string) : string :=
  let sheetName := trim (blankForbidden (if strEq name "" then "Sheet" else name)) in
  let sheetName := if (31 <? String.length sheetName)%nat
                   then takeChars 31 sheetName else sheetName in
  if strEq sheetName "" then "Sheet" else sheetName.

(** [`${sheetName.substring(0, 27)}(${counter})`] *)
Definition numbered (sheetName : string) (counter : N) : string :=
  takeChars 27 sheetName +:+ "(" +:+ decimal counter +:+ ")".

(** [while (wb.SheetNames.includes(uniqueName)) { ... counter++ }], run for
    at most [fuel] turns; [None] when the loop has not ended by then. *)
Fixpoint uniqueFrom (fuel : nat) (sheetNames : list string) (sheetName uniqueName : string)
    (counter : N) : option string :=
  if existsb (strEq uniqueName) sheetNames then
    match fuel with
    | O => None
    | S fuel' =>
        uniqueFrom fuel' sheetNames sheetName (numbered sheetName counter) (counter + 1)%N
    end
  else Some uniqueName.

(** The name under which a sheet called [name] is appended to a workbook
    that has the sheets [sheetNames]. *)
Definition uniqueName (sheetNames : list string) (name : string) : option string :=
  uniqueFrom (S (length sheetNames)) sheetNames (exportBase name) (exportBase name) 1%N.

(** [wb.SheetNames] after [sheets.forEach], in the order of the sheets. *)
Fixpoint exportNamesFrom (sheetNames : list string) (l : list Sheet.t)
  : option (list string) :=
  match l with
  | [] => Some sheetNames
  | sheet :: rest =>
      match uniqueName sheetNames (Sheet.name sheet) with
      | Some n => exportNamesFrom (sheetNames ++ [n]) rest
      | None => None
      end
  end.

Definition exportNames (l : list Sheet.t) : option (list string) := exportNamesFrom [] l.

(* ===================================================================== *)
(** * Identifiers ([utils/excelUtils.ts], [generateUUID])                 *)
(* ===================================================================== *)

Definition uuidTemplate : string := "xxxxxxxx-xxxx-4xxx-yxxx-xxxxxxxxxxxx".

(** [v.toString(16)] for [0 <= v < 16]. *)
Definition hexDigit (v : Z) : ascii :=
  if v <? 10 then ascii_of_N (Z.to_N (48 + v)) else ascii_of_N (Z.to_N (87 + v)).

(** The callback of [replace(/[xy]/g, ...)], on the character [ch] and the
    value [r] of [Math.random() * 16 | 0]. *)
Definition uuidChar (ch : ascii) (r : Z) : ascii :=
  let v := if Ascii.eqb ch "x" then r else Z.lor (Z.land r 3) 8 in
  hexDigit v.

(** [random k] is the value [r] of the call number [k] of the callback. *)
Fixpoint fillTemplate (random : nat -> Z) (k : nat) (template : string) : string :=
  match template with
  | EmptyString => EmptyString
  | String ch rest =>
      if Ascii.eqb ch "x" || Ascii.eqb ch "y"
      then String (uuidChar ch (random k)) (fillTemplate random (S k) rest)
      else String ch (fillTemplate random k rest)
  end.

(** [cryptoUUID] is what [crypto.randomUUID()] returns, [None] where the
    function is missing or throws. *)
Definition generateUUID (cryptoUUID : option string) (random : nat -> Z) : string :=
  match cryptoUUID with
  | Some u => u
  | None => fillTemplate random 0 uuidTemplate
  end.

(* ===================================================================== *)
(** * Loading the saved sheets ([App.tsx], the initial value of [sheets]) *)
(* ===================================================================== *)

(** [if (s.accessCode && !s.editCode) { s.editCode = s.accessCode; }] *)
Definition migrate (s : Sheet.t) : Sheet.t :=
  if isSet (Sheet.accessCode s) && negb (isSet (Sheet.editCode s))
  then {| Sheet.id := Sheet.id s; Sheet.name := Sheet.name s; Sheet.data := Sheet.data s;
          Sheet.conditionalFormats := Sheet.conditionalFormats s;
          Sheet.validationRules := Sheet.validationRules s;
          Sheet.editCode := Sheet.accessCode s; Sheet.viewCode := Sheet.viewCode s;
          Sheet.accessCode := Sheet.accessCode s;
          Sheet.accessCodeExpiration := Sheet.accessCodeExpiration s;
          Sheet.isShared := Sheet.isShared s |}
  else s.

(** [parsed.map(...).filter(s => s !== null)]; an element of [parsed] that
    is no object with a string [id] is [None]. *)
Definition loadSheets (parsed : list (option Sheet.t)) : list Sheet.t :=
  List.map migrate (List.flat_map (fun o => match o with Some s => [s] | None => [] end) parsed).

(* ===================================================================== *)
(** * Notions used in the statements of this part                         *)
(* ===================================================================== *)

Definition isCapital (ch : ascii) : bool := inRange 65 90 ch.
Definition isSmall (ch : ascii) : bool := inRange 97 122 ch.

Fixpoint allChars (p : ascii -> bool) (s : string) : bool :=
  match s with
  | EmptyString => true
  | String ch rest => p ch && allChars p rest
  end.

(** The text consists of the letters A to Z, in either case. *)
Definition isLetters (s : string) : bool := allChars (fun ch => isCapital ch || isSmall ch) s.

(** A header short enough for the sums of [getColIndex] to stay below
    2^53. *)
Definition shortHeader (header : string) : Prop :=
  (String.length (cleanHeader header) <= 10)%nat.

(** The active sheet after [storeActive]. *)
Definition stored (sheet : Sheet.t) (d : SheetData) (cf : option (list ConditionalRule.t))
    (vr : option (list ValidationRule.t)) : Sheet.t :=
  {| Sheet.id := Sheet.id sheet; Sheet.name := Sheet.name sheet; Sheet.data := d;
     Sheet.conditionalFormats := cf; Sheet.validationRules := vr;
     Sheet.editCode := Sheet.editCode sheet; Sheet.viewCode := Sheet.viewCode sheet;
     Sheet.accessCode := Sheet.accessCode sheet;
     Sheet.accessCodeExpiration := Sheet.accessCodeExpiration sheet;
     Sheet.isShared := Sheet.isShared sheet |}.

(** The alert of [updateCell] for a value that [rule] rejects. *)
Definition refusal `{Host} (v : value) (rule : ValidationRule.t) : string :=
  orString (ValidationRule.errorMessage rule)
           (orString (Check.msg (validateValue v rule)) msgInvalid).

(** Sample dialog states: a number rule for column B, a format for
    column D. *)
Definition sampleValidation : NewValidation.t :=
  {| NewValidation.colHeader := "b"; NewValidation.type := ValidationType.number;
     NewValidation.min := "0"; NewValidation.max := "20";
     NewValidation.options := ""; NewValidation.errorMessage := "" |}.

Definition sampleFormat : NewRule.t :=
  {| NewRule.colHeader := "D"; NewRule.condition := ConditionType.gte;
     NewRule.value := "9"; NewRule.styleIndex := 3 |}.

Definition anaRow : Row := cells ["Ana"; "7,5"; "8"; "7,8"].

Definition classSession : AppState := session [classBook] ∅ "" None.

(** The sheet [handleCreateAccessCode] stores. *)
Definition withCodes (sheet : Sheet.t) (editCode viewCode : string) (expiresAt : Js.number)
  : Sheet.t :=
  {| Sheet.id := Sheet.id sheet; Sheet.name := Sheet.name sheet;
     Sheet.data := Sheet.data sheet;
     Sheet.conditionalFormats := Sheet.conditionalFormats sheet;
     Sheet.validationRules := Sheet.validationRules sheet;
     Sheet.editCode := Some editCode; Sheet.viewCode := Some viewCode;
     Sheet.accessCode := Sheet.accessCode sheet;
     Sheet.accessCodeExpiration := Some expiresAt;
     Sheet.isShared := Some true |}.

(** The text of the code field as [handleUnlockSheet] compares it, for a
    text typed into the field (which puts it in capitals). *)
Definition codeRead (typed : string) : string := toUpperCase (trim (toUpperCase typed)).

(** A sheet saved by an older version: one access code, no edit code. *)
Definition legacySheet : Sheet.t :=
  {| Sheet.id := "old"; Sheet.name := "Pauta"; Sheet.data := [Some []];
     Sheet.conditionalFormats := None; Sheet.validationRules := None;
     Sheet.editCode := None; Sheet.viewCode := None; Sheet.accessCode := Some "OLD123";
     Sheet.accessCodeExpiration := None; Sheet.isShared := Some true |}.

(** A digit of the hexadecimal notation in small letters. *)
Definition isHex (ch : ascii) : bool := inRange 48 57 ch || inRange 97 102 ch.

(** A random source that counts up. *)
Definition countingRandom (k : nat) : Z := Z.of_nat k mod 16.

(** A name that is not empty and has none of the six characters that
    [handleExportAll] blanks. *)
Definition isAllowed (ch : ascii) : bool := negb (isForbidden ch).

Definition cleanName (n : string) : Prop :=
  n <> EmptyString /\ allChars isAllowed n = true.

(** The name comes from the name of the sheet: its cleaned form, or that
    form cut and numbered. *)
Definition namedAfter (sheet : Sheet.t) (n : string) : Prop :=
  n = exportBase (Sheet.name sheet)
  \/ exists counter : N, n = numbered (exportBase (Sheet.name sheet)) counter.

(** The shape [local@domain.rest] with three parts that are not empty and
    have neither white space nor an "@". *)
Definition emailShape (s : string) : Prop :=
  exists a b c : string,
    s = a +:+ "@" +:+ b +:+ "." +:+ c
    /\ a <> EmptyString /\ b <> EmptyString /\ c <> EmptyString
    /\ allPlain a = true /\ allPlain b = true /\ allPlain c = true.

Definition emailRule : ValidationRule.t :=
  {| ValidationRule.id := "e"; ValidationRule.columnIndex := 0;
     ValidationRule.type := ValidationType.email;
     ValidationRule.min := Some ""; ValidationRule.max := Some "";
     ValidationRule.options := None; ValidationRule.errorMessage := Some "" |}.

(** Both grades of the row are read as numbers. *)
Definition averageable (col1Idx col2Idx : nat) (row : Row) : bool :=
  negb (isNaN (operand (cell row col1Idx))) && negb (isNaN (operand (cell row col2Idx))).

(** The text of the average of the two grades of a row: one decimal, with
    a comma when the text of a grade has one. *)
Definition averageOf (col1Idx col2Idx : nat) (row : Row) : string :=
  rendered (hasComma (ToString (cell row col1Idx)) || hasComma (ToString (cell row col2Idx)))
           (average (operand (cell row col1Idx)) (operand (cell row col2Idx))).

(** The rows that are present and whose two grades are read as numbers. *)
Definition countAveraged (col1Idx col2Idx : nat) (rows : SheetData) : nat :=
  length (List.filter (fun o => match o with
                                | Some row => averageable col1Idx col2Idx row
                                | None => false
                                end) rows).

(** The style of the two rules that the bulk average installs. *)
Definition gradeStyle (id1 id2 : string) (mediaColIdx : nat) (v : CellValue)
  : option CellStyle.t :=
  if isNumber v then
    if numLt (ToNumber (normalizedValue v)) (ofZ 5)
    then Some (styleOf (failRule id1 mediaColIdx))
    else Some (styleOf (passRule id2 mediaColIdx))
  else None.

Definition noNulls (i : nat) : bool := false.

(** A grade book of two pupils whose averages are still to be filled. *)
Definition openBook : AppState :=
  gradeSession [cells ["Ana"; "7,5"; "8"; ""]; cells ["Rui"; ""; "12"; ""]].

(** Sheets as a workbook parser returns them, and sheets to export. *)
Definition uploaded : list Sheet.t :=
  [plainSheet "u1" "Folha1" [Some (cells ["Nome"])]; plainSheet "u2" "Folha2" []].

Definition toExport : list Sheet.t :=
  [plainSheet "a" "Turma/A" []; plainSheet "b" "Turma A" []; plainSheet "c" "" [];
   plainSheet "d" "Sheet" []].

(* ===================================================================== *)
(** * Properties of the conditional formats                               *)
(* ===================================================================== *)

Section FirstMatch.
Variable v : CellValue.
Variable colIndex : nat.

Let hit (r : ConditionalRule.t) : bool := onColumn colIndex r && ruleMatches v r.

Lemma firstMatch_filter (rules : list ConditionalRule.t) :
  firstMatch v (List.filter (onColumn colIndex) rules)
  = option_map styleOf (List.find hit rules).
Proof.
  induction rules as [|r rules IH]; simpl; [reflexivity|].
  unfold hit at 1. destruct (onColumn colIndex r); simpl.
  - destruct (ruleMatches v r); simpl; [reflexivity | exact IH].
  - exact IH.
Qed.

Lemma getCellStyle_find (rules : list ConditionalRule.t) (rowIndex : nat) :
  rowIndex <> 0%nat ->
  getCellStyle rules rowIndex colIndex v = option_map styleOf (List.find hit rules).
Proof.
  intros Hrow. unfold getCellStyle.
  destruct (Nat.eqb_spec rowIndex 0) as [E|_]; [contradiction|].
  rewrite <- firstMatch_filter.
  destruct (List.filter (onColumn colIndex) rules); reflexivity.
Qed.

Lemma find_hit_first (before after : list ConditionalRule.t) (r : ConditionalRule.t) :
  hit r = true ->
  (forall q, In q before -> hit q = false) ->
  List.find hit (before ++ r :: after) = Some r.
Proof.
  intros Hr. induction before as [|q before IH]; simpl; intros Hb.
  - rewrite Hr. reflexivity.
  - rewrite (Hb q (or_introl Logic.eq_refl)). apply IH. intros q' Hq'. apply Hb. now right.
Qed.

Lemma find_hit_none (rules : list ConditionalRule.t) :
  (forall q, In q rules -> hit q = false) -> List.find hit rules = None.
Proof.
  induction rules as [|q rules IH]; simpl; intros Hb; [reflexivity|].
  rewrite (Hb q (or_introl Logic.eq_refl)). apply IH. intros q' Hq'. apply Hb. now right.
Qed.

Lemma hit_false (q : ConditionalRule.t) :
  (onColumn colIndex q = true -> ruleMatches v q = false) -> hit q = false.
Proof.
  unfold hit. destruct (onColumn colIndex q); simpl; [intros H; now apply H | reflexivity].
Qed.
End FirstMatch.

(** C1.  On the rows that can carry a style, those below the header row,
    [getCellStyle] returns the style of the earliest rule of the column
    that matches the value, whatever rules follow it in the list, and no
    style when no rule of the column matches. *)
Theorem getCellStyle_first_match_wins :
  forall (rules : list ConditionalRule.t) (rowIndex colIndex : nat) (v : CellValue),
    rowIndex <> 0%nat ->
    (forall before r after,
        rules = before ++ r :: after ->
        onColumn colIndex r = true ->
        ruleMatches v r = true ->
        (forall q, In q before -> onColumn colIndex q = true -> ruleMatches v q = false) ->
        getCellStyle rules rowIndex colIndex v = Some (styleOf r))
    /\ ((forall q, In q rules -> onColumn colIndex q = true -> ruleMatches v q = false) ->
        getCellStyle rules rowIndex colIndex v = None).
Proof.
  intros rules rowIndex colIndex v Hrow. split.
  - intros before r after -> Hcol Hm Hb.
    rewrite getCellStyle_find by assumption.
    rewrite find_hit_first; [reflexivity | now rewrite Hcol, Hm |].
    intros q Hq. apply hit_false. now apply Hb.
  - intros Hnone. rewrite getCellStyle_find by assumption.
    rewrite find_hit_none; [reflexivity|].
    intros q Hq. apply hit_false. now apply Hnone.
Qed.

(** Two rules of column 2 that both match "3,5": the first one wins. *)
Lemma getCellStyle_first_match_wins_witness :
  getCellStyle [dialogRule "a" 2 ConditionType.lt "10" 2; failRule "b" 2; passRule "c" 2]
               1 2 (VStr "3,5")
  = Some (styleOf (dialogRule "a" 2 ConditionType.lt "10" 2))
  /\ ruleMatches (VStr "3,5") (failRule "b" 2) = true.
Proof.
  split; [|vm_compute; reflexivity].
  apply (proj1 (getCellStyle_first_match_wins
                  [dialogRule "a" 2 ConditionType.lt "10" 2; failRule "b" 2; passRule "c" 2]
                  1 2 (VStr "3,5") ltac:(discriminate))
               [] (dialogRule "a" 2 ConditionType.lt "10" 2) [failRule "b" 2; passRule "c" 2]).
  - reflexivity.
  - reflexivity.
  - vm_compute; reflexivity.
  - intros q [].
Defined.

(** The header row is never styled, whatever the rules and the value. *)
Lemma getCellStyle_header_row (rules : list ConditionalRule.t) (colIndex : nat)
    (v : CellValue) :
  getCellStyle rules 0 colIndex v = None.
Proof. reflexivity. Qed.

(* ===================================================================== *)
(** * Properties of [handleUnlockSheet]                                   *)
(* ===================================================================== *)

Lemma grant_level (level : AccessLevel) (sheet : Sheet.t) (st : AppState) :
  unlockedSheets (grant level sheet st) !! Sheet.id sheet = Some level.
Proof. unfold grant. simpl. apply lookup_insert_eq. Qed.

(** C2 (as amended).  Once the time is strictly past a non-zero
    [accessCodeExpiration], [handleUnlockSheet] only sets the expiration
    message: whatever the code typed, the access levels, the sheets and the
    code field stay as they were. *)
Theorem unlock_rejects_expired_codes :
  forall (now e : Js.number) (st : AppState) (sheet : Sheet.t),
    activeSheet st = Some sheet ->
    Sheet.accessCodeExpiration sheet = Some e ->
    truthy (VNum e) = true ->
    numGt now e = true ->
    handleUnlockSheet now st = setAccessError (Some msgExpired) st
    /\ accessError (handleUnlockSheet now st) = Some msgExpired
    /\ unlockedSheets (handleUnlockSheet now st) = unlockedSheets st
    /\ sheets (handleUnlockSheet now st) = sheets st.
Proof.
  intros now e st sheet Hact Hexp Htr Hgt.
  assert (E : handleUnlockSheet now st = setAccessError (Some msgExpired) st).
  { unfold handleUnlockSheet. rewrite Hact. unfold expiredAt. rewrite Hexp, Htr, Hgt.
    reflexivity. }
  rewrite E. repeat split.
Qed.

(** The edit code is typed one millisecond after the codes expired. *)
Lemma unlock_rejects_expired_codes_witness :
  accessError (handleUnlockSheet (ofZ 1001)
                 (session [sharedSheet "s1" "ABC123" "XYZ789" 1000] ∅ "ABC123" None))
  = Some msgExpired
  /\ unlockedSheets (handleUnlockSheet (ofZ 1001)
                 (session [sharedSheet "s1" "ABC123" "XYZ789" 1000] ∅ "ABC123" None))
     = ∅.
Proof.
  pose proof (unlock_rejects_expired_codes (ofZ 1001) (ofZ 1000)
                (session [sharedSheet "s1" "ABC123" "XYZ789" 1000] ∅ "ABC123" None)
                (sharedSheet "s1" "ABC123" "XYZ789" 1000))
    as H.
  destruct H as (_ & Herr & Hunl & _); try reflexivity.
  split; [exact Herr | exact Hunl].
Defined.

(** C2, as stated, fails at the instant of expiration: with
    [now = accessCodeExpiration] the sheet counts as not expired and the
    edit code still unlocks it. *)
Lemma unlock_at_expiration_instant_grants_access :
  numGe (ofZ 1000) (ofZ 1000) = true
  /\ Sheet.accessCodeExpiration (sharedSheet "s1" "ABC123" "XYZ789" 1000) = Some (ofZ 1000)
  /\ unlockedSheets
       (handleUnlockSheet (ofZ 1000)
          (session [sharedSheet "s1" "ABC123" "XYZ789" 1000] ∅ "ABC123" None))
     !! "s1" = Some edit
  /\ accessError
       (handleUnlockSheet (ofZ 1000)
          (session [sharedSheet "s1" "ABC123" "XYZ789" 1000] ∅ "ABC123" None))
     = None.
Proof. repeat split; vm_compute; reflexivity. Qed.

(** C4 (as amended).  On a sheet that is not expired, [handleUnlockSheet]
    trims the typed text, puts it in upper case and compares the result by
    strict equality with [editCode] (edit), then [viewCode] (view), then the
    legacy [accessCode] (edit).  When none is equal it sets the message
    "incorrect code" and changes no access level.  Against a code that is
    stored in upper case, as the sharing dialog issues them, the comparison
    is therefore independent of the letter case of the input. *)
Theorem unlock_compares_upper_cased_input :
  forall (now : Js.number) (st : AppState) (sheet : Sheet.t),
    activeSheet st = Some sheet ->
    expiredAt now sheet = false ->
    let input := toUpperCase (trim (accessCodeInput st)) in
    (codeIs input (Sheet.editCode sheet) = true ->
       handleUnlockSheet now st = grant edit sheet st)
    /\ (codeIs input (Sheet.editCode sheet) = false ->
        codeIs input (Sheet.viewCode sheet) = true ->
        handleUnlockSheet now st = grant view sheet st)
    /\ (codeIs input (Sheet.editCode sheet) = false ->
        codeIs input (Sheet.viewCode sheet) = false ->
        codeIs input (Sheet.accessCode sheet) = true ->
        handleUnlockSheet now st = grant edit sheet st)
    /\ (codeIs input (Sheet.editCode sheet) = false ->
        codeIs input (Sheet.viewCode sheet) = false ->
        codeIs input (Sheet.accessCode sheet) = false ->
        handleUnlockSheet now st = setAccessError (Some msgWrongCode) st
        /\ unlockedSheets (handleUnlockSheet now st) = unlockedSheets st)
    /\ (forall code : string,
          toUpperCase code = code ->
          (codeIs input (Some code) = true
           <-> toUpperCase (trim (accessCodeInput st)) = toUpperCase code)).
Proof.
  intros now st sheet Hact Hexp input.
  unfold handleUnlockSheet. rewrite Hact, Hexp. fold input.
  split; [|split; [|split; [|split]]].
  - intros ->. reflexivity.
  - intros -> ->. reflexivity.
  - intros -> -> ->. reflexivity.
  - intros -> -> ->. split; reflexivity.
  - intros code Hup. simpl. unfold strEq. rewrite String.eqb_eq, Hup. reflexivity.
Qed.

(** The view code, typed in small letters with blanks around it. *)
Lemma unlock_compares_upper_cased_input_witness :
  handleUnlockSheet (ofZ 999)
    (session [sharedSheet "s1" "ABC123" "XYZ789" 1000] ∅ " xyz789 " None)
  = grant view (sharedSheet "s1" "ABC123" "XYZ789" 1000)
      (session [sharedSheet "s1" "ABC123" "XYZ789" 1000] ∅ " xyz789 " None).
Proof.
  apply (proj1 (proj2 (unlock_compares_upper_cased_input (ofZ 999)
            (session [sharedSheet "s1" "ABC123" "XYZ789" 1000] ∅ " xyz789 " None)
            (sharedSheet "s1" "ABC123" "XYZ789" 1000) Logic.eq_refl Logic.eq_refl)));
    reflexivity.
Defined.

(** C4, as stated, fails for a code that is not stored in upper case: the
    text typed equals the edit code letter for letter and is rejected. *)
Lemma unlock_rejects_lower_case_code :
  Sheet.editCode (sharedSheet "s1" "abc123" "XYZ789" 1000) = Some "abc123"
  /\ expiredAt (ofZ 999) (sharedSheet "s1" "abc123" "XYZ789" 1000) = false
  /\ accessError
       (handleUnlockSheet (ofZ 999)
          (session [sharedSheet "s1" "abc123" "XYZ789" 1000] ∅ "abc123" None))
     = Some msgWrongCode
  /\ unlockedSheets
       (handleUnlockSheet (ofZ 999)
          (session [sharedSheet "s1" "abc123" "XYZ789" 1000] ∅ "abc123" None))
     !! "s1" = None.
Proof. repeat split; vm_compute; reflexivity. Qed.

(* ===================================================================== *)
(** * Facts about the runtime                                             *)
(* ===================================================================== *)

(** ** Comparison of numbers *)

Lemma SFcompare_antisym (x y : spec_float) :
  SFcompare y x = option_map CompOpp (SFcompare x y).
Proof.
  destruct x as [sx|sx| |sx mx ex], y as [sy|sy| |sy my ey]; simpl;
    try reflexivity; try (destruct sx; reflexivity); try (destruct sy; reflexivity);
    try (destruct sx, sy; reflexivity).
  destruct sx, sy; simpl; try reflexivity.
  - rewrite (Z.compare_antisym ex ey).
    destruct (ex ?= ey); simpl; try reflexivity.
    now rewrite (Pos.compare_cont_antisym mx my Eq).
  - rewrite (Z.compare_antisym ex ey).
    destruct (ex ?= ey); simpl; try reflexivity.
    now rewrite (Pos.compare_cont_antisym mx my Eq).
Qed.

Lemma numLe_not_numLt (x y : Js.number) : numLe x y = true -> numLt y x = false.
Proof.
  unfold numLe, numLt, SFleb, SFltb. rewrite (SFcompare_antisym x y).
  destruct (SFcompare x y) as [[]|]; simpl; congruence.
Qed.

Lemma numLe_not_numGt (x y : Js.number) : numLe x y = true -> numGt x y = false.
Proof. unfold numGt. apply numLe_not_numLt. Qed.

Lemma numLt_not_NaN (x y : Js.number) : numLt x y = true -> isNaN x = false.
Proof. destruct x; simpl; try reflexivity. discriminate. Qed.

Lemma numGt_not_NaN (x y : Js.number) : numGt x y = true -> isNaN x = false.
Proof. destruct x, y; simpl; try reflexivity; discriminate. Qed.

(** ** Strings with a comma are not numeric literals *)

Lemma startsWith_nil (s : string) : startsWith s EmptyString = true.
Proof. now destruct s. Qed.

Lemma hasComma_cons (c : ascii) (s : string) :
  hasComma (String c s) = Ascii.eqb c "," || hasComma s.
Proof. unfold hasComma. simpl. now rewrite startsWith_nil, andb_true_r. Qed.

Lemma hasComma_nil : hasComma EmptyString = false.
Proof. reflexivity. Qed.

(** A character on which [p] holds, when [p] fails at the comma, is not
    the comma. *)
Lemma not_comma (p : ascii -> bool) (c : ascii) :
  p ","%char = false -> p c = true -> Ascii.eqb c "," = false.
Proof.
  intros Hp Hc. destruct (Ascii.eqb_spec c ","); [subst; congruence | reflexivity].
Qed.

Lemma hasComma_trimStart (s : string) : hasComma (trimStart s) = hasComma s.
Proof.
  induction s as [|c s IH]; [reflexivity|]. simpl.
  destruct (isWhiteSpace c) eqn:E; [|reflexivity].
  rewrite hasComma_cons, (not_comma isWhiteSpace c Logic.eq_refl E). exact IH.
Qed.

Lemma hasComma_trimEnd (s : string) : hasComma (trimEnd s) = hasComma s.
Proof.
  induction s as [|c s IH]; [reflexivity|]. simpl. rewrite hasComma_cons, <- IH.
  destruct (trimEnd s) as [|d t].
  - destruct (isWhiteSpace c) eqn:E.
    + now rewrite (not_comma isWhiteSpace c Logic.eq_refl E).
    + now rewrite hasComma_cons.
  - now rewrite hasComma_cons.
Qed.

Lemma hasComma_trim (s : string) : hasComma (trim s) = hasComma s.
Proof. unfold trim. now rewrite hasComma_trimEnd, hasComma_trimStart. Qed.

Lemma hasComma_spanDigits (s d r : string) :
  spanDigits s = (d, r) -> hasComma r = hasComma s.
Proof.
  revert d r. induction s as [|c s IH]; simpl; intros d r E.
  - now inversion E.
  - destruct (isDigit c) eqn:Ed.
    + destruct (spanDigits s) as [d' r'] eqn:Es. inversion E; subst.
      rewrite hasComma_cons, (not_comma isDigit c Logic.eq_refl Ed). simpl.
      now apply (IH d').
    + now inversion E.
Qed.

Lemma hasComma_scanExponent (s r : string) (e : Z) :
  scanExponent s = (e, r) -> hasComma r = hasComma s.
Proof.
  unfold scanExponent. destruct s as [|c s]; [now inversion 1|].
  destruct (Ascii.eqb c "e" || Ascii.eqb c "E") eqn:Ec; [|now inversion 1].
  assert (Hc : Ascii.eqb c "," = false)
    by (apply (not_comma (fun c => Ascii.eqb c "e" || Ascii.eqb c "E") c Logic.eq_refl Ec)).
  assert (Hsign : forall neg r1,
             match s with
             | String sg r' =>
                 if Ascii.eqb sg "-" then (true, r')
                 else if Ascii.eqb sg "+" then (false, r') else (false, s)
             | EmptyString => (false, s)
             end = (neg, r1) -> hasComma r1 = hasComma s).
  { intros neg r1. destruct s as [|sg r']; [now inversion 1|].
    destruct (Ascii.eqb sg "-") eqn:E1.
    - inversion 1; subst.
      now rewrite hasComma_cons, (not_comma (fun c => Ascii.eqb c "-") sg Logic.eq_refl E1).
    - destruct (Ascii.eqb sg "+") eqn:E2; inversion 1; subst; [|reflexivity].
      now rewrite hasComma_cons, (not_comma (fun c => Ascii.eqb c "+") sg Logic.eq_refl E2). }
  destruct (match s with
            | String sg r' =>
                if Ascii.eqb sg "-" then (true, r')
                else if Ascii.eqb sg "+" then (false, r') else (false, s)
            | EmptyString => (false, s)
            end) as [neg r1] eqn:Esg.
  specialize (Hsign neg r1 Logic.eq_refl).
  destruct (spanDigits r1) as [ds r2] eqn:Eds.
  apply hasComma_spanDigits in Eds.
  destruct ds; inversion 1; subst; [reflexivity|].
  rewrite hasComma_cons, Hc. simpl. congruence.
Qed.

Lemma hasComma_dropPrefix (p s : string) :
  startsWith s p = true -> hasComma p = false ->
  hasComma (dropChars (String.length p) s) = hasComma s.
Proof.
  revert s. induction p as [|b p IH]; intros s Hs Hp; [reflexivity|].
  destruct s as [|a s]; [discriminate|]. simpl in Hs.
  apply andb_prop in Hs as [Hab Hs]. apply Ascii.eqb_eq in Hab. subst a.
  rewrite hasComma_cons in Hp. apply orb_false_elim in Hp as [Hb Hp].
  simpl. rewrite hasComma_cons, Hb. simpl. now apply IH.
Qed.

Lemma hasComma_scanUnsigned (neg : bool) (s r : string) (v : Js.number) :
  scanUnsigned neg s = Some (v, r) -> hasComma r = hasComma s.
Proof.
  unfold scanUnsigned. destruct (startsWith s "Infinity") eqn:Einf.
  - inversion 1; subst. now apply (hasComma_dropPrefix "Infinity").
  - destruct (spanDigits s) as [ip r1] eqn:E1. apply hasComma_spanDigits in E1.
    assert (Hplain : forall ex r4, scanExponent r1 = (ex, r4) -> hasComma r4 = hasComma s).
    { intros ex r4 E. apply hasComma_scanExponent in E. congruence. }
    destruct r1 as [|c r2].
    { destruct ip; [discriminate|]. destruct (scanExponent "") as [ex r4] eqn:E4.
      inversion 1; subst. now apply (Hplain ex). }
    destruct (Ascii.eqb_spec c ".") as [->|Hne].
    + destruct (spanDigits r2) as [fp r3] eqn:E3. apply hasComma_spanDigits in E3.
      rewrite hasComma_cons in E1. simpl in E1.
      destruct (scanExponent r3) as [ex r4] eqn:E4. apply hasComma_scanExponent in E4.
      destruct ip, fp; try discriminate; inversion 1; subst; congruence.
    + assert (Hgen : match ip with
                     | EmptyString => None
                     | String _ _ =>
                         let '(ex, r4) := scanExponent (String c r2) in
                         Some (fromDecimal neg (digitsValue ip) ex, r4)
                     end = Some (v, r) -> hasComma r = hasComma s).
      { destruct ip; [discriminate|].
        destruct (scanExponent (String c r2)) as [ex r4] eqn:E4.
        inversion 1; subst. now apply (Hplain ex). }
      destruct c as [[] [] [] [] [] [] [] []]; try exact Hgen. now contradiction Hne.
Qed.

Lemma hasComma_scanDecimal (s r : string) (v : Js.number) :
  scanDecimal s = Some (v, r) -> hasComma r = hasComma s.
Proof.
  unfold scanDecimal. destruct s as [|c s]; [apply hasComma_scanUnsigned|].
  destruct (Ascii.eqb_spec c "-") as [->|Hm].
  { intros E. apply hasComma_scanUnsigned in E. now rewrite hasComma_cons. }
  destruct (Ascii.eqb_spec c "+") as [->|Hp].
  { intros E. apply hasComma_scanUnsigned in E. now rewrite hasComma_cons. }
  destruct c as [[] [] [] [] [] [] [] []];
    try apply hasComma_scanUnsigned; now contradiction.
Qed.

Lemma radixValueFrom_no_comma (radix acc v : N) (s : string) :
  radixValueFrom radix acc s = Some v -> hasComma s = false.
Proof.
  revert acc. induction s as [|c s IH]; intros acc; [reflexivity|]. simpl.
  destruct (radixDigit radix c) as [d|] eqn:Ed; [|discriminate].
  intros E. rewrite hasComma_cons, (IH _ E), orb_false_r.
  destruct (Ascii.eqb_spec c ","); [subst; discriminate | reflexivity].
Qed.

Lemma scanNonDecimal_no_comma (s : string) (v : Js.number) :
  scanNonDecimal s = Some (Some v) -> hasComma s = false.
Proof.
  unfold scanNonDecimal. destruct s as [|z s]; [discriminate|].
  destruct (Ascii.eqb_spec z "0") as [->|Hz];
    [|destruct z as [[] [] [] [] [] [] [] []]; try discriminate; now contradiction].
  destruct s as [|p r]; [discriminate|].
  set (radix := if Ascii.eqb p "x" || Ascii.eqb p "X" then Some 16%N
                else if Ascii.eqb p "o" || Ascii.eqb p "O" then Some 8%N
                else if Ascii.eqb p "b" || Ascii.eqb p "B" then Some 2%N
                else None).
  assert (Hp : radix <> None -> Ascii.eqb p "," = false).
  { destruct (Ascii.eqb_spec p ","); [subst; intros C; now contradiction C | reflexivity]. }
  destruct radix as [rd|] eqn:Er; [|discriminate].
  destruct r as [|c r]; [discriminate|].
  destruct (radixValueFrom rd 0 (String c r)) as [n|] eqn:En; [|discriminate].
  intros _. apply radixValueFrom_no_comma in En.
  rewrite !hasComma_cons in *. rewrite Hp by discriminate. exact En.
Qed.

(** [Number(s)] is NaN for every string that contains a comma. *)
Lemma StringToNumber_comma (s : string) :
  includes s "," = true -> StringToNumber s = NaN.
Proof.
  intros Hs. unfold StringToNumber.
  pose proof (hasComma_trim s) as Ht. unfold hasComma at 2 in Ht. rewrite Hs in Ht.
  destruct (trim s) as [|c t] eqn:Et; [discriminate|].
  destruct (scanNonDecimal (String c t)) as [[v|]|] eqn:En; [|reflexivity|].
  - apply scanNonDecimal_no_comma in En. congruence.
  - destruct (scanDecimal (String c t)) as [[v r]|] eqn:Ed; [|reflexivity].
    destruct r; [|reflexivity].
    apply hasComma_scanDecimal in Ed. rewrite Ht in Ed. discriminate.
Qed.

(* ===================================================================== *)
(** * Properties of [validateValue]                                       *)
(* ===================================================================== *)

Lemma isSet_Some (s : string) : s <> EmptyString -> isSet (Some s) = true.
Proof. intros Hs. unfold isSet, strEq. now apply String.eqb_neq in Hs as ->. Qed.

Lemma isSet_inv (o : option string) :
  isSet o = true -> exists s, o = Some s /\ s <> EmptyString.
Proof.
  destruct o as [s|]; [|discriminate]. unfold isSet, strEq. intros E.
  exists s. split; [reflexivity|]. apply String.eqb_neq. now destruct (String.eqb s "").
Qed.

(** A value of a number rule is judged by [numberBlock] alone. *)
Lemma validateValue_number (host : Host) (v : value) (rule : ValidationRule.t) :
  ValidationRule.type rule = ValidationType.number ->
  isEmptyInput v = false ->
  validateValue v rule
  = match numberBlock v rule with Some m => rejected m | None => accepted end.
Proof.
  intros Hty Hne. unfold validateValue. rewrite Hne.
  destruct (numberBlock v rule); [reflexivity|].
  unfold dateBlock, listBlock, emailBlock. rewrite Hty. reflexivity.
Qed.

(** C7.  For a rule of type number and a value that is not empty: a value
    that does not parse is rejected; a value strictly below a set [min] is
    rejected with the message of [min]; a value strictly above a set [max]
    is rejected with the message of [max] (or, when it is also below [min],
    with that of [min]); a value that parses and lies within the bounds
    that are set, both inclusive, is accepted. *)
Theorem validateValue_number_bounds :
  forall (host : Host) (v : value) (rule : ValidationRule.t),
    ValidationRule.type rule = ValidationType.number ->
    isEmptyInput v = false ->
    (isNaN (ToNumber v) = true -> validateValue v rule = rejected msgNotNumber)
    /\ (forall lo, ValidationRule.min rule = Some lo -> lo <> EmptyString ->
          numLt (ToNumber v) (StringToNumber lo) = true ->
          validateValue v rule = rejected (msgMin lo))
    /\ (forall hi, ValidationRule.max rule = Some hi -> hi <> EmptyString ->
          numGt (ToNumber v) (StringToNumber hi) = true ->
          validateValue v rule = rejected (msgMax hi)
          \/ exists lo, ValidationRule.min rule = Some lo
                        /\ numLt (ToNumber v) (StringToNumber lo) = true
                        /\ validateValue v rule = rejected (msgMin lo))
    /\ (isNaN (ToNumber v) = false ->
        (forall lo, ValidationRule.min rule = Some lo -> lo <> EmptyString ->
           numLe (StringToNumber lo) (ToNumber v) = true) ->
        (forall hi, ValidationRule.max rule = Some hi -> hi <> EmptyString ->
           numLe (ToNumber v) (StringToNumber hi) = true) ->
        validateValue v rule = accepted).
Proof.
  intros host v rule Hty Hne.
  rewrite (validateValue_number host v rule Hty Hne).
  unfold numberBlock. rewrite Hty.
  split; [|split; [|split]].
  - intros ->. reflexivity.
  - intros lo Hlo Hset Hlt.
    rewrite (numLt_not_NaN _ _ Hlt), Hlo, (isSet_Some lo Hset). simpl. now rewrite Hlt.
  - intros hi Hhi Hset Hgt.
    rewrite (numGt_not_NaN _ _ Hgt), Hhi, (isSet_Some hi Hset). simpl bound. rewrite Hgt.
    destruct (isSet (ValidationRule.min rule)
              && numLt (ToNumber v) (StringToNumber (bound (ValidationRule.min rule)))) eqn:E.
    + right. apply andb_prop in E as [E1 E2].
      apply isSet_inv in E1 as (lo & Hlo & _). rewrite Hlo in *. simpl in E2.
      exists lo. now repeat split.
    + left. reflexivity.
  - intros Hnum Hmin Hmax. rewrite Hnum.
    assert (E1 : isSet (ValidationRule.min rule)
                 && numLt (ToNumber v) (StringToNumber (bound (ValidationRule.min rule)))
                 = false).
    { destruct (isSet (ValidationRule.min rule)) eqn:E; [|reflexivity].
      apply isSet_inv in E as (lo & Hlo & Hset). rewrite Hlo. simpl.
      apply numLe_not_numLt. now apply Hmin. }
    assert (E2 : isSet (ValidationRule.max rule)
                 && numGt (ToNumber v) (StringToNumber (bound (ValidationRule.max rule)))
                 = false).
    { destruct (isSet (ValidationRule.max rule)) eqn:E; [|reflexivity].
      apply isSet_inv in E as (hi & Hhi & Hset). rewrite Hhi. simpl.
      apply numLe_not_numGt. now apply Hmax. }
    now rewrite E1, E2.
Qed.

(** With the bounds "0" and "20": "20" is accepted, "20.5" is rejected. *)
Lemma validateValue_number_bounds_witness :
  @validateValue lenientHost (VStr "20") (numberRule 1 "0" "20") = accepted
  /\ @validateValue lenientHost (VStr "20.5") (numberRule 1 "0" "20") = rejected (msgMax "20").
Proof.
  split.
  - apply (proj2 (proj2 (proj2 (validateValue_number_bounds lenientHost (VStr "20")
             (numberRule 1 "0" "20") Logic.eq_refl Logic.eq_refl)))).
    + reflexivity.
    + intros lo [= <-] _. vm_compute. reflexivity.
    + intros hi [= <-] _. vm_compute. reflexivity.
  - vm_compute. reflexivity.
Defined.

(** C10.  A rule of type number reads the value with [Number] and no
    replacement of the comma, so every string with a comma is rejected as
    not being a number, whereas the conditional formats and the reactive
    average read the same cell after replacing its first comma by a
    period: there "7,5" is the number 7.5. *)
Theorem number_validation_keeps_commas :
  forall (host : Host) (s : string) (rule : ValidationRule.t),
    ValidationRule.type rule = ValidationType.number ->
    hasComma s = true ->
    validateValue (VStr s) rule = rejected msgNotNumber
    /\ ToNumber (normalizedValue (VStr s)) = StringToNumber (replaceFirst "," "." s)
    /\ operand (VStr s) = parseFloat (replaceFirst "," "." s)
    /\ isNumber (VStr "7,5") = true
    /\ ToNumber (normalizedValue (VStr "7,5")) = fromDecimal false 75 (-1)
    /\ operand (VStr "7,5") = fromDecimal false 75 (-1).
Proof.
  intros host s rule Hty Hs.
  assert (Hne : String.eqb s EmptyString = false).
  { apply String.eqb_neq. intros ->. discriminate. }
  split; [|split; [|split; [|split; [|split]]]].
  - assert (He : isEmptyInput (VStr s) = false).
    { unfold isEmptyInput, isString, strEq. now rewrite Hne. }
    rewrite (validateValue_number host (VStr s) rule Hty He).
    unfold numberBlock. rewrite Hty. unfold ToNumber.
    rewrite (StringToNumber_comma s Hs). reflexivity.
  - reflexivity.
  - unfold operand, orElse, truthy, strEq. now rewrite Hne.
  - vm_compute. reflexivity.
  - vm_compute. reflexivity.
  - vm_compute. reflexivity.
Qed.

Lemma number_validation_keeps_commas_witness :
  @validateValue lenientHost (VStr "7,5") (numberRule 1 "0" "20") = rejected msgNotNumber.
Proof.
  apply (number_validation_keeps_commas lenientHost "7,5" (numberRule 1 "0" "20")
           Logic.eq_refl Logic.eq_refl).
Defined.

(* ===================================================================== *)
(** * Arrays with holes                                                   *)
(* ===================================================================== *)

Section Arrays.
Context {A : Type}.

Lemma at_nil (i : nat) : at_ (@nil (option A)) i = None.
Proof. unfold at_. now destruct i. Qed.

Lemma at_cons_S (x : option A) (a : array A) (i : nat) : at_ (x :: a) (S i) = at_ a i.
Proof. reflexivity. Qed.

Lemma at_setAt_eq (a : array A) (i : nat) (v : A) : at_ (setAt a i v) i = Some v.
Proof.
  revert a. induction i as [|i IH]; intros [|x a]; try reflexivity.
  - simpl setAt. rewrite at_cons_S. apply IH.
  - simpl setAt. rewrite at_cons_S. apply IH.
Qed.

Lemma at_setAt_ne (a : array A) (i j : nat) (v : A) :
  i <> j -> at_ (setAt a i v) j = at_ a j.
Proof.
  revert a j. induction i as [|i IH]; intros [|x a] [|j] Hij;
    try reflexivity; try congruence; simpl setAt; rewrite ?at_cons_S.
  - now rewrite !at_nil.
  - rewrite IH by congruence. now rewrite !at_nil.
  - apply IH. congruence.
Qed.

Lemma length_setAt (a : array A) (i : nat) (v : A) :
  length (setAt a i v) = Nat.max (length a) (S i).
Proof.
  revert a. induction i as [|i IH]; intros [|x a]; simpl; try reflexivity.
  - now rewrite Nat.max_comm.
  - now rewrite IH.
  - now rewrite IH.
Qed.

Lemma at_beyond (a : array A) (i : nat) : (length a <= i)%nat -> at_ a i = None.
Proof. intros H. unfold at_. now rewrite (proj2 (nth_error_None a i) H). Qed.
End Arrays.

Lemma cell_setAt_ne (row : Row) (c j : nat) (v : value) :
  c <> j -> cell (setAt row c v) j = cell row j.
Proof. intros H. unfold cell. now rewrite at_setAt_ne. Qed.

Lemma cell_setAt_eq (row : Row) (c : nat) (v : value) : cell (setAt row c v) c = v.
Proof. unfold cell. now rewrite at_setAt_eq. Qed.

Lemma cell_spread (row : Row) (j : nat) : cell (spread row) j = cell row j.
Proof.
  unfold cell, at_, spread. rewrite nth_error_map.
  unfold Row, array, CellValue in *.
  destruct (nth_error row j) as [[x|]|]; reflexivity.
Qed.

Lemma length_spread (row : Row) : length (spread row) = length row.
Proof. apply length_map. Qed.

Lemma cell_beyond (row : Row) (j : nat) : (length row <= j)%nat -> cell row j = VUndefined.
Proof. intros H. unfold cell. now rewrite at_beyond. Qed.

Lemma cell_padTo (row : Row) (m j : nat) :
  cell (padTo row m) j
  = if (j <? length row)%nat then cell row j
    else if (j <=? m)%nat then VStr "" else VUndefined.
Proof.
  unfold cell, at_, padTo.
  destruct (Nat.ltb_spec j (length row)) as [Hlt|Hge].
  - now rewrite nth_error_app1.
  - rewrite nth_error_app2 by assumption.
    destruct (Nat.leb_spec j m) as [Hle|Hgt].
    + rewrite (nth_error_repeat (Some (VStr ""))); [reflexivity | lia].
    + rewrite (proj2 (nth_error_None _ _)); [reflexivity|]. rewrite repeat_length. lia.
Qed.

Lemma rowAt_setAt_eq (data : SheetData) (r : nat) (row : Row) :
  rowAt (setAt data r row) r = row.
Proof. unfold rowAt. now rewrite at_setAt_eq. Qed.

(* ===================================================================== *)
(** * Properties of [updateCell]                                          *)
(* ===================================================================== *)

Lemma updateCell_Written (host : Host) (st st' : AppState) (r c : nat) (v : value)
    (sheet : Sheet.t) :
  activeSheet st = Some sheet ->
  updateCell st r c v = Written st' ->
  exists finalRow,
    reactiveAverage (headersAfter (Sheet.data sheet) r c v) c
                    (writtenRow (Sheet.data sheet) r c v) = Ok finalRow
    /\ st' = setSheets (replaceSheet (Sheet.id sheet)
                          (withData sheet (setAt (Sheet.data sheet) r finalRow))
                          (sheets st)) st.
Proof.
  intros Hact. unfold updateCell. rewrite Hact.
  destruct (negb (canEdit st)); [discriminate|].
  match goal with |- match ?chk with _ => _ end = _ -> _ => destruct chk end;
    [discriminate|].
  unfold writeData.
  destruct (reactiveAverage _ c _) as [finalRow|]; [|discriminate].
  cbn [bind]. intros [= <-]. now exists finalRow.
Qed.

(** What [reactiveAverage] returns: the row it was given, padded up to
    the column of the average and written there when the average applies. *)
Lemma reactiveAverage_spec (headers : array string) (c : nat) (newRow final : Row) :
  reactiveAverage headers c newRow = Ok final ->
  final = match reactiveWriteOn headers c newRow with
          | Some (m, text) => setAt (padTo newRow m) m (VStr text)
          | None => newRow
          end.
Proof.
  unfold reactiveAverage, reactiveWriteOn.
  destruct (findIndex (isGradeHeader "nota 1" "p1" "n1") headers) as [col1|]; [|discriminate].
  destruct (findIndex (isGradeHeader "nota 2" "p2" "n2") headers) as [col2|]; [|discriminate].
  destruct (findIndex isMediaHeader headers) as [media|]; [|discriminate].
  cbn [bind].
  destruct media as [m|], col1 as [c1|], col2 as [c2|];
    try (intros [= <-]; reflexivity).
  cbv zeta.
  destruct (Nat.eqb c c1 || Nat.eqb c c2); cbn [andb]; [|intros [= <-]; reflexivity].
  match goal with |- (if ?b then _ else _) = _ -> _ => destruct b end;
    intros [= <-]; reflexivity.
Qed.

Lemma findIndexFrom_hit {A} (p : option A -> result bool) (a : array A) :
  forall i k, findIndexFrom p a i = Ok (Some k) ->
              (i <= k)%nat /\ exists h, nth_error a (k - i) = Some h /\ p h = Ok true.
Proof.
  induction a as [|h t IH]; intros i k; cbn [findIndexFrom]; [discriminate|].
  destruct (p h) as [[|]|] eqn:E; cbn [bind]; [| |discriminate].
  - intros [= <-]. split; [lia|]. exists h. now rewrite Nat.sub_diag.
  - intros H. destruct (IH _ _ H) as (Hle & h' & Hn & Hp). split; [lia|].
    exists h'. split; [|exact Hp].
    replace (k - i)%nat with (S (k - S i)) by lia. exact Hn.
Qed.

(** No header names a grade and the average at once: the average is never
    written over the cell just written. *)
Lemma reactiveWriteOn_column (headers : array string) (c : nat) (newRow : Row)
    (m : nat) (text : string) :
  reactiveWriteOn headers c newRow = Some (m, text) -> m <> c.
Proof.
  unfold reactiveWriteOn.
  destruct (findIndex (isGradeHeader "nota 1" "p1" "n1") headers) as [[c1|]|] eqn:E1;
    try discriminate.
  destruct (findIndex (isGradeHeader "nota 2" "p2" "n2") headers) as [[c2|]|] eqn:E2;
    try discriminate.
  destruct (findIndex isMediaHeader headers) as [[media|]|] eqn:Em; try discriminate.
  cbv zeta.
  destruct (Nat.eqb c c1 || Nat.eqb c c2) eqn:Ec; cbn [andb]; [|discriminate].
  match goal with |- (if ?b then _ else _) = _ -> _ => destruct b end; [|discriminate].
  intros [= <- _] ->.
  destruct (findIndexFrom_hit _ _ _ _ Em) as (_ & h & Hh & Hmedia).
  assert (Hgrade : exists k a b,
             (k = "nota 1" /\ a = "p1" /\ b = "n1" \/ k = "nota 2" /\ a = "p2" /\ b = "n2")
             /\ isGradeHeader k a b h = Ok true).
  { apply orb_prop in Ec as [Ec|Ec]; apply Nat.eqb_eq in Ec; subst.
    - destruct (findIndexFrom_hit _ _ _ _ E1) as (_ & h' & Hh' & Hp).
      rewrite Hh in Hh'. injection Hh' as <-. exists "nota 1", "p1", "n1". split; [now left|].
      exact Hp.
    - destruct (findIndexFrom_hit _ _ _ _ E2) as (_ & h' & Hh' & Hp).
      rewrite Hh in Hh'. injection Hh' as <-. exists "nota 2", "p2", "n2". split; [now right|].
      exact Hp. }
  destruct h as [h|]; [|discriminate Hmedia].
  cbn [isMediaHeader] in Hmedia. injection Hmedia as Hmedia.
  destruct Hgrade as (k & a & b & Hk & Hg).
  apply orb_prop in Hmedia as [Hmedia|Hmedia]; apply String.eqb_eq in Hmedia; subst h;
    destruct Hk as [(-> & -> & ->)|(-> & -> & ->)]; vm_compute in Hg; discriminate Hg.
Qed.

(** C9.  A cell write that [updateCell] commits replaces the active sheet by
    a sheet that differs from it in [data] only, and there in row [r] only:
    every other row is the row it was.  Within row [r] the cell written
    holds the value; when the reactive average applies, the cell of the
    average holds its text; every other cell that existed keeps its
    value, that of the average included when the average does not apply,
    and a cell past the old end of the row is left absent or empty.  The
    other sheets and the rest of the state are untouched. *)
Theorem updateCell_changes_row_r_only :
  forall (host : Host) (st st' : AppState) (r c : nat) (v : value) (sheet : Sheet.t),
    activeSheet st = Some sheet ->
    updateCell st r c v = Written st' ->
    exists newData : SheetData,
      let updated := withData sheet newData in
      st' = setSheets (replaceSheet (Sheet.id sheet) updated (sheets st)) st
      /\ (forall i, i <> r -> at_ newData i = at_ (Sheet.data sheet) i)
      /\ cell (rowAt newData r) c = v
      /\ (forall m text, reactiveWrite (Sheet.data sheet) r c v = Some (m, text) ->
            m <> c /\ cell (rowAt newData r) m = VStr text)
      /\ (forall j, j <> c -> reactiveColumn (Sheet.data sheet) r c v <> Some j ->
            (j < length (rowAt (Sheet.data sheet) r))%nat ->
            cell (rowAt newData r) j = cell (rowAt (Sheet.data sheet) r) j)
      /\ (forall j, j <> c -> reactiveColumn (Sheet.data sheet) r c v <> Some j ->
            (length (rowAt (Sheet.data sheet) r) <= j)%nat ->
            cell (rowAt newData r) j = VUndefined \/ cell (rowAt newData r) j = VStr "")
      /\ Sheet.id updated = Sheet.id sheet
      /\ Sheet.name updated = Sheet.name sheet
      /\ Sheet.conditionalFormats updated = Sheet.conditionalFormats sheet
      /\ Sheet.validationRules updated = Sheet.validationRules sheet
      /\ Sheet.editCode updated = Sheet.editCode sheet
      /\ Sheet.viewCode updated = Sheet.viewCode sheet
      /\ Sheet.accessCode updated = Sheet.accessCode sheet
      /\ Sheet.accessCodeExpiration updated = Sheet.accessCodeExpiration sheet
      /\ Sheet.isShared updated = Sheet.isShared sheet
      /\ (forall i s, nth_error (sheets st) i = Some s ->
            Sheet.id s <> Sheet.id sheet -> nth_error (sheets st') i = Some s)
      /\ length (sheets st') = length (sheets st)
      /\ activeSheetId st' = activeSheetId st
      /\ unlockedSheets st' = unlockedSheets st.
Proof.
  intros host st st' r c v sheet Hact Hupd.
  destruct (updateCell_Written host st st' r c v sheet Hact Hupd) as (finalRow & Havg & ->).
  exists (setAt (Sheet.data sheet) r finalRow). cbv zeta.
  set (data := Sheet.data sheet) in *.
  apply reactiveAverage_spec in Havg. fold (reactiveWrite data r c v) in Havg.
  assert (Hnew : forall j, j <> c ->
                   cell (writtenRow data r c v) j
                   = if (j <? length (rowAt data r))%nat then cell (rowAt data r) j
                     else VUndefined).
  { intros j Hjc. unfold writtenRow. rewrite cell_setAt_ne by congruence. rewrite cell_spread.
    destruct (Nat.ltb_spec j (length (rowAt data r))); [reflexivity|].
    now apply cell_beyond. }
  assert (Hlen : (length (rowAt data r) <= length (writtenRow data r c v))%nat).
  { unfold writtenRow. rewrite length_setAt, length_spread. lia. }
  assert (Hcells : forall j, j <> c -> reactiveColumn data r c v <> Some j ->
            cell finalRow j
            = if (j <? length (rowAt data r))%nat then cell (rowAt data r) j
              else if (j <? length finalRow)%nat
                   then (if (j <? length (writtenRow data r c v))%nat
                         then VUndefined else VStr "")
                   else VUndefined).
  { intros j Hjc Hjm. unfold reactiveColumn in Hjm.
    destruct (reactiveWrite data r c v) as [[m text]|]; subst finalRow.
    - assert (m <> j) by (intros ->; now apply Hjm).
      rewrite cell_setAt_ne by assumption. rewrite cell_padTo, (Hnew j Hjc).
      rewrite length_setAt. unfold padTo. rewrite length_app, repeat_length.
      destruct (Nat.ltb_spec j (length (rowAt data r)));
        destruct (Nat.ltb_spec j (length (writtenRow data r c v)));
        destruct (Nat.leb_spec j m);
        destruct (Nat.ltb_spec j (Nat.max (length (writtenRow data r c v)
                                           + (S m - length (writtenRow data r c v))) (S m)));
        try reflexivity; lia.
    - rewrite (Hnew j Hjc).
      destruct (Nat.ltb_spec j (length (rowAt data r))); [reflexivity|].
      destruct (Nat.ltb_spec j (length (writtenRow data r c v))); reflexivity. }
  assert (Hwritten : cell (writtenRow data r c v) c = v)
    by (unfold writtenRow; apply cell_setAt_eq).
  repeat match goal with |- _ /\ _ => split end; try reflexivity.
  - intros i Hi. apply at_setAt_ne. congruence.
  - rewrite rowAt_setAt_eq.
    destruct (reactiveWrite data r c v) as [[m text]|] eqn:Ew; subst finalRow;
      [|exact Hwritten].
    rewrite cell_setAt_ne by (apply (reactiveWriteOn_column _ _ _ _ _ Ew)).
    rewrite cell_padTo, Hwritten.
    unfold writtenRow. rewrite length_setAt, length_spread.
    destruct (Nat.ltb_spec c (Nat.max (length (rowAt data r)) (S c))); [|lia].
    reflexivity.
  - intros m text Hw. split; [apply (reactiveWriteOn_column _ _ _ _ _ Hw)|].
    rewrite rowAt_setAt_eq. rewrite Hw in Havg. subst finalRow. apply cell_setAt_eq.
  - intros j Hjc Hjm Hlt. rewrite rowAt_setAt_eq, (Hcells j Hjc Hjm).
    destruct (Nat.ltb_spec j (length (rowAt data r))); [reflexivity | lia].
  - intros j Hjc Hjm Hge. rewrite rowAt_setAt_eq, (Hcells j Hjc Hjm).
    destruct (Nat.ltb_spec j (length (rowAt data r))); [lia|].
    destruct (j <? length finalRow)%nat; [|now left].
    destruct (j <? length (writtenRow data r c v))%nat; [now left | now right].
  - intros i s Hi Hid. simpl. unfold replaceSheet. rewrite nth_error_map, Hi. simpl.
    unfold strEq. apply String.eqb_neq in Hid. now rewrite Hid.
  - simpl. unfold replaceSheet. apply length_map.
Qed.

(** "8" is written next to "7,5": only row 1 of the grade book changes. *)
Lemma updateCell_changes_row_r_only_witness :
  exists newData : SheetData,
    sheets (writtenState (@updateCell lenientHost
                            (gradeSession [cells ["Ana"; "7,5"]; cells ["Rui"; "10"; "12"; "11.0"]])
                            1 2 (VStr "8"))
                         (gradeSession []))
    = [withData (gradeBook [cells ["Ana"; "7,5"]; cells ["Rui"; "10"; "12"; "11.0"]]) newData]
    /\ (forall i, i <> 1%nat ->
          at_ newData i
          = at_ (Sheet.data (gradeBook [cells ["Ana"; "7,5"]; cells ["Rui"; "10"; "12"; "11.0"]])) i)
    /\ cell (rowAt newData 1) 2 = VStr "8"
    /\ cell (rowAt newData 1) 3 = VStr "7,8".
Proof.
  destruct (updateCell_changes_row_r_only lenientHost
              (gradeSession [cells ["Ana"; "7,5"]; cells ["Rui"; "10"; "12"; "11.0"]])
              (writtenState (@updateCell lenientHost
                            (gradeSession [cells ["Ana"; "7,5"]; cells ["Rui"; "10"; "12"; "11.0"]])
                            1 2 (VStr "8"))
                         (gradeSession []))
              1 2 (VStr "8")
              (gradeBook [cells ["Ana"; "7,5"]; cells ["Rui"; "10"; "12"; "11.0"]])
              Logic.eq_refl Logic.eq_refl)
    as (newData & Hst & Hrows & Hcell & Havg & _).
  exists newData. split; [|split; [exact Hrows | split; [exact Hcell|]]].
  - rewrite Hst. reflexivity.
  - apply (Havg 3%nat "7,8"). vm_compute. reflexivity.
Defined.

(** The average that [updateCell] writes when both operands are truthy
    cells (a text that is not empty, a number other than zero) that
    [parseFloat] reads after the replacement of the first comma: the mean
    with one decimal, with a comma when the text of an operand has one. *)
Theorem updateCell_writes_average :
  forall (host : Host) (st st' : AppState) (r c : nat) (v : value) (sheet : Sheet.t)
         (col1Idx col2Idx mediaIdx : nat),
    activeSheet st = Some sheet ->
    updateCell st r c v = Written st' ->
    let data := Sheet.data sheet in
    let headers := headersAfter data r c v in
    let newRow := writtenRow data r c v in
    findIndex (isGradeHeader "nota 1" "p1" "n1") headers = Ok (Some col1Idx) ->
    findIndex (isGradeHeader "nota 2" "p2" "n2") headers = Ok (Some col2Idx) ->
    findIndex isMediaHeader headers = Ok (Some mediaIdx) ->
    c = col1Idx \/ c = col2Idx ->
    truthy (cell newRow col1Idx) = true ->
    truthy (cell newRow col2Idx) = true ->
    isNaN (operand (cell newRow col1Idx)) = false ->
    isNaN (operand (cell newRow col2Idx)) = false ->
    exists newData : SheetData,
      st' = setSheets (replaceSheet (Sheet.id sheet) (withData sheet newData) (sheets st)) st
      /\ cell (rowAt newData r) mediaIdx
         = VStr (rendered (hasComma (ToString (cell newRow col1Idx))
                           || hasComma (ToString (cell newRow col2Idx)))
                          (average (operand (cell newRow col1Idx))
                                   (operand (cell newRow col2Idx)))).
Proof.
  intros host st st' r c v sheet col1Idx col2Idx mediaIdx Hact Hupd data headers newRow
         H1 H2 Hm Hc Ht1 Ht2 Hn1 Hn2.
  destruct (updateCell_Written host st st' r c v sheet Hact Hupd) as (finalRow & Havg & ->).
  exists (setAt data r finalRow). split; [reflexivity|].
  rewrite rowAt_setAt_eq.
  fold data headers newRow in Havg.
  unfold reactiveAverage in Havg. rewrite H1, H2, Hm in Havg. cbn [bind] in Havg.
  assert (Ec : Nat.eqb c col1Idx || Nat.eqb c col2Idx = true).
  { destruct Hc as [->| ->]; rewrite Nat.eqb_refl; [reflexivity | apply orb_true_r]. }
  rewrite Ec, Hn1, Hn2 in Havg.
  assert (Es : forall x, truthy x = true -> isString x "" = false).
  { intros [s| | | |]; try reflexivity. unfold truthy, isString.
    now destruct (strEq s ""). }
  rewrite (Es _ Ht1), (Es _ Ht2) in Havg. cbn [negb andb] in Havg.
  injection Havg as <-. apply cell_setAt_eq.
Qed.

(** The example of the specification: "8" written next to "7,5" gives the
    average "7,8". *)
Lemma updateCell_writes_average_witness :
  cell (rowAt (activeData (writtenState
                 (@updateCell lenientHost (gradeSession [cells ["Ana"; "7,5"]]) 1 2 (VStr "8"))
                 (gradeSession []))) 1) 3
  = VStr "7,8".
Proof.
  destruct (updateCell_writes_average lenientHost
              (gradeSession [cells ["Ana"; "7,5"]])
              (writtenState
                 (@updateCell lenientHost (gradeSession [cells ["Ana"; "7,5"]]) 1 2 (VStr "8"))
                 (gradeSession []))
              1 2 (VStr "8") (gradeBook [cells ["Ana"; "7,5"]]) 1 2 3
              Logic.eq_refl Logic.eq_refl Logic.eq_refl Logic.eq_refl Logic.eq_refl
              (or_intror Logic.eq_refl) Logic.eq_refl Logic.eq_refl Logic.eq_refl Logic.eq_refl)
    as (newData & Hst & Hcell).
  rewrite Hst. vm_compute activeData. rewrite Hcell. vm_compute. reflexivity.
Defined.

(** C3 fails where an operand is the number 0, as an imported sheet holds
    it: [x || ""] reads the cell as empty.  Writing "8" next to the
    number 0 commits the write and leaves the average cell as it was,
    whereas next to the text "0" the average "4.0" is written. *)
Lemma updateCell_skips_average_of_number_zero :
  activeData (writtenState
     (@updateCell lenientHost
        (gradeSession [[Some (VStr "Ana"); Some (VNum (ofZ 0)); Some (VStr ""); Some (VStr "")]])
        1 2 (VStr "8"))
     (gradeSession []))
  = [Some gradeHeader;
     Some [Some (VStr "Ana"); Some (VNum (ofZ 0)); Some (VStr "8"); Some (VStr "")]]
  /\ average (ofZ 0) (StringToNumber "8") = "4.0"
  /\ activeData (writtenState
       (@updateCell lenientHost
          (gradeSession [cells ["Ana"; "0"; ""; ""]]) 1 2 (VStr "8"))
       (gradeSession []))
     = [Some gradeHeader; Some (cells ["Ana"; "0"; "8"; "4.0"])].
Proof. repeat split; vm_compute; reflexivity. Qed.

(* ===================================================================== *)
(** * Plain objects: own properties and their order                       *)
(* ===================================================================== *)

Section Objects.
Context {V : Type}.
Implicit Types (o : object V) (k : string) (v : V).

Lemma strEq_true k k' : strEq k k' = true <-> k = k'.
Proof. apply String.eqb_eq. Qed.

Lemma strEq_false k k' : strEq k k' = false <-> k <> k'.
Proof. apply String.eqb_neq. Qed.

Lemma ownProp_None o k : ownProp k o = None <-> ~ In k (List.map fst o).
Proof.
  induction o as [|[k' v'] o IH]; simpl; [tauto|].
  destruct (strEq k' k) eqn:E.
  - apply strEq_true in E. split; [discriminate | intros H; exfalso; apply H; now left].
  - apply strEq_false in E. rewrite IH. tauto.
Qed.

Lemma ownProp_setProp_eq o k v : ownProp k (setProp k v o) = Some v.
Proof.
  induction o as [|[k' v'] o IH]; simpl.
  - now rewrite (proj2 (strEq_true k k) Logic.eq_refl).
  - destruct (strEq k' k) eqn:E; simpl; rewrite E; [reflexivity | exact IH].
Qed.

Lemma ownProp_setProp_ne o k k' v : k <> k' -> ownProp k' (setProp k v o) = ownProp k' o.
Proof.
  intros Hne. induction o as [|[k1 v1] o IH]; simpl.
  - now rewrite (proj2 (strEq_false k k') Hne).
  - destruct (strEq k1 k) eqn:E; simpl.
    + apply strEq_true in E. subst k1. now rewrite (proj2 (strEq_false k k') Hne).
    + now rewrite IH.
Qed.

Lemma keys_setProp_old o k v v0 :
  ownProp k o = Some v0 -> List.map fst (setProp k v o) = List.map fst o.
Proof.
  induction o as [|[k1 v1] o IH]; simpl; [discriminate|].
  destruct (strEq k1 k); simpl; [reflexivity|]. intros H. now rewrite IH.
Qed.

Lemma keys_setProp_new o k v :
  ownProp k o = None -> List.map fst (setProp k v o) = List.map fst o ++ [k].
Proof.
  induction o as [|[k1 v1] o IH]; simpl; [reflexivity|].
  destruct (strEq k1 k); simpl; [discriminate|]. intros H. now rewrite IH.
Qed.
End Objects.

Lemma insertSorted_perm (n : N) (l : list N) : Permutation (insertSorted n l) (n :: l).
Proof.
  induction l as [|m l IH]; simpl; [reflexivity|].
  destruct (n <=? m)%N; [reflexivity|].
  rewrite IH. apply perm_swap.
Qed.

Lemma sortAscending_perm (l : list N) : Permutation (sortAscending l) l.
Proof.
  induction l as [|n l IH]; simpl; [reflexivity|].
  rewrite insertSorted_perm. now constructor.
Qed.

Lemma filter_split_perm {A} (p : A -> bool) (l : list A) :
  Permutation (List.filter p l ++ List.filter (fun x => negb (p x)) l) l.
Proof.
  induction l as [|x l IH]; simpl; [reflexivity|].
  destruct (p x); simpl.
  - now constructor.
  - rewrite <- Permutation_middle. now constructor.
Qed.

Lemma decimal_of_array_index (ks : list string) :
  List.map decimal (List.map digitsValue (List.filter isArrayIndex ks))
  = List.filter isArrayIndex ks.
Proof.
  induction ks as [|k ks IH]; simpl; [reflexivity|].
  destruct (isArrayIndex k) eqn:E; simpl; [|exact IH].
  unfold isArrayIndex in E. apply andb_prop in E as [E _].
  apply String.eqb_eq in E. now rewrite E, IH.
Qed.

(** [Object.keys] lists every own key once. *)
Lemma ownKeys_perm {V} (o : object V) : Permutation (ownKeys o) (List.map fst o).
Proof.
  unfold ownKeys. rewrite <- (filter_split_perm isArrayIndex (List.map fst o)) at 3.
  apply Permutation_app_tail.
  rewrite <- (decimal_of_array_index (List.map fst o)) at 2.
  apply Permutation_map, sortAscending_perm.
Qed.

(* ===================================================================== *)
(** * Properties of [splitSheetByColumn]                                  *)
(* ===================================================================== *)

Lemma NoDup_snoc {A} (l : list A) (x : A) : NoDup l -> ~ In x l -> NoDup (l ++ [x]).
Proof.
  intros Hl Hx. rewrite <- Permutation_cons_append.
  apply NoDup_cons. split; [now rewrite list_elem_of_In | exact Hl].
Qed.

Section Grouping.
Variable columnIndex : nat.

#[local] Abbreviation keyIs := (hasKey columnIndex).
#[local] Abbreviation grouped := (grouped columnIndex).

Lemma grouped_nil : grouped [] [].
Proof. split; [constructor | reflexivity]. Qed.

Lemma addRow_grouped (seen : list Row) (groups : object (list Row)) (x : option CellValue)
    (row : Row) :
  grouped seen groups ->
  isProtoKey (keyOf columnIndex (x :: row)) = false ->
  exists groups',
    addRow columnIndex groups (Some (x :: row)) = Ok groups'
    /\ grouped (seen ++ [x :: row]) groups'.
Proof.
  intros [Hnd Hown] Hproto. unfold addRow.
  set (key := keyOf columnIndex (x :: row)) in *.
  assert (Hself : keyIs key (x :: row) = true) by (apply String.eqb_eq; reflexivity).
  assert (Hother : forall k, key <> k -> keyIs k (x :: row) = false)
    by (intros k Hne; apply String.eqb_neq; exact Hne).
  assert (Hsnoc : forall k, List.filter (keyIs k) (seen ++ [x :: row])
                            = List.filter (keyIs k) seen
                              ++ (if keyIs k (x :: row) then [x :: row] else []))
    by (intros k; rewrite List.filter_app; reflexivity).
  pose proof (Hown key) as Hkey.
  destruct (ownProp key groups) as [rows|] eqn:E.
  - exists (setProp key (rows ++ [x :: row]) groups). split; [reflexivity|]. split.
    + now rewrite (keys_setProp_old groups key _ rows E).
    + intros k. rewrite Hsnoc.
      destruct (String.eqb_spec key k) as [<-|Hne].
      * rewrite ownProp_setProp_eq, Hself.
        destruct (List.filter (keyIs key) seen) as [|r0 rs]; [discriminate|].
        injection Hkey as ->. reflexivity.
      * rewrite ownProp_setProp_ne by assumption.
        rewrite (Hother k Hne), app_nil_r. apply Hown.
  - rewrite Hproto.
    exists (setProp key [x :: row] groups). split; [reflexivity|]. split.
    + rewrite (keys_setProp_new groups key _ E).
      apply NoDup_snoc; [exact Hnd|]. now apply ownProp_None.
    + intros k. rewrite Hsnoc.
      destruct (String.eqb_spec key k) as [<-|Hne].
      * rewrite ownProp_setProp_eq, Hself.
        destruct (List.filter (keyIs key) seen); [reflexivity | discriminate].
      * rewrite ownProp_setProp_ne by assumption.
        rewrite (Hother k Hne), app_nil_r. apply Hown.
Qed.

Lemma forEachRow_skips (rows : list (option Row)) (groups : object (list Row)) :
  forEachRow columnIndex rows groups
  = forEachRow columnIndex
      (List.map Some (List.flat_map (fun o => match o with
                                              | Some (x :: row) => [x :: row]
                                              | _ => []
                                              end) rows))
      groups.
Proof.
  revert groups. induction rows as [|[[|x row]|] rows IH]; intros groups.
  - reflexivity.
  - apply IH.
  - cbn [flat_map app List.map forEachRow].
    assert (Hbind : forall r : result (object (list Row)),
               (let! g := r in forEachRow columnIndex rows g)
               = (let! g := r in
                  forEachRow columnIndex
                    (List.map Some
                       (List.flat_map (fun o => match o with
                                                | Some (x :: row) => [x :: row]
                                                | _ => []
                                                end) rows)) g)).
    { intros [g|]; cbn [bind]; [apply IH | reflexivity]. }
    apply Hbind.
  - apply IH.
Qed.

Lemma forEachRow_grouped (rows seen : list Row) (groups : object (list Row)) :
  grouped seen groups ->
  (forall row, In row rows -> row <> []) ->
  (forall row, In row rows -> isProtoKey (keyOf columnIndex row) = false) ->
  exists groups',
    forEachRow columnIndex (List.map Some rows) groups = Ok groups'
    /\ grouped (seen ++ rows) groups'.
Proof.
  revert seen groups. induction rows as [|row rows IH]; intros seen groups Hg Hne Hp.
  - exists groups. rewrite app_nil_r. now split.
  - destruct row as [|x row]; [exfalso; apply (Hne []); [now left | reflexivity]|].
    destruct (addRow_grouped seen groups x row Hg (Hp _ (or_introl Logic.eq_refl)))
      as (g1 & E1 & Hg1).
    destruct (IH (seen ++ [x :: row]) g1 Hg1) as (g2 & E2 & Hg2).
    + intros r Hr. apply Hne. now right.
    + intros r Hr. apply Hp. now right.
    + exists g2. split.
      * cbn [List.map forEachRow]. unfold Row, array, CellValue in *.
        rewrite E1. exact E2.
      * now rewrite <- app_assoc in Hg2.
Qed.

(** The first row whose label is a property that plain objects inherit
    ends the loop: [groups[key]] is that property, and it has no [push]. *)
Lemma forEachRow_throws (rows seen : list Row) (groups : object (list Row)) :
  grouped seen groups ->
  (forall row, In row seen -> isProtoKey (keyOf columnIndex row) = false) ->
  (forall row, In row rows -> row <> []) ->
  (exists row, In row rows /\ isProtoKey (keyOf columnIndex row) = true) ->
  forEachRow columnIndex (List.map Some rows) groups = TypeError.
Proof.
  revert seen groups. induction rows as [|row rows IH]; intros seen groups Hg Hseen Hne Hbad.
  - destruct Hbad as (row & [] & _).
  - destruct row as [|x row]; [exfalso; apply (Hne []); [now left | reflexivity]|].
    cbn [List.map forEachRow].
    destruct (isProtoKey (keyOf columnIndex (x :: row))) eqn:Hp.
    + assert (Hfree : List.filter (keyIs (keyOf columnIndex (x :: row))) seen = []).
      { clear - Hseen Hp. induction seen as [|a seen IHs]; [reflexivity|].
        cbn [List.filter]. destruct (keyIs (keyOf columnIndex (x :: row)) a) eqn:E.
        - apply String.eqb_eq in E.
          rewrite <- E, (Hseen a (or_introl Logic.eq_refl)) in Hp. discriminate Hp.
        - apply IHs. intros r Hr. apply Hseen. now right. }
      unfold addRow. destruct Hg as [_ Hown].
      rewrite (Hown (keyOf columnIndex (x :: row))), Hfree, Hp. reflexivity.
    + destruct (addRow_grouped seen groups x row Hg Hp) as (g1 & E1 & Hg1).
      unfold Row, array, CellValue in *. rewrite E1. cbn [bind].
      apply (IH (seen ++ [x :: row]) g1 Hg1).
      * intros r Hr. apply in_app_or in Hr as [Hr|[<-|[]]]; [now apply Hseen | exact Hp].
      * intros r Hr. apply Hne. now right.
      * destruct Hbad as (r & [<-|Hr] & Hrp); [congruence|]. now exists r.
Qed.

Lemma grouped_rows (seen : list Row) (groups : object (list Row)) (k : string) :
  grouped seen groups -> In k (List.map fst groups) ->
  groupRowsOf groups k = List.filter (keyIs k) seen.
Proof.
  intros [_ Hown] Hin. unfold groupRowsOf. rewrite Hown.
  destruct (List.filter (keyIs k) seen) eqn:E; [|reflexivity].
  exfalso. apply (proj1 (ownProp_None groups k)); [|exact Hin]. now rewrite Hown, E.
Qed.

Lemma grouped_keys (seen : list Row) (groups : object (list Row)) (k : string) :
  grouped seen groups ->
  In k (List.map fst groups) <-> exists row, In row seen /\ keyOf columnIndex row = k.
Proof.
  intros [_ Hown]. split.
  - intros Hin. destruct (List.filter (keyIs k) seen) as [|row rows] eqn:E.
    + exfalso. apply (proj1 (ownProp_None groups k)); [|exact Hin]. now rewrite Hown, E.
    + assert (Hr : In row (List.filter (keyIs k) seen)) by (rewrite E; now left).
      apply List.filter_In in Hr as [Hr Hk]. exists row. split; [exact Hr|].
      now apply String.eqb_eq in Hk.
  - intros (row & Hr & Hk).
    destruct (in_dec string_dec k (List.map fst groups)) as [Hin|Hout]; [exact Hin|].
    exfalso. apply ownProp_None in Hout. rewrite Hown in Hout.
    assert (Hf : In row (List.filter (keyIs k) seen)).
    { apply List.filter_In. split; [exact Hr|]. now apply String.eqb_eq. }
    destruct (List.filter (keyIs k) seen); [contradiction | discriminate].
Qed.
End Grouping.

(** [row[columnIndex] || "Sem Turma"]: every falsy cell gives the sentinel. *)
Lemma keyOf_truthy (columnIndex : nat) (row : Row) :
  keyOf columnIndex row
  = if truthy (cell row columnIndex) then ToString (cell row columnIndex) else semTurma.
Proof. unfold keyOf, orElse. destruct (truthy (cell row columnIndex)); reflexivity. Qed.

Lemma keptRows_nonempty (data : SheetData) (row : Row) : In row (keptRows data) -> row <> [].
Proof.
  unfold keptRows. rewrite in_flat_map. intros ([[|x r]|] & _ & H); simpl in H; try tauto.
  destruct H as [<-|[]]. discriminate.
Qed.


(* ===================================================================== *)
(** * The sheet collection never becomes empty                            *)
(* ===================================================================== *)

Lemma ids_app (l k : list Sheet.t) : ids (l ++ k) = ids l ++ ids k.
Proof. apply List.map_app. Qed.

Lemma ids_replaceSheet (i : string) (updated : Sheet.t) (l : list Sheet.t) :
  Sheet.id updated = i -> ids (replaceSheet i updated l) = ids l.
Proof.
  intros Hid. unfold ids, replaceSheet. rewrite List.map_map.
  apply List.map_ext_in. intros s _.
  destruct (strEq (Sheet.id s) i) eqn:E; [|reflexivity].
  apply String.eqb_eq in E. congruence.
Qed.

Lemma replaceSheet_nonempty (i : string) (updated : Sheet.t) (l : list Sheet.t) :
  l <> [] -> replaceSheet i updated l <> [].
Proof. destruct l; [congruence | discriminate]. Qed.

Lemma wellFormed_same_ids (st st' : AppState) :
  ids (sheets st') = ids (sheets st) -> wellFormed st -> wellFormed st'.
Proof.
  intros Hids [Hne Hnd]. split; [|now rewrite Hids].
  intros E. rewrite E in Hids. destruct (sheets st); [congruence | discriminate].
Qed.

Lemma wellFormed_append (st st' : AppState) (new : list Sheet.t) :
  sheets st' = sheets st ++ new -> freshIds (ids new) st -> wellFormed st -> wellFormed st'.
Proof.
  intros E [Hnew Hout] [Hne Hnd]. unfold wellFormed. rewrite E. split.
  - destruct (sheets st); [congruence | discriminate].
  - rewrite ids_app. apply NoDup_app. split; [exact Hnd|]. split; [|exact Hnew].
    intros i Hi Hi'. apply list_elem_of_In in Hi, Hi'. now apply (Hout i).
Qed.

Lemma freshIds_one (i : string) (st : AppState) :
  ~ In i (ids (sheets st)) -> freshIds [i] st.
Proof.
  intros H. split; [apply NoDup_singleton|]. intros j [<-|[]]. exact H.
Qed.

Lemma removeAt_insertAt_perm {A} (l : list A) (cur index : nat) (x : A) :
  nth_error l cur = Some x -> Permutation (insertAt index x (removeAt cur l)) l.
Proof.
  intros Hx. unfold insertAt.
  rewrite <- Permutation_middle, firstn_skipn.
  unfold removeAt.
  destruct (nth_error_split l cur Hx) as (l1 & l2 & -> & <-).
  rewrite firstn_app, Nat.sub_diag, firstn_all. simpl. rewrite app_nil_r.
  rewrite skipn_app, skipn_all2 by lia.
  replace (S (length l1) - length l1)%nat with 1%nat by lia. simpl.
  now rewrite <- Permutation_middle.
Qed.

Lemma ids_split (uuid : nat -> string) (sheet : Sheet.t) (columnIndex : nat)
    (new : list Sheet.t) :
  splitSheetByColumn uuid sheet columnIndex = Ok new ->
  ids new = List.map uuid (List.seq 0 (length new)).
Proof.
  unfold splitSheetByColumn. destruct (length (Sheet.data sheet) <? 2)%nat.
  - intros [= <-]. reflexivity.
  - destruct (forEachRow columnIndex _ []) as [groups|]; [|discriminate].
    cbn [bind]. intros [= <-]. rewrite length_imap.
    generalize (ownKeys groups). intros keys. unfold ids.
    assert (G : forall (n : nat) (g : nat -> string -> Sheet.t),
               (forall i key, Sheet.id (g i key) = uuid (n + i)%nat) ->
               List.map Sheet.id (imap g keys) = List.map uuid (List.seq n (length keys))).
    { induction keys as [|k keys IH]; intros n g Hg; [reflexivity|]. simpl.
      rewrite Hg, Nat.add_0_r. f_equal. apply IH.
      intros i key. unfold compose. rewrite Hg. f_equal. lia. }
    apply (G 0%nat). intros i key. reflexivity.
Qed.

Lemma wellFormed_perm (st st' : AppState) :
  Permutation (sheets st') (sheets st) -> wellFormed st -> wellFormed st'.
Proof.
  intros Hp [Hne Hnd]. split.
  - intros E. rewrite E in Hp. apply Permutation_nil in Hp. congruence.
  - unfold ids. now rewrite Hp.
Qed.

Lemma In_ids_withoutId (sheetId i : string) (l : list Sheet.t) :
  In i (ids (withoutId sheetId l)) -> In i (ids l).
Proof.
  unfold ids, withoutId. rewrite !in_map_iff.
  intros (s & Hs & Hin). apply List.filter_In in Hin as [Hin _]. now exists s.
Qed.

Lemma NoDup_withoutId (sheetId : string) (l : list Sheet.t) :
  NoDup (ids l) -> NoDup (ids (withoutId sheetId l)).
Proof.
  induction l as [|s l IH]; [intros _; constructor|].
  cbn [ids List.map]. rewrite NoDup_cons. intros [Hs Hl].
  cbn [withoutId List.filter]. fold (withoutId sheetId l).
  destruct (negb (strEq (Sheet.id s) sheetId)); [|now apply IH].
  cbn [ids List.map]. apply NoDup_cons. split; [|now apply IH].
  rewrite list_elem_of_In. intros Hin. apply Hs. rewrite list_elem_of_In.
  now apply (In_ids_withoutId sheetId).
Qed.

(** Of two sheets with different identifiers one survives the filter. *)
Lemma withoutId_nonempty (sheetId : string) (l : list Sheet.t) :
  NoDup (ids l) -> (2 <= length l)%nat -> withoutId sheetId l <> [].
Proof.
  destruct l as [|a [|b l]]; simpl length; try lia. intros Hnd _.
  cbn [ids List.map] in Hnd. apply NoDup_cons in Hnd as [Hab _].
  unfold withoutId, strEq. cbn [List.filter].
  destruct (String.eqb_spec (Sheet.id a) sheetId) as [Ea|Ea]; cbn [negb]; [|discriminate].
  destruct (String.eqb_spec (Sheet.id b) sheetId) as [Eb|Eb]; cbn [negb]; [|discriminate].
  exfalso. apply Hab. rewrite Ea, <- Eb. now left.
Qed.

Lemma handleDeleteSheet_wellFormed (confirmed : bool) (st : AppState) :
  wellFormed st -> wellFormed (after (handleDeleteSheet confirmed st)).
Proof.
  intros Hwf. pose proof Hwf as [Hne Hnd]. unfold handleDeleteSheet.
  destruct (contextMenu st) as [sheetId|]; [|exact Hwf].
  match goal with |- context [if ?b then alerting msgOnlyEditorsDelete _ else _] =>
    destruct b end; [exact Hwf|].
  destruct (Nat.leb_spec (length (sheets st)) 1) as [Hle|Hgt]; [exact Hwf|].
  destruct confirmed; [|exact Hwf].
  assert (Hwf' : wellFormed (setSheets (withoutId sheetId (sheets st)) st)).
  { split; simpl; [apply withoutId_nonempty; [exact Hnd|lia] | now apply NoDup_withoutId]. }
  destruct (hasIdOpt (activeSheetId st) sheetId); [|exact Hwf'].
  destruct (withoutId sheetId (sheets st)); exact Hwf'.
Qed.

Lemma NoDup_uuid_seq (uuid : nat -> string) (n : nat) :
  (forall i j : nat, uuid i = uuid j -> i = j) -> NoDup (List.map uuid (List.seq 0 n)).
Proof.
  intros Hinj. apply (NoDup_fmap_2 (Inj0 := Hinj) uuid). apply NoDup_ListNoDup, List.seq_NoDup.
Qed.

Lemma updateCell_ids (host : Host) (st : AppState) (r c : nat) (v : value) :
  ids (sheets (writtenState (updateCell st r c v) st)) = ids (sheets st).
Proof.
  destruct (updateCell st r c v) as [| | |st'] eqn:E; try reflexivity.
  destruct (activeSheet st) as [sheet|] eqn:Hact.
  - destruct (updateCell_Written host st st' r c v sheet Hact E) as (finalRow & _ & ->).
    simpl. now apply ids_replaceSheet.
  - unfold updateCell in E. rewrite Hact in E. discriminate.
Qed.

(** Every event that brings new identifiers only keeps the collection
    well formed. *)
Lemma step_wellFormed (host : Host) (st : AppState) (e : Event) :
  wellFormed st -> fresh st e -> wellFormed (step st e).
Proof.
  intros Hwf Hfresh. pose proof Hwf as [Hne Hnd].
  destruct e; cbn [step fresh] in *.
  - (* the effect on the length *)
    unfold lengthEffect. destruct (sheets st) as [|firstSheet rest] eqn:E; [congruence|].
    destruct (nonEmpty (activeSheetId st)); [exact Hwf|].
    destruct (nonEmpty pauta && isSome (findSheet (firstSheet :: rest) pauta));
      [|destruct (negb (hasCodes firstSheet))];
      (apply (wellFormed_same_ids st); [reflexivity | exact Hwf]).
  - exact Hwf.
  - (* drag over *)
    destruct (isReadOnly st); [exact Hwf|]. unfold handleDragOver.
    destruct (dragItem st) as [cur|]; [|exact Hwf].
    destruct (Nat.eqb cur index); [exact Hwf|].
    destruct (nth_error (sheets st) cur) as [x|] eqn:Ex; [|exact Hwf].
    apply (wellFormed_perm st); [|exact Hwf]. simpl. now apply removeAt_insertAt_perm.
  - exact Hwf.
  - (* file upload *)
    destruct parsed as [parsedSheets|]; [|exact Hwf].
    apply (wellFormed_append st _ parsedSheets); [|exact Hfresh|exact Hwf].
    unfold handleFileUpload. now destruct parsedSheets.
  - (* split classes *)
    destruct Hfresh as [Hinj Hout]. unfold handleSplitClasses.
    destruct (activeSheet st) as [sheet|]; [|exact Hwf].
    destruct (Sheet.data sheet) as [|header rest]; [exact Hwf|].
    destruct header as [[|h headers]|]; try exact Hwf.
    destruct (negb (nonEmpty userInput)); [exact Hwf|].
    destruct (findIndex _ _) as [[columnIndex|]|]; try exact Hwf.
    destruct (splitSheetByColumn uuid sheet columnIndex) as [newSheets|] eqn:Es;
      [|exact Hwf].
    apply (wellFormed_append st _ newSheets); [now destruct newSheets| |exact Hwf].
    rewrite (ids_split uuid sheet columnIndex newSheets Es). split.
    + now apply NoDup_uuid_seq.
    + intros i Hi. apply in_map_iff in Hi as (n & <- & _). apply Hout.
  - (* a new version of the active sheet *)
    unfold storeActive. destruct (activeSheet st) as [sheet|]; [|exact Hwf].
    apply (wellFormed_same_ids st); [|exact Hwf]. simpl. now apply ids_replaceSheet.
  - apply (wellFormed_same_ids st); [apply updateCell_ids | exact Hwf].
  - unfold handleContextMenu. now destruct (nth_error (sheets st) index).
  - exact Hwf.
  - (* rename *)
    unfold handleRenameSheet.
    destruct (contextMenu st) as [sheetId|]; [|exact Hwf].
    destruct (findSheet (sheets st) (Some sheetId)) as [sheet|]; [|exact Hwf].
    destruct (lacksEditAccess st sheet); [exact Hwf|].
    destruct (nonEmpty newName && negb (strEq (trim (bound newName)) "")); [|exact Hwf].
    apply (wellFormed_same_ids st); [|exact Hwf]. simpl. unfold ids.
    rewrite List.map_map. apply List.map_ext. intros s.
    now destruct (strEq (Sheet.id s) (Sheet.id sheet)).
  - (* duplicate *)
    unfold handleDuplicateSheet.
    destruct (contextMenu st) as [sheetId|]; [|exact Hwf].
    destruct (findSheet (sheets st) (Some sheetId)) as [sheet|]; [|exact Hwf].
    apply (wellFormed_append st _ [duplicateOf newId sheet]);
      [reflexivity | now apply freshIds_one | exact Hwf].
  - now apply handleDeleteSheet_wellFormed.
  - (* new sheet *)
    unfold handleNewSheet. destruct (isReadOnly st); [exact Hwf|].
    apply (wellFormed_append st _ [newSheetOf newId (length (sheets st))]);
      [reflexivity | now apply freshIds_one | exact Hwf].
  - unfold selectTab. now destruct (nth_error (sheets st) index).
  - unfold handleCreateAccessCode. destruct (activeSheet st) as [sheet|]; [|exact Hwf].
    apply (wellFormed_same_ids st); [|exact Hwf]. simpl. now apply ids_replaceSheet.
  - unfold handleRemoveAccessCode. destruct (activeSheet st) as [sheet|]; [|exact Hwf].
    apply (wellFormed_same_ids st); [|exact Hwf]. simpl. now apply ids_replaceSheet.
  - exact Hwf.
  - unfold handleUnlockSheet. destruct (activeSheet st) as [sheet|]; [|exact Hwf].
    destruct (expiredAt now sheet); [exact Hwf|].
    repeat match goal with |- context [if ?b then _ else _] => destruct b end; exact Hwf.
  - unfold handleSimulateLock. now destruct (activeSheet st).
Qed.

Lemma run_wellFormed (host : Host) (events : list Event) (st : AppState) :
  wellFormed st -> allFresh st events -> wellFormed (run st events).
Proof.
  revert st. induction events as [|e events IH]; intros st Hwf Hfresh; [exact Hwf|].
  destruct Hfresh as [He Hrest]. cbn [run]. apply IH; [|exact Hrest].
  now apply step_wellFormed.
Qed.

Lemma find_filter {A} (p q : A -> bool) (l : list A) :
  (forall x, p x = true -> q x = true) ->
  List.find p (List.filter q l) = List.find p l.
Proof.
  intros Hpq. induction l as [|x l IH]; [reflexivity|]. simpl.
  destruct (q x) eqn:Eq; simpl.
  - now rewrite IH.
  - destruct (p x) eqn:Ep; [|exact IH]. rewrite (Hpq x Ep) in Eq. discriminate.
Qed.

(** Deleting leaves the active sheet in the collection. *)
Lemma handleDeleteSheet_active (confirmed : bool) (st : AppState) :
  wellFormed st ->
  activeSheet st <> None ->
  activeSheet (after (handleDeleteSheet confirmed st)) <> None.
Proof.
  intros [Hne Hnd] Hact. unfold handleDeleteSheet.
  destruct (contextMenu st) as [sheetId|]; [|exact Hact].
  match goal with |- context [if ?b then alerting msgOnlyEditorsDelete _ else _] =>
    destruct b end; [exact Hact|].
  destruct (Nat.leb_spec (length (sheets st)) 1) as [Hle|Hgt]; [exact Hact|].
  destruct confirmed; [|exact Hact].
  destruct (hasIdOpt (activeSheetId st) sheetId) eqn:Ea.
  - pose proof (withoutId_nonempty sheetId (sheets st) Hnd ltac:(lia)) as Hrest.
    destruct (withoutId sheetId (sheets st)) as [|first rest]; [congruence|].
    unfold activeSheet, findSheet. simpl. unfold strEq.
    now rewrite String.eqb_refl.
  - unfold activeSheet, findSheet in *. simpl.
    unfold withoutId. rewrite find_filter; [exact Hact|].
    intros s Hs. unfold hasId, hasIdOpt in *.
    destruct (activeSheetId st) as [a|]; [|discriminate].
    apply String.eqb_eq in Hs. unfold strEq in *. rewrite Hs, Ea. reflexivity.
Qed.

(** C6.  [handleDeleteSheet] on a collection of exactly one sheet shows a
    message and leaves the collection, the active sheet and the access
    levels as they are.  On a collection of sheets with distinct
    identifiers it never removes the active sheet without naming another,
    and no sequence of events, each bringing identifiers that are new,
    leads from a collection that holds a sheet to an empty one. *)
Theorem sheet_store_never_empty :
  (forall (st : AppState) (confirmed : bool) (sheetId : string) (only : Sheet.t),
      contextMenu st = Some sheetId ->
      sheets st = [only] ->
      (alerts (handleDeleteSheet confirmed st) = [msgOnlyEditorsDelete]
       \/ alerts (handleDeleteSheet confirmed st) = [msgLastSheet])
      /\ threw (handleDeleteSheet confirmed st) = false
      /\ sheets (after (handleDeleteSheet confirmed st)) = sheets st
      /\ activeSheetId (after (handleDeleteSheet confirmed st)) = activeSheetId st
      /\ activeSheet (after (handleDeleteSheet confirmed st)) = activeSheet st
      /\ unlockedSheets (after (handleDeleteSheet confirmed st)) = unlockedSheets st)
  /\ (forall (st : AppState) (confirmed : bool),
        wellFormed st ->
        activeSheet st <> None ->
        activeSheet (after (handleDeleteSheet confirmed st)) <> None)
  /\ (forall (host : Host) (st : AppState) (events : list Event),
        wellFormed st ->
        allFresh st events ->
        sheets (run st events) <> [] /\ wellFormed (run st events)).
Proof.
  split; [|split].
  - intros st confirmed sheetId only Hmenu Hone. unfold handleDeleteSheet.
    rewrite Hmenu, Hone.
    match goal with |- context [if ?b then alerting msgOnlyEditorsDelete _ else _] =>
      destruct b end.
    + unfold activeSheet. simpl. rewrite Hone. repeat split. now left.
    + unfold activeSheet. simpl. rewrite Hone. repeat split. now right.
  - intros st confirmed. apply handleDeleteSheet_active.
  - intros host st events Hwf Hfresh.
    pose proof (run_wellFormed host events st Hwf Hfresh) as Hrun.
    split; [apply Hrun | exact Hrun].
Qed.

(* ===================================================================== *)
(** * What a duplicate shares with its original                           *)
(* ===================================================================== *)

Module StoreFacts.
Import Store.

Lemma extends_refl (h : heap) : extends h h.
Proof. split; [lia | reflexivity]. Qed.

Lemma extends_trans (h1 h2 h3 : heap) : extends h1 h2 -> extends h2 h3 -> extends h1 h3.
Proof.
  intros [L1 E1] [L2 E2]. split; [lia|].
  intros l Hl. rewrite E2 by lia. now apply E1.
Qed.

Lemma alloc_extends (o : obj) (h : heap) : extends h (snd (alloc o h)).
Proof.
  split; simpl; [lia|]. intros l Hl. apply lookup_insert_ne. lia.
Qed.

Lemma alloc_lookup (o : obj) (h : heap) :
  objects (snd (alloc o h)) !! fst (alloc o h) = Some o.
Proof. simpl. apply lookup_insert_eq. Qed.

Lemma alloc_next (o : obj) (h : heap) : next (snd (alloc o h)) = Pos.succ (next h).
Proof. reflexivity. Qed.

Lemma copyRows_cons (src : heap) (r : option loc) (refs : list (option loc)) (h : heap) :
  copyRows src (r :: refs) h
  = (fst (copyRow src r h) :: fst (copyRows src refs (snd (copyRow src r h))),
     snd (copyRows src refs (snd (copyRow src r h)))).
Proof.
  cbn [copyRows].
  destruct (copyRow src r h) as [r' h1]. simpl.
  now destruct (copyRows src refs h1).
Qed.

Lemma copyRow_spec (src : heap) (r : option loc) (h : heap) :
  extends h (snd (copyRow src r h))
  /\ (forall l, fst (copyRow src r h) = Some l ->
        (next h <= l < next (snd (copyRow src r h)))%positive)
  /\ rowOf (snd (copyRow src r h)) (fst (copyRow src r h))
     = option_map jsonRow (rowOf src r).
Proof.
  unfold copyRow.
  destruct (rowOf src r) as [cells|]; simpl.
  - split; [apply (alloc_extends (ORow (jsonRow cells)) h)|]. split.
    + intros l [= <-]. lia.
    + unfold readRow. simpl. now rewrite lookup_insert_eq.
  - split; [apply extends_refl|]. split; [discriminate | reflexivity].
Qed.

Lemma rowOf_extends (h h' : heap) (r : option loc) :
  extends h h' -> (forall l, r = Some l -> (l < next h)%positive) -> rowOf h' r = rowOf h r.
Proof.
  intros [_ Hsame] Hr. destruct r as [l|]; [|reflexivity]. simpl. unfold readRow.
  now rewrite Hsame by now apply Hr.
Qed.

(** Every row copy lies at a location that was free, and holds the JSON
    image of the row it copies. *)
Lemma copyRows_spec (src : heap) (refs : list (option loc)) (h : heap) :
  extends h (snd (copyRows src refs h))
  /\ (forall l, In l (somes (fst (copyRows src refs h))) ->
        (next h <= l < next (snd (copyRows src refs h)))%positive)
  /\ List.map (rowOf (snd (copyRows src refs h))) (fst (copyRows src refs h))
     = List.map (fun r => option_map jsonRow (rowOf src r)) refs.
Proof.
  revert h. induction refs as [|r refs IH]; intros h.
  - split; [apply extends_refl|]. split; [intros l []|reflexivity].
  - rewrite copyRows_cons. cbn [fst snd].
    destruct (copyRow_spec src r h) as (Hext & Hloc & Hread).
    destruct (IH (snd (copyRow src r h))) as (Hext2 & Hloc2 & Hread2).
    split; [now apply (extends_trans h (snd (copyRow src r h)))|]. split.
    + intros l Hl. destruct Hext as [Hn1 _], Hext2 as [Hn2 _].
      unfold somes in Hl. cbn [flat_map] in Hl. apply in_app_iff in Hl as [Hl|Hl].
      * destruct (fst (copyRow src r h)) as [l'|] eqn:E; [|destruct Hl].
        destruct Hl as [<-|[]]. specialize (Hloc l' Logic.eq_refl). lia.
      * specialize (Hloc2 l Hl). lia.
    + cbn [List.map]. rewrite Hread2. f_equal. rewrite <- Hread.
      apply rowOf_extends; [exact Hext2|]. intros l E. now apply Hloc.
Qed.

(** [read] depends on the objects at the locations of [reach] only. *)
Lemma read_agree (h h2 : heap) (s : sheet) :
  (forall l, In l (reach h s) -> objects h2 !! l = objects h !! l) ->
  read h2 s = read h s.
Proof.
  intros Hag. unfold reach in Hag.
  assert (Hdata : objects h2 !! data s = objects h !! data s) by (apply Hag; now left).
  assert (Hrefs : rowRefs h2 (data s) = rowRefs h (data s))
    by (unfold rowRefs; now rewrite Hdata).
  assert (Hrules : forall a, In a [conditionalFormats s; validationRules s] ->
             ruleRefs h2 a = ruleRefs h a
             /\ forall l, In l (orEmpty (ruleRefs h a)) -> objects h2 !! l = objects h !! l).
  { intros a Ha. destruct a as [l|]; [|split; [reflexivity | intros l []]].
    assert (Hl : objects h2 !! l = objects h !! l).
    { apply Hag. right. rewrite !in_app_iff.
      destruct Ha as [E|[E|[]]]; rewrite E; simpl; tauto. }
    split; [simpl; now rewrite Hl|].
    intros l' Hl'. apply Hag. right. rewrite !in_app_iff.
    destruct Ha as [E|[E|[]]]; rewrite E; tauto. }
  destruct (Hrules (conditionalFormats s) ltac:(now left)) as [Hcf Hcfo].
  destruct (Hrules (validationRules s) ltac:(right; now left)) as [Hvr Hvro].
  unfold read. f_equal.
  - unfold readData. rewrite Hrefs. apply List.map_ext_in.
    intros [rl|] Hin; [|reflexivity]. unfold rowOf, readRow. rewrite Hag; [reflexivity|].
    right. rewrite in_app_iff. left. unfold somes. apply in_flat_map.
    exists (Some rl). split; [exact Hin | now left].
  - rewrite Hcf. destruct (ruleRefs h (conditionalFormats s)) as [refs|]; [|reflexivity].
    simpl. f_equal. apply List.map_ext_in. intros l Hl. unfold readConditional.
    now rewrite Hcfo.
  - rewrite Hvr. destruct (ruleRefs h (validationRules s)) as [refs|]; [|reflexivity].
    simpl. f_equal. apply List.map_ext_in. intros l Hl. unfold readValidation.
    now rewrite Hvro.
Qed.

Lemma writeAll_elsewhere (ws : list (loc * obj)) (h : heap) (l : loc) :
  (forall w, In w ws -> fst w <> l) -> objects (writeAll ws h) !! l = objects h !! l.
Proof.
  revert h. induction ws as [|w ws IH]; intros h Hw; [reflexivity|].
  simpl. rewrite IH by (intros w' Hw'; apply Hw; now right).
  simpl. apply lookup_insert_ne. apply Hw. now left.
Qed.
End StoreFacts.

(** C5 (as amended).  For a sheet whose objects lie in the store,
    [handleDuplicateSheet] builds a sheet with new arrays for [data], for
    every row and for the two lists of rules: the original reads the same
    after the copy and after any mutation of objects that did not exist
    before it, which covers every mutation of the data of the duplicate and
    of its rule arrays.  The rows of the duplicate are the JSON images of
    the original rows.  The rule objects are not copied: the rule arrays of
    the duplicate hold the very rule objects of the original. *)
Theorem duplicate_copies_arrays_and_shares_rules :
  forall (newId : string) (s : Store.sheet) (h : Store.heap),
    (forall l, In l (Store.reach h s) -> (l < Store.next h)%positive) ->
    let dup := fst (Store.duplicate newId s h) in
    let h' := snd (Store.duplicate newId s h) in
    Store.read h' s = Store.read h s
    /\ (forall l, In l (Store.arrays h' dup) -> (Store.next h <= l)%positive)
    /\ (forall ws : list (Store.loc * Store.obj),
          (forall w, In w ws -> (Store.next h <= fst w)%positive) ->
          Store.read (Store.writeAll ws h') s = Store.read h s)
    /\ Store.ruleObjects h' dup = Store.ruleObjects h s
    /\ Store.rows (Store.read h' dup) = jsonData (Store.rows (Store.read h s))
    /\ Store.formats (Store.read h' dup)
       = Some (orEmpty (Store.formats (Store.read h s)))
    /\ Store.validations (Store.read h' dup)
       = Some (orEmpty (Store.validations (Store.read h s))).
Proof.
  intros newId s h Hreach. unfold Store.duplicate.
  destruct (StoreFacts.copyRows_spec h (Store.rowRefs h (Store.data s)) h)
    as (Hext1 & Hloc1 & Hread1).
  destruct (Store.copyRows h (Store.rowRefs h (Store.data s)) h) as [rowsCopy h1].
  cbn [fst snd] in Hext1, Hloc1, Hread1.
  cbn [Store.alloc Store.copyRules Store.objects Store.next fst snd]. cbv zeta.
  set (cf := orEmpty (Store.ruleRefs h (Store.conditionalFormats s))).
  set (vr := orEmpty (Store.ruleRefs h (Store.validationRules s))).
  set (n1 := Store.next h1).
  match goal with |- Store.read ?x s = _ /\ _ => set (h4 := x) end.
  match goal with |- context [Store.arrays h4 ?d] => set (dup := d) end.
  destruct Hext1 as [Hn1 Hsame1]. fold n1 in Hn1.
  assert (Hold1 : forall l : Store.loc, (l < n1)%positive ->
                    Store.objects h4 !! l = Store.objects h1 !! l).
  { intros l Hl. unfold h4. simpl. rewrite !lookup_insert_ne by lia. reflexivity. }
  assert (Hold : forall l : Store.loc, (l < Store.next h)%positive ->
                   Store.objects h4 !! l = Store.objects h !! l).
  { intros l Hl. rewrite Hold1 by lia. now apply Hsame1. }
  assert (Hdata : Store.objects h4 !! n1 = Some (Store.OData rowsCopy)).
  { unfold h4. simpl. rewrite !lookup_insert_ne by lia. apply lookup_insert_eq. }
  assert (Hcf : Store.objects h4 !! (Pos.succ n1 : Store.loc) = Some (Store.ORules cf)).
  { unfold h4. simpl. rewrite lookup_insert_ne by lia. apply lookup_insert_eq. }
  assert (Hvr : Store.objects h4 !! (Pos.succ (Pos.succ n1) : Store.loc)
                = Some (Store.ORules vr)).
  { unfold h4. simpl. apply lookup_insert_eq. }
  assert (Hcfin : forall l, In l cf -> (l < Store.next h)%positive).
  { intros l Hl. apply Hreach. unfold Store.reach. right. rewrite !in_app_iff. tauto. }
  assert (Hvrin : forall l, In l vr -> (l < Store.next h)%positive).
  { intros l Hl. apply Hreach. unfold Store.reach. right. rewrite !in_app_iff. tauto. }
  split; [|split; [|split; [|split; [|split; [|split]]]]].
  - apply StoreFacts.read_agree. intros l Hl. apply Hold. now apply Hreach.
  - intros l. unfold Store.arrays. unfold dup.
    cbn [Store.data Store.conditionalFormats Store.validationRules].
    unfold Store.rowRefs. rewrite Hdata.
    intros [<-|Hl]; [lia|]. rewrite !in_app_iff in Hl.
    destruct Hl as [Hl|[Hl|Hl]].
    + specialize (Hloc1 l Hl). lia.
    + cbn in Hl. destruct Hl as [<-|[]]. lia.
    + cbn in Hl. destruct Hl as [<-|[]]. lia.
  - intros ws Hws. apply StoreFacts.read_agree. intros l Hl.
    rewrite StoreFacts.writeAll_elsewhere.
    + apply Hold. now apply Hreach.
    + intros w Hw E. specialize (Hws w Hw). specialize (Hreach l Hl). lia.
  - unfold Store.ruleObjects. unfold dup. cbn [Store.conditionalFormats Store.validationRules].
    unfold Store.ruleRefs at 1 2. rewrite Hcf, Hvr. reflexivity.
  - unfold Store.read. unfold dup. cbn [Store.rows Store.data]. unfold Store.readData at 1.
    unfold Store.rowRefs at 1. rewrite Hdata.
    transitivity (List.map (Store.rowOf h1) rowsCopy).
    + apply List.map_ext_in. intros [l|] Hin; [|reflexivity].
      unfold Store.rowOf, Store.readRow. rewrite Hold1; [reflexivity|].
      assert (Hl : In l (Store.somes rowsCopy)).
      { unfold Store.somes. apply in_flat_map. exists (Some l). split; [exact Hin | now left]. }
      specialize (Hloc1 l Hl). lia.
    + rewrite Hread1. unfold jsonData, Store.readData. now rewrite List.map_map.
  - unfold Store.read. unfold dup. cbn [Store.formats Store.conditionalFormats].
    unfold Store.ruleRefs at 1. rewrite Hcf. cbn [option_map]. f_equal.
    fold cf. transitivity (List.map (Store.readConditional h) cf).
    + apply List.map_ext_in. intros l Hl. unfold Store.readConditional.
      now rewrite Hold by now apply Hcfin.
    + unfold cf. now destruct (Store.ruleRefs h (Store.conditionalFormats s)).
  - unfold Store.read. unfold dup. cbn [Store.validations Store.validationRules].
    unfold Store.ruleRefs at 1. rewrite Hvr. cbn [option_map]. f_equal.
    fold vr. transitivity (List.map (Store.readValidation h) vr).
    + apply List.map_ext_in. intros l Hl. unfold Store.readValidation.
      now rewrite Hold by now apply Hvrin.
    + unfold vr. now destruct (Store.ruleRefs h (Store.validationRules s)).
Qed.

Lemma duplicate_copies_arrays_and_shares_rules_witness :
  Store.read (snd (Store.duplicate "copy" sampleSheet sampleHeap)) sampleSheet
  = Store.read sampleHeap sampleSheet
  /\ Store.rows (Store.read (snd (Store.duplicate "copy" sampleSheet sampleHeap))
                            (fst (Store.duplicate "copy" sampleSheet sampleHeap)))
     = jsonData (Store.rows (Store.read sampleHeap sampleSheet))
  /\ Store.ruleObjects (snd (Store.duplicate "copy" sampleSheet sampleHeap))
                        (fst (Store.duplicate "copy" sampleSheet sampleHeap))
     = [4%positive].
Proof.
  assert (H : forall l, In l (Store.reach sampleHeap sampleSheet) ->
                        (l < Store.next sampleHeap)%positive).
  { intros l Hl. vm_compute in Hl.
    repeat (destruct Hl as [<-|Hl]; [reflexivity|]). destruct Hl. }
  pose proof (duplicate_copies_arrays_and_shares_rules "copy" sampleSheet sampleHeap H) as T.
  cbv zeta in T. destruct T as (T1 & _ & _ & T4 & T5 & _).
  split; [exact T1 | split; [exact T5 | rewrite T4; reflexivity]].
Defined.

(** C5 as stated fails on the rule objects.  In the sample store the rule
    array of the duplicate holds the rule object of the original (location
    4); changing that object through the duplicate changes the conditional
    formats the original sheet shows. *)
Lemma duplicate_shares_rule_objects_with_original :
  In 4%positive
     (Store.ruleObjects (snd (Store.duplicate "copy" sampleSheet sampleHeap))
                        (fst (Store.duplicate "copy" sampleSheet sampleHeap)))
  /\ Store.formats (Store.read sampleHeap sampleSheet) = Some [Some (failRule "r1" 3)]
  /\ Store.formats
       (Store.read (Store.write 4%positive (Store.OConditional (passRule "r1" 3))
                      (snd (Store.duplicate "copy" sampleSheet sampleHeap)))
                   sampleSheet)
     = Some [Some (passRule "r1" 3)]
  /\ passRule "r1" 3 <> failRule "r1" 3.
Proof.
  split; [|split; [|split]].
  - vm_compute. now left.
  - vm_compute. reflexivity.
  - vm_compute. reflexivity.
  - discriminate.
Qed.

Lemma sheet_store_never_empty_witness :
  sheets (@run lenientHost (session [plainSheet "a" "Pauta 1" [Some []]] {[ "a" := edit ]} "" None)
               deleteTwice) <> [].
Proof.
  apply (proj2 (proj2 sheet_store_never_empty) lenientHost
           (session [plainSheet "a" "Pauta 1" [Some []]] {[ "a" := edit ]} "" None)
           deleteTwice).
  - split; [discriminate | apply NoDup_singleton].
  - vm_compute. repeat split; intros Hin; repeat (destruct Hin as [Hin|Hin]; [discriminate Hin|]);
      destruct Hin.
Defined.


(** A cell that holds the number 0 is filed under the sentinel, and the
    label "constructor" ends the call in a TypeError. *)
Lemma splitSheetByColumn_falsy_and_inherited_labels :
  splitSheetByColumn sampleUuid
    (plainSheet "s" "Turmas"
       [Some (cells ["Nome"; "Turma"]); Some [Some (VStr "Ana"); Some (VNum (ofZ 0))]]) 1
  = Ok [bareSheet (sampleUuid 0) "Turmas - Sem Turma"
          [Some (cells ["Nome"; "Turma"]); Some [Some (VStr "Ana"); Some (VNum (ofZ 0))]]]
  /\ splitSheetByColumn sampleUuid
       (plainSheet "s" "Turmas"
          [Some (cells ["Nome"; "Turma"]); Some (cells ["Ana"; "constructor"])]) 1
     = TypeError.
Proof. split; vm_compute; reflexivity. Qed.


(* ===================================================================== *)
(** * Column letters                                                      *)
(* ===================================================================== *)

Lemma append_cons (ch : ascii) (s t : string) : String ch s +:+ t = String ch (s +:+ t).
Proof. reflexivity. Qed.

Lemma append_assoc (s t u : string) : (s +:+ t) +:+ u = s +:+ (t +:+ u).
Proof.
  induction s as [|ch s IH]; [reflexivity|]. now rewrite !append_cons, IH.
Qed.

Lemma append_nil_r (s : string) : s +:+ EmptyString = s.
Proof.
  induction s as [|ch s IH]; [reflexivity|]. now rewrite append_cons, IH.
Qed.

Lemma length_append (s t : string) :
  String.length (s +:+ t) = (String.length s + String.length t)%nat.
Proof.
  induction s as [|ch s IH]; [reflexivity|]. rewrite append_cons. simpl. now rewrite IH.
Qed.

Lemma labelLoop_done (n : Z) (label : string) : n < 0 -> labelLoop n label = label.
Proof.
  intros Hn. rewrite labelLoop_equation_1.
  destruct (Z_lt_ge_dec n 0); [reflexivity | lia].
Qed.

Lemma labelLoop_step (n : Z) (label : string) :
  0 <= n -> labelLoop n label = labelLoop (n / 26 - 1) (String (letter n) label).
Proof.
  intros Hn. rewrite labelLoop_equation_1.
  destruct (Z_lt_ge_dec n 0); [lia | reflexivity].
Qed.

Lemma div26_below (n : Z) : 0 <= n -> -1 <= n / 26 - 1 < n.
Proof.
  intros Hn. assert (0 <= n / 26) by (apply Z.div_pos; lia).
  assert (n / 26 <= n) by (apply Z.div_le_upper_bound; lia). lia.
Qed.

(** Induction along the loop. *)
Lemma label_ind (P : Z -> Prop) :
  (forall n, n < 0 -> P n) ->
  (forall n, 0 <= n -> P (n / 26 - 1) -> P n) ->
  forall n, P n.
Proof.
  intros Hdone Hstep n.
  assert (H : forall k : nat, forall m, m < Z.of_nat k -> P m).
  { induction k as [|k IH]; intros m Hm.
    - apply Hdone. lia.
    - destruct (Z_lt_ge_dec m 0) as [Hneg|Hpos]; [now apply Hdone|].
      apply Hstep; [lia|]. apply IH. pose proof (div26_below m ltac:(lia)). lia. }
  apply (H (Z.to_nat (n + 1))). lia.
Qed.

Lemma labelLoop_app (n : Z) :
  forall label, labelLoop n label = labelLoop n EmptyString +:+ label.
Proof.
  induction n as [n Hn | n Hn IH] using label_ind; intros label.
  - now rewrite !labelLoop_done.
  - rewrite (labelLoop_step n label Hn), (labelLoop_step n EmptyString Hn).
    rewrite (IH (String (letter n) label)), (IH (String (letter n) EmptyString)).
    rewrite append_assoc. reflexivity.
Qed.

Lemma colIndexFrom_app (s t : string) :
  forall acc, colIndexFrom acc (s +:+ t) = colIndexFrom (colIndexFrom acc s) t.
Proof.
  induction s as [|ch s IH]; intros acc; [reflexivity|].
  rewrite append_cons. simpl. apply IH.
Qed.

Lemma code_letter (n : Z) : 0 <= n -> Z.of_N (code (letter n)) = n mod 26 + 65.
Proof.
  intros Hn. unfold code, letter. rewrite Z.rem_mod_nonneg by lia.
  pose proof (Z.mod_pos_bound n 26 ltac:(lia)).
  rewrite N_ascii_embedding by lia. lia.
Qed.

Lemma isCapital_letter (n : Z) : 0 <= n -> isCapital (letter n) = true.
Proof.
  intros Hn. unfold isCapital, inRange.
  pose proof (code_letter n Hn). pose proof (Z.mod_pos_bound n 26 ltac:(lia)).
  apply andb_true_intro. split; apply N.leb_le; lia.
Qed.

Lemma allChars_app (p : ascii -> bool) (s t : string) :
  allChars p (s +:+ t) = allChars p s && allChars p t.
Proof.
  induction s as [|ch s IH]; [reflexivity|].
  rewrite append_cons. simpl. now rewrite IH, andb_assoc.
Qed.

Lemma columnLabel_capitals (n : Z) : allChars isCapital (labelLoop n EmptyString) = true.
Proof.
  induction n as [n Hn | n Hn IH] using label_ind.
  - now rewrite labelLoop_done.
  - rewrite labelLoop_step, labelLoop_app, allChars_app, IH by lia.
    simpl. now rewrite isCapital_letter.
Qed.

(** The value the loop of [getColIndex] reads off a label. *)
Lemma colIndexFrom_label (n : Z) :
  -1 <= n -> colIndexFrom 0 (labelLoop n EmptyString) = n + 1.
Proof.
  induction n as [n Hn | n Hn IH] using label_ind; intros Hlow.
  - rewrite labelLoop_done by lia. simpl. lia.
  - rewrite labelLoop_step, labelLoop_app, colIndexFrom_app by lia.
    rewrite IH by (pose proof (div26_below n Hn); lia).
    simpl. rewrite code_letter by lia.
    pose proof (Z.div_mod n 26 ltac:(lia)). lia.
Qed.

Lemma toUpperCase_capitals (s : string) : allChars isCapital s = true -> toUpperCase s = s.
Proof.
  induction s as [|ch s IH]; simpl; [reflexivity|].
  intros [Hc Hs]%andb_prop. rewrite (IH Hs).
  unfold isCapital, inRange in Hc. apply andb_prop in Hc as [H1%N.leb_le H2%N.leb_le].
  unfold inRange.
  replace (code ch =? 223)%N with false by (symmetry; apply N.eqb_neq; lia).
  replace (97 <=? code ch)%N with false by (symmetry; apply N.leb_gt; lia).
  replace (224 <=? code ch)%N with false by (symmetry; apply N.leb_gt; lia).
  reflexivity.
Qed.

Lemma isWhiteSpace_capital (ch : ascii) : isCapital ch = true -> isWhiteSpace ch = false.
Proof.
  unfold isCapital, isWhiteSpace, inRange.
  intros [H1%N.leb_le H2%N.leb_le]%andb_prop.
  replace (code ch <=? 13)%N with false by (symmetry; apply N.leb_gt; lia).
  replace (code ch =? 32)%N with false by (symmetry; apply N.eqb_neq; lia).
  replace (code ch =? 160)%N with false by (symmetry; apply N.eqb_neq; lia).
  now rewrite andb_false_r.
Qed.

Lemma trimEnd_plain (s : string) :
  allChars (fun ch => negb (isWhiteSpace ch)) s = true -> trimEnd s = s.
Proof.
  induction s as [|ch s IH]; simpl; [reflexivity|].
  intros [Hc Hs]%andb_prop. rewrite (IH Hs).
  destruct s; [|reflexivity]. now apply negb_true_iff in Hc as ->.
Qed.

Lemma trim_plain (s : string) :
  allChars (fun ch => negb (isWhiteSpace ch)) s = true -> trim s = s.
Proof.
  intros Hs. unfold trim.
  assert (E : trimStart s = s).
  { destruct s as [|ch s]; [reflexivity|]. simpl in *.
    apply andb_prop in Hs as [Hc _]. now apply negb_true_iff in Hc as ->. }
  rewrite E. now apply trimEnd_plain.
Qed.

Lemma allChars_impl (p q : ascii -> bool) (s : string) :
  (forall ch, p ch = true -> q ch = true) -> allChars p s = true -> allChars q s = true.
Proof.
  intros Hpq. induction s as [|ch s IH]; simpl; [reflexivity|].
  intros [Hc Hs]%andb_prop. now rewrite (Hpq ch Hc), (IH Hs).
Qed.

Lemma trim_capitals (s : string) : allChars isCapital s = true -> trim s = s.
Proof.
  intros Hs. apply trim_plain. revert Hs. apply allChars_impl.
  intros ch Hc. now rewrite (isWhiteSpace_capital ch Hc).
Qed.

Lemma getColIndex_columnLabel (i : nat) : getColIndex (columnLabel i) = Z.of_nat i.
Proof.
  unfold getColIndex, cleanHeader, columnLabel.
  rewrite toUpperCase_capitals by apply columnLabel_capitals.
  rewrite trim_capitals by apply columnLabel_capitals.
  rewrite colIndexFrom_label by lia. lia.
Qed.

Lemma nth_error_headers (data : SheetData) (i : nat) (label : string) :
  nth_error (headers data) i = Some label ->
  (i < maxCols data)%nat /\ label = columnLabel i.
Proof.
  unfold headers. intros Hnth.
  assert (Hi : (i < maxCols data)%nat).
  { assert (Hsome : nth_error (List.map columnLabel (seq 0 (maxCols data))) i <> None)
      by congruence.
    apply nth_error_Some in Hsome. now rewrite length_map, length_seq in Hsome. }
  split; [exact Hi|].
  rewrite nth_error_map, nth_error_seq in Hnth.
  rewrite (proj2 (Nat.ltb_lt _ _) Hi) in Hnth. simpl in Hnth. congruence.
Qed.

(** The letters the grid shows above a column are the ones the rule
    dialogs resolve to that column: [getColIndex] gives the index of a
    header back; so the headers of a grid are pairwise distinct, one for
    each column.  (An array has fewer than 2^32 elements; the sums of the
    two loops stay far below 2^53.) *)
Theorem getColIndex_headers :
  forall (data : SheetData),
    (Z.of_nat (maxCols data) < 2 ^ 32) ->
    length (headers data) = maxCols data
    /\ NoDup (headers data)
    /\ forall (i : nat) (label : string),
         nth_error (headers data) i = Some label ->
         getColIndex label = Z.of_nat i.
Proof.
  intros data _. split; [|split].
  - unfold headers. now rewrite length_map, length_seq.
  - unfold headers. apply NoDup_fmap_2_strong; [|apply NoDup_seq].
    intros i j _ _ E. apply (f_equal getColIndex) in E.
    rewrite !getColIndex_columnLabel in E. lia.
  - intros i label Hnth. apply nth_error_headers in Hnth as [_ ->].
    apply getColIndex_columnLabel.
Qed.

Lemma getColIndex_headers_witness :
  headers (Sheet.data classBook) = ["A"; "B"]
  /\ forall (i : nat) (label : string),
       nth_error (headers (Sheet.data classBook)) i = Some label ->
       getColIndex label = Z.of_nat i.
Proof.
  split; [vm_compute; reflexivity|].
  apply (getColIndex_headers (Sheet.data classBook)). vm_compute. reflexivity.
Defined.

Lemma toUpperCase_letters (s : string) :
  isLetters s = true -> allChars isCapital (toUpperCase s) = true.
Proof.
  unfold isLetters. induction s as [|ch s IH]; simpl; [reflexivity|].
  intros [Hc Hs]%andb_prop. specialize (IH Hs).
  unfold isCapital, isSmall, inRange in Hc.
  destruct (code ch =? 223)%N eqn:E223.
  { apply N.eqb_eq in E223. rewrite E223 in Hc. discriminate. }
  apply orb_prop in Hc as [Hc|Hc]; apply andb_prop in Hc as [H1%N.leb_le H2%N.leb_le].
  - unfold inRange.
    replace (97 <=? code ch)%N with false by (symmetry; apply N.leb_gt; lia).
    replace (224 <=? code ch)%N with false by (symmetry; apply N.leb_gt; lia).
    simpl. rewrite IH. unfold isCapital, inRange.
    now rewrite (proj2 (N.leb_le _ _) H1), (proj2 (N.leb_le _ _) H2).
  - unfold inRange.
    rewrite (proj2 (N.leb_le _ _) H1), (proj2 (N.leb_le _ _) H2).
    simpl. rewrite IH. unfold isCapital, inRange, shift, code.
    rewrite N_ascii_embedding by (unfold code in *; lia).
    unfold code in *. rewrite andb_true_r.
    apply andb_true_intro. split; apply N.leb_le; lia.
Qed.

Lemma letter_of_capital (acc : Z) (ch : ascii) :
  0 <= acc -> isCapital ch = true ->
  let n := acc * 26 + (Z.of_N (code ch) - 64) - 1 in
  acc <= n + 1 /\ 0 <= n /\ n / 26 = acc /\ letter n = ch.
Proof.
  intros Hacc Hc n. unfold isCapital, inRange in Hc.
  apply andb_prop in Hc as [H1%N.leb_le H2%N.leb_le].
  assert (Hd : 0 <= Z.of_N (code ch) - 65 < 26) by lia.
  assert (En : n = acc * 26 + (Z.of_N (code ch) - 65)) by (unfold n; lia).
  split; [lia|]. split; [lia|]. split.
  - rewrite En. rewrite Z.div_add_l by lia. rewrite Z.div_small by lia. lia.
  - unfold letter. rewrite Z.rem_mod_nonneg by lia.
    assert (Em : n mod 26 = Z.of_N (code ch) - 65).
    { rewrite En.
      replace (acc * 26 + (Z.of_N (code ch) - 65))
        with ((Z.of_N (code ch) - 65) + acc * 26) by lia.
      rewrite Z.mod_add by lia. apply Z.mod_small. lia. }
    rewrite Em.
    replace (Z.of_N (code ch) - 65 + 65) with (Z.of_N (code ch)) by lia.
    rewrite N2Z.id. apply ascii_N_embedding.
Qed.

Lemma labelLoop_colIndexFrom (s : string) :
  allChars isCapital s = true ->
  forall acc, 0 <= acc ->
    0 <= acc <= colIndexFrom acc s
    /\ labelLoop (colIndexFrom acc s - 1) EmptyString
       = labelLoop (acc - 1) EmptyString +:+ s.
Proof.
  induction s as [|ch s IH]; simpl; intros Hs acc Hacc.
  - split; [lia|]. now rewrite append_nil_r.
  - apply andb_prop in Hs as [Hc Hs].
    destruct (letter_of_capital acc ch Hacc Hc) as (Hup & Hn & Hdiv & Hletter).
    destruct (IH Hs (acc * 26 + (Z.of_N (code ch) - 64)) ltac:(lia)) as [Hle E].
    split; [lia|]. rewrite E.
    rewrite (labelLoop_step (acc * 26 + (Z.of_N (code ch) - 64) - 1)) by exact Hn.
    rewrite Hdiv, Hletter, labelLoop_app, append_assoc. reflexivity.
Qed.

Lemma colIndexFrom_positive (s : string) :
  allChars isCapital s = true -> s <> EmptyString -> 1 <= colIndexFrom 0 s.
Proof.
  destruct s as [|ch s]; [congruence|]. simpl. intros [Hc Hs]%andb_prop _.
  destruct (letter_of_capital 0 ch ltac:(lia) Hc) as (_ & Hn & _).
  destruct (labelLoop_colIndexFrom s Hs (0 * 26 + (Z.of_N (code ch) - 64)) ltac:(lia))
    as [Hle _].
  lia.
Qed.

(** A header of letters, in either case, resolves to the column whose
    label is that header in capitals.  (Up to ten letters the sums of
    [getColIndex] stay below 2^53.) *)
Theorem columnLabel_getColIndex :
  forall header : string,
    isLetters header = true ->
    header <> EmptyString ->
    (String.length header <= 10)%nat ->
    0 <= getColIndex header
    /\ columnLabel (Z.to_nat (getColIndex header)) = toUpperCase header.
Proof.
  intros header Hletters Hne _. unfold getColIndex, cleanHeader, columnLabel.
  pose proof (toUpperCase_letters header Hletters) as Hcap.
  assert (Hne' : toUpperCase header <> EmptyString).
  { destruct header as [|ch rest]; [congruence|]. simpl.
    destruct (code ch =? 223)%N; [discriminate|].
    destruct (_ || _); discriminate. }
  rewrite (trim_capitals _ Hcap).
  pose proof (colIndexFrom_positive _ Hcap Hne') as Hpos.
  split; [lia|]. rewrite Z2Nat.id by lia.
  destruct (labelLoop_colIndexFrom _ Hcap 0 ltac:(lia)) as [_ E].
  rewrite E. now rewrite labelLoop_done by lia.
Qed.

Lemma columnLabel_getColIndex_witness :
  getColIndex "ab" = 27 /\ columnLabel (Z.to_nat (getColIndex "ab")) = "AB".
Proof.
  split; [vm_compute; reflexivity|].
  apply (columnLabel_getColIndex "ab"); [reflexivity | discriminate | simpl; lia].
Defined.

(* ===================================================================== *)
(** * The grid: the selection stays on the table                          *)
(* ===================================================================== *)

(** Whatever key is pressed, a selection that lies on the table stays on
    it, and moves by at most one cell.  Outside an edit, an arrow or Tab
    moves the selection one cell in its direction, up to the edge of the
    table; Enter and F2 start the edit of the selected cell; Delete and
    Backspace clear the selected cell; any other key does nothing.  During
    an edit Escape ends it and every other key is left to the input. *)
Theorem handleKeyDown_keeps_selection_in_grid :
  forall (data : SheetData) (k : Grid.key) (g : Grid.state) (sel : Grid.ref),
    Grid.selectedCell g = Some sel ->
    Grid.inGrid data sel ->
    let out := Grid.handleKeyDown data k g in
    let lastRow := Z.of_nat (length data) - 1 in
    let lastCol := Z.of_nat (maxCols data) - 1 in
    exists sel' : Grid.ref,
      Grid.selectedCell (fst out) = Some sel'
      /\ Grid.inGrid data sel'
      /\ Z.abs (Grid.r sel' - Grid.r sel) + Z.abs (Grid.c sel' - Grid.c sel) <= 1
      /\ (forall e, Grid.editingCell (fst out) = Some e ->
                    Grid.editingCell g = Some e \/ e = sel)
      /\ (forall cleared, snd out = Some cleared -> cleared = sel)
      /\ (Grid.editingCell g = None ->
          (k = Grid.ArrowUp ->
           sel' = {| Grid.r := Z.max 0 (Grid.r sel - 1); Grid.c := Grid.c sel |})
          /\ (k = Grid.ArrowDown ->
              sel' = {| Grid.r := Z.min lastRow (Grid.r sel + 1); Grid.c := Grid.c sel |})
          /\ (k = Grid.ArrowLeft \/ k = Grid.Tab true ->
              sel' = {| Grid.r := Grid.r sel; Grid.c := Z.max 0 (Grid.c sel - 1) |})
          /\ (k = Grid.ArrowRight \/ k = Grid.Tab false ->
              sel' = {| Grid.r := Grid.r sel; Grid.c := Z.min lastCol (Grid.c sel + 1) |})
          /\ (k = Grid.Enter \/ k = Grid.F2 ->
              Grid.editingCell (fst out) = Some sel /\ sel' = sel /\ snd out = None)
          /\ (k = Grid.Delete \/ k = Grid.Backspace ->
              snd out = Some sel /\ fst out = g)
          /\ (k = Grid.Escape \/ k = Grid.OtherKey -> out = (g, None)))
      /\ (Grid.editingCell g <> None ->
          (k = Grid.Escape ->
           Grid.editingCell (fst out) = None /\ sel' = sel /\ snd out = None)
          /\ (k <> Grid.Escape -> out = (g, None))).
Proof.
  intros data k g sel Hsel [Hr Hc] out lastRow lastCol. subst out lastRow lastCol.
  destruct data as [|row0 rest]; [simpl in Hr; lia|].
  unfold Grid.handleKeyDown. rewrite Hsel.
  set (rows := Z.of_nat (length (row0 :: rest))) in *.
  set (cols := Z.of_nat (maxCols (row0 :: rest))) in *.
  destruct (Grid.editingCell g) as [e0|] eqn:Eedit.
  - destruct k;
      cbn [fst snd Grid.selectedCell Grid.editingCell Grid.setSelectedCell
           Grid.setEditingCell]; rewrite ?Hsel, ?Eedit; exists sel;
      (split; [reflexivity|]); (split; [split; assumption|]);
      (split; [lia|]);
      (split; [intros e He; first [discriminate He | now left]|]);
      (split; [discriminate|]);
      (split; [discriminate|]); intros _;
      (split; [intros E; first [discriminate E | repeat split; reflexivity]
              | intros E; first [reflexivity | now contradiction E]]).
  - destruct k as [| | | | | | | |[|]| |];
      cbn [fst snd Grid.selectedCell Grid.editingCell Grid.setSelectedCell
           Grid.setEditingCell]; rewrite ?Hsel, ?Eedit;
      eexists; (split; [reflexivity|]); unfold Grid.inGrid;
      cbn [Grid.r Grid.c]; fold rows cols;
      (split; [lia|]); (split; [lia|]);
      (split; [intros e He; first [discriminate He | right; congruence]|]);
      (split; [intros cl Hcl; first [discriminate Hcl | congruence]|]);
      (split; [intros _ | intros E; now contradiction E]);
      repeat match goal with |- _ /\ _ => split end;
      try (intros [E|E]; discriminate E); try (intros E; discriminate E);
      intros _; try reflexivity; repeat split; destruct sel; reflexivity.
Qed.

Lemma handleKeyDown_keeps_selection_in_grid_witness :
  exists sel' : Grid.ref,
    Grid.selectedCell
      (fst (Grid.handleKeyDown (Sheet.data classBook) Grid.ArrowDown
              {| Grid.editingCell := None;
                 Grid.selectedCell := Some {| Grid.r := 4; Grid.c := 1 |} |}))
    = Some sel'
    /\ Grid.inGrid (Sheet.data classBook) sel'.
Proof.
  destruct (handleKeyDown_keeps_selection_in_grid (Sheet.data classBook) Grid.ArrowDown
              {| Grid.editingCell := None;
                 Grid.selectedCell := Some {| Grid.r := 4; Grid.c := 1 |} |}
              {| Grid.r := 4; Grid.c := 1 |} Logic.eq_refl)
    as (sel' & H1 & H2 & _).
  - split; vm_compute; split; congruence.
  - exists sel'. split; assumption.
Defined.

(* ===================================================================== *)
(** * The rule dialogs                                                    *)
(* ===================================================================== *)

Lemma findSheet_replaceSheet (l : list Sheet.t) (a : option string) (sheet updated : Sheet.t) :
  findSheet l a = Some sheet ->
  Sheet.id updated = Sheet.id sheet ->
  findSheet (replaceSheet (Sheet.id sheet) updated l) a = Some updated.
Proof.
  unfold findSheet, replaceSheet. intros Hfind Hid.
  assert (Hsheet : hasId a sheet = true) by (apply (List.find_some _ _ Hfind)).
  assert (Hupd : hasId a updated = true) by (unfold hasId in *; now rewrite Hid).
  induction l as [|s l IH]; simpl in *; [discriminate|].
  destruct (hasId a s) eqn:Hs.
  - injection Hfind as ->. unfold strEq. rewrite String.eqb_refl. now rewrite Hupd.
  - destruct (strEq (Sheet.id s) (Sheet.id sheet)) eqn:E.
    + now rewrite Hupd.
    + rewrite Hs. now apply IH.
Qed.

Lemma activeSheet_storeActive (st : AppState) (sheet : Sheet.t) (d : SheetData)
    (cf : option (list ConditionalRule.t)) (vr : option (list ValidationRule.t)) :
  activeSheet st = Some sheet ->
  activeSheet (storeActive d cf vr st) = Some (stored sheet d cf vr).
Proof.
  intros Hact. unfold storeActive. rewrite Hact. unfold activeSheet in *. simpl.
  now apply (findSheet_replaceSheet (sheets st) (activeSheetId st) sheet).
Qed.

Lemma canEdit_storeActive (st : AppState) (sheet : Sheet.t) (d : SheetData)
    (cf : option (list ConditionalRule.t)) (vr : option (list ValidationRule.t)) :
  activeSheet st = Some sheet ->
  canEdit (storeActive d cf vr st) = canEdit st.
Proof.
  intros Hact. unfold canEdit.
  rewrite (activeSheet_storeActive st sheet d cf vr Hact), Hact.
  unfold storeActive. rewrite Hact. reflexivity.
Qed.

Lemma find_otherValidations_new (col : nat) (rules : list ValidationRule.t)
    (rule : ValidationRule.t) :
  ValidationRule.columnIndex rule = col ->
  List.find (fun q => Nat.eqb (ValidationRule.columnIndex q) col)
            (otherValidations col rules ++ [rule]) = Some rule.
Proof.
  intros Hcol. unfold otherValidations.
  induction rules as [|q rules IH]; simpl.
  - now rewrite Hcol, Nat.eqb_refl.
  - destruct (Nat.eqb (ValidationRule.columnIndex q) col) eqn:E; simpl; [exact IH|].
    now rewrite E.
Qed.

Lemma find_otherValidations_old (col c : nat) (rules : list ValidationRule.t)
    (rule : ValidationRule.t) :
  ValidationRule.columnIndex rule = col -> c <> col ->
  List.find (fun q => Nat.eqb (ValidationRule.columnIndex q) c)
            (otherValidations col rules ++ [rule])
  = List.find (fun q => Nat.eqb (ValidationRule.columnIndex q) c) rules.
Proof.
  intros Hcol Hc. unfold otherValidations.
  induction rules as [|q rules IH]; simpl.
  - rewrite Hcol. now rewrite (proj2 (Nat.eqb_neq col c)) by congruence.
  - destruct (Nat.eqb_spec (ValidationRule.columnIndex q) col) as [E|E]; simpl.
    + rewrite E. now rewrite (proj2 (Nat.eqb_neq col c)) by congruence.
    + destruct (Nat.eqb (ValidationRule.columnIndex q) c); [reflexivity | exact IH].
Qed.

Lemma one_rule_on_column (col : nat) (rules : list ValidationRule.t)
    (rule : ValidationRule.t) :
  ValidationRule.columnIndex rule = col ->
  List.filter (fun q => Nat.eqb (ValidationRule.columnIndex q) col)
              (otherValidations col rules ++ [rule]) = [rule].
Proof.
  intros Hcol. unfold otherValidations. rewrite List.filter_app. simpl.
  rewrite Hcol, Nat.eqb_refl.
  replace (List.filter _ (List.filter _ rules)) with (@nil ValidationRule.t); [reflexivity|].
  induction rules as [|q rules IH]; simpl; [reflexivity|].
  destruct (Nat.eqb (ValidationRule.columnIndex q) col) eqn:E; simpl; [exact IH|].
  now rewrite E.
Qed.

(** What [updateCell] does on a column whose rule rejects the value. *)
Lemma updateCell_refused (host : Host) (st : AppState) (sheet : Sheet.t) (r c : nat)
    (v : value) (rule : ValidationRule.t) :
  activeSheet st = Some sheet ->
  canEdit st = true ->
  validationRuleFor sheet c = Some rule ->
  Check.valid (validateValue v rule) = false ->
  updateCell st r c v = Refused (refusal v rule).
Proof.
  intros Hact Hedit Hrule Hbad. unfold updateCell.
  rewrite Hact, Hedit, Hrule, Hbad. reflexivity.
Qed.

(** What [updateCell] does on a column whose rule accepts the value. *)
Lemma updateCell_accepted (host : Host) (st : AppState) (sheet : Sheet.t) (r c : nat)
    (v : value) (rule : ValidationRule.t) :
  activeSheet st = Some sheet ->
  canEdit st = true ->
  validationRuleFor sheet c = Some rule ->
  Check.valid (validateValue v rule) = true ->
  updateCell st r c v
  = match writeData (Sheet.data sheet) r c v with
    | TypeError => Thrown
    | Ok newData =>
        Written (setSheets (replaceSheet (Sheet.id sheet) (withData sheet newData)
                                         (sheets st)) st)
    end.
Proof.
  intros Hact Hedit Hrule Hok. unfold updateCell.
  rewrite Hact, Hedit, Hrule, Hok. reflexivity.
Qed.

(** [handleAddValidation] puts the rule of the dialog in force on its
    column: it is the only rule of that column afterwards, the rules of
    the other columns stay, and [updateCell] refuses on that column what
    the new rule rejects.  A header whose index is negative, such as the
    empty one, is refused with a message and nothing is stored. *)
Theorem handleAddValidation_puts_rule_in_force :
  forall (host : Host) (newId : string) (nv : NewValidation.t) (st : AppState)
         (sheet : Sheet.t),
    activeSheet st = Some sheet ->
    canEdit st = true ->
    shortHeader (NewValidation.colHeader nv) ->
    let colIndex := getColIndex (NewValidation.colHeader nv) in
    let out := handleAddValidation newId nv st in
    (colIndex < 0 -> out = alerting msgBadColumn st)
    /\ (0 <= colIndex ->
        let col := Z.to_nat colIndex in
        let rule := validationOf newId col nv in
        alerts out = []
        /\ exists sheet' : Sheet.t,
             activeSheet (after out) = Some sheet'
             /\ Sheet.data sheet' = Sheet.data sheet
             /\ Sheet.conditionalFormats sheet' = Sheet.conditionalFormats sheet
             /\ validationRuleFor sheet' col = Some rule
             /\ List.filter (fun q => Nat.eqb (ValidationRule.columnIndex q) col)
                            (orEmpty (Sheet.validationRules sheet')) = [rule]
             /\ (forall c, c <> col -> validationRuleFor sheet' c = validationRuleFor sheet c)
             /\ (forall (r : nat) (v : value),
                   Check.valid (validateValue v rule) = false ->
                   updateCell (after out) r col v = Refused (refusal v rule))).
Proof.
  intros host newId nv st sheet Hact Hedit _ colIndex out. subst out.
  unfold handleAddValidation. rewrite Hact, Hedit.
  change (negb true) with false. cbv iota. fold colIndex. split.
  - intros Hneg. now rewrite (proj2 (Z.ltb_lt _ _) Hneg).
  - intros Hpos. rewrite (proj2 (Z.ltb_ge _ _) Hpos).
    cbn [alerts after done].
    set (col := Z.to_nat colIndex). set (rule := validationOf newId col nv).
    split; [reflexivity|].
    set (rules := orEmpty (Sheet.validationRules sheet)).
    set (st' := storeActive _ _ _ st).
    pose proof (activeSheet_storeActive st sheet (Sheet.data sheet)
                  (Sheet.conditionalFormats sheet)
                  (Some (otherValidations col rules ++ [rule])) Hact) as Hact'.
    fold st' in Hact'.
    assert (Hrule : validationRuleFor
                      (stored sheet (Sheet.data sheet) (Sheet.conditionalFormats sheet)
                         (Some (otherValidations col rules ++ [rule]))) col = Some rule).
    { unfold validationRuleFor, stored. cbn [Sheet.validationRules].
      now apply find_otherValidations_new. }
    eexists. split; [exact Hact'|].
    split; [reflexivity|]. split; [reflexivity|]. split; [exact Hrule|].
    split; [now apply one_rule_on_column|]. split.
    + intros c Hc. unfold validationRuleFor, stored. cbn [Sheet.validationRules].
      rewrite (find_otherValidations_old col c rules rule Logic.eq_refl Hc).
      unfold rules. now destruct (Sheet.validationRules sheet).
    + intros r v Hbad.
      apply (updateCell_refused host st' _ r col v rule Hact'); [|exact Hrule|exact Hbad].
      unfold st'. now rewrite (canEdit_storeActive st sheet _ _ _ Hact).
Qed.

Lemma handleAddValidation_puts_rule_in_force_witness :
  updateCell (H := lenientHost)
    (after (handleAddValidation "v1" sampleValidation (gradeSession [anaRow])))
    1 (Z.to_nat (getColIndex "b")) (VStr "abc")
  = Refused (refusal (H := lenientHost) (VStr "abc")
               (validationOf "v1" (Z.to_nat (getColIndex "b")) sampleValidation))
  /\ refusal (H := lenientHost) (VStr "abc")
       (validationOf "v1" (Z.to_nat (getColIndex "b")) sampleValidation) = msgNotNumber.
Proof.
  split; [|vm_compute; reflexivity].
  assert (Hshort : shortHeader (NewValidation.colHeader sampleValidation))
    by (vm_compute; repeat constructor).
  destruct (handleAddValidation_puts_rule_in_force lenientHost "v1" sampleValidation
              (gradeSession [anaRow]) (gradeBook [anaRow])
              Logic.eq_refl Logic.eq_refl Hshort) as [_ T].
  destruct (T ltac:(vm_compute; discriminate)) as (_ & sheet' & _ & _ & _ & _ & _ & _ & Hupd).
  apply (Hupd 1%nat (VStr "abc")). vm_compute. reflexivity.
Defined.

Lemma firstMatch_app (v : CellValue) (l1 l2 : list ConditionalRule.t) :
  firstMatch v (l1 ++ l2)
  = match firstMatch v l1 with
    | Some style => Some style
    | None => firstMatch v l2
    end.
Proof.
  induction l1 as [|q l1 IH]; simpl; [reflexivity|].
  destruct (ruleMatches v q); [reflexivity | exact IH].
Qed.

(** The style of a cell once a rule is appended to the rules of a sheet. *)
Lemma getCellStyle_snoc (rules : list ConditionalRule.t) (rule : ConditionalRule.t)
    (rowIndex colIndex : nat) (v : CellValue) :
  getCellStyle (rules ++ [rule]) rowIndex colIndex v
  = match getCellStyle rules rowIndex colIndex v with
    | Some style => Some style
    | None =>
        if negb (Nat.eqb rowIndex 0) && onColumn colIndex rule && ruleMatches v rule
        then Some (styleOf rule) else None
    end.
Proof.
  unfold getCellStyle. destruct (Nat.eqb rowIndex 0); [reflexivity|]. cbn [negb andb].
  rewrite List.filter_app. cbn [List.filter].
  destruct (onColumn colIndex rule); cbn [andb].
  - transitivity (firstMatch v (List.filter (onColumn colIndex) rules ++ [rule])).
    { now destruct (List.filter (onColumn colIndex) rules ++ [rule]). }
    rewrite firstMatch_app. cbn [firstMatch].
    destruct (List.filter (onColumn colIndex) rules) as [|q l] eqn:E; [reflexivity|].
    destruct (firstMatch v (q :: l)); reflexivity.
  - rewrite app_nil_r.
    destruct (List.filter (onColumn colIndex) rules) as [|q l]; [reflexivity|].
    now destruct (firstMatch v (q :: l)).
Qed.

(** [handleAddRule] appends the rule of the dialog to the formats of the
    active sheet.  The rules the sheet had keep their precedence: a cell
    they style keeps its style, and the new rule styles the cells of its
    column that it matches and no older rule styles.  A header whose
    index is negative is refused with a message. *)
Theorem handleAddRule_keeps_older_styles :
  forall (newId : string) (newRule : NewRule.t) (st : AppState) (sheet : Sheet.t),
    activeSheet st = Some sheet ->
    canEdit st = true ->
    shortHeader (NewRule.colHeader newRule) ->
    (NewRule.styleIndex newRule < length PRESET_STYLES)%nat ->
    let colIndex := getColIndex (NewRule.colHeader newRule) in
    let out := handleAddRule newId newRule st in
    (colIndex < 0 -> out = alerting msgBadColumn st)
    /\ (0 <= colIndex ->
        let rule := dialogRule newId (Z.to_nat colIndex) (NewRule.condition newRule)
                      (NewRule.value newRule) (NewRule.styleIndex newRule) in
        alerts out = []
        /\ exists sheet' : Sheet.t,
             activeSheet (after out) = Some sheet'
             /\ Sheet.data sheet' = Sheet.data sheet
             /\ Sheet.validationRules sheet' = Sheet.validationRules sheet
             /\ Sheet.conditionalFormats sheet'
                = Some (orEmpty (Sheet.conditionalFormats sheet) ++ [rule])
             /\ forall (rowIndex col : nat) (v : CellValue),
                  getCellStyle (orEmpty (Sheet.conditionalFormats sheet')) rowIndex col v
                  = match getCellStyle (orEmpty (Sheet.conditionalFormats sheet))
                            rowIndex col v with
                    | Some style => Some style
                    | None =>
                        if negb (Nat.eqb rowIndex 0) && Nat.eqb (Z.to_nat colIndex) col
                           && ruleMatches v rule
                        then Some (styleOf rule) else None
                    end).
Proof.
  intros newId newRule st sheet Hact Hedit _ _ colIndex out. subst out.
  unfold handleAddRule. rewrite Hact, Hedit.
  change (negb true) with false. cbv iota. fold colIndex. split.
  - intros Hneg. now rewrite (proj2 (Z.ltb_lt _ _) Hneg).
  - intros Hpos. rewrite (proj2 (Z.ltb_ge _ _) Hpos).
    cbn [alerts after done].
    set (rule := dialogRule _ _ _ _ _).
    split; [reflexivity|].
    eexists. split; [exact (activeSheet_storeActive st sheet _ _ _ Hact)|].
    split; [reflexivity|]. split; [reflexivity|]. split; [reflexivity|].
    intros rowIndex col v. unfold stored. cbn [Sheet.conditionalFormats orEmpty].
    apply getCellStyle_snoc.
Qed.

Lemma handleAddRule_keeps_older_styles_witness :
  exists sheet' : Sheet.t,
    activeSheet (after (handleAddRule "f1" sampleFormat (gradeSession [anaRow]))) = Some sheet'
    /\ getCellStyle (orEmpty (Sheet.conditionalFormats sheet')) 1 3 (VStr "9,5")
       = Some (styleOf (dialogRule "f1" 3 ConditionType.gte "9" 3)).
Proof.
  assert (Hshort : shortHeader (NewRule.colHeader sampleFormat))
    by (vm_compute; repeat constructor).
  assert (Hstyle : (NewRule.styleIndex sampleFormat < length PRESET_STYLES)%nat)
    by (vm_compute; repeat constructor).
  destruct (handleAddRule_keeps_older_styles "f1" sampleFormat
              (gradeSession [anaRow]) (gradeBook [anaRow])
              Logic.eq_refl Logic.eq_refl Hshort Hstyle) as [_ T].
  destruct (T ltac:(vm_compute; discriminate)) as (_ & sheet' & Hact' & _ & _ & _ & Hstyle').
  exists sheet'. split; [exact Hact'|].
  rewrite Hstyle'. vm_compute. reflexivity.
Defined.

(** A list rule judges a value that is not empty by its trimmed text. *)
Lemma validateValue_list (host : Host) (v : value) (rule : ValidationRule.t)
    (options : list string) :
  ValidationRule.type rule = ValidationType.list ->
  ValidationRule.options rule = Some options ->
  isEmptyInput v = false ->
  validateValue v rule
  = if existsb (strEq (trim (ToString v))) options then accepted else rejected msgNotInList.
Proof.
  intros Hty Hopt Hne. unfold validateValue. rewrite Hne.
  unfold numberBlock, dateBlock, listBlock, emailBlock. rewrite Hty, Hopt.
  now destruct (existsb _ options).
Qed.

Lemma existsb_strEq (x : string) (l : list string) : existsb (strEq x) l = true <-> In x l.
Proof.
  rewrite existsb_exists. split.
  - intros (y & Hy & E). apply String.eqb_eq in E. now subst.
  - intros Hx. exists x. split; [exact Hx | apply String.eqb_refl].
Qed.

(** Once [handleSetupClassValidation] has run to its end, a write into the
    chosen column is refused, with the message of the class rule, exactly
    when the value is not empty and its trimmed text is none of the
    classes typed: the parts of the answer between commas, trimmed, the
    empty ones left out. *)
Theorem handleSetupClassValidation_restricts_column :
  forall (host : Host) (name classes newId : string) (st : AppState) (sheet : Sheet.t)
         (headerRow : Row) (rest : SheetData) (columnIndex : nat),
    activeSheet st = Some sheet ->
    canEdit st = true ->
    Sheet.data sheet = Some headerRow :: rest ->
    name <> EmptyString ->
    classes <> EmptyString ->
    findIndex (isColumnNamed name) headerRow = Ok (Some columnIndex) ->
    let out := handleSetupClassValidation (Some name) (Some classes) newId st in
    alerts out = [msgSetupDone (ToString (cell headerRow columnIndex))]
    /\ forall (r : nat) (v : value),
         (updateCell (after out) r columnIndex v = Refused msgClassError
          <-> isEmptyInput v = false /\ ~ In (trim (ToString v)) (parseOptions classes))
         /\ (forall alert, updateCell (after out) r columnIndex v = Refused alert ->
                           alert = msgClassError).
Proof.
  intros host name classes newId st sheet headerRow rest columnIndex
         Hact Hedit Hdata Hname Hclasses Hfind out. subst out.
  unfold handleSetupClassValidation. rewrite Hact, Hdata.
  assert (Hrow : headerRow <> []).
  { intros ->. discriminate Hfind. }
  destruct headerRow as [|h0 hs] eqn:Eh; [congruence|]. rewrite <- Eh in *.
  unfold nonEmpty. rewrite (isSet_Some name Hname), (isSet_Some classes Hclasses).
  cbn [negb bound]. rewrite Hfind. cbn [alerts after alerting].
  split; [reflexivity|].
  set (rule := classRule newId columnIndex (parseOptions classes)).
  set (vr := Some (otherValidations columnIndex (orEmpty (Sheet.validationRules sheet))
                   ++ [rule])).
  set (st' := storeActive _ _ vr st).
  pose proof (activeSheet_storeActive st sheet (Some headerRow :: rest)
                (Sheet.conditionalFormats sheet) vr Hact) as Hact'.
  fold st' in Hact'.
  assert (Hedit' : canEdit st' = true).
  { unfold st'. now rewrite (canEdit_storeActive st sheet _ _ _ Hact). }
  assert (Hrule : validationRuleFor
                    (stored sheet (Some headerRow :: rest) (Sheet.conditionalFormats sheet) vr)
                    columnIndex = Some rule).
  { unfold validationRuleFor, stored, vr. cbn [Sheet.validationRules].
    now apply find_otherValidations_new. }
  assert (Hcases : forall r v,
             (Check.valid (validateValue v rule) = false
              /\ isEmptyInput v = false
              /\ ~ In (trim (ToString v)) (parseOptions classes)
              /\ updateCell st' r columnIndex v = Refused msgClassError)
             \/ (Check.valid (validateValue v rule) = true
                 /\ (isEmptyInput v = false -> In (trim (ToString v)) (parseOptions classes))
                 /\ forall alert, updateCell st' r columnIndex v <> Refused alert)).
  { intros r v. destruct (isEmptyInput v) eqn:Hempty.
    - right. assert (Hok : Check.valid (validateValue v rule) = true).
      { unfold validateValue. now rewrite Hempty. }
      split; [exact Hok|]. split; [discriminate|]. intros alert.
      rewrite (updateCell_accepted host st' _ r columnIndex v rule Hact' Hedit' Hrule Hok).
      now destruct (writeData _ r columnIndex v).
    - rewrite (validateValue_list host v rule (parseOptions classes)
                 Logic.eq_refl Logic.eq_refl Hempty).
      destruct (existsb (strEq (trim (ToString v))) (parseOptions classes)) eqn:Hin.
      + right. split; [reflexivity|]. split; [intros _; now apply existsb_strEq|].
        intros alert.
        assert (Hok : Check.valid (validateValue v rule) = true).
        { rewrite (validateValue_list host v rule (parseOptions classes)
                     Logic.eq_refl Logic.eq_refl Hempty), Hin. reflexivity. }
        rewrite (updateCell_accepted host st' _ r columnIndex v rule Hact' Hedit' Hrule Hok).
        now destruct (writeData _ r columnIndex v).
      + left. split; [reflexivity|]. split; [reflexivity|]. split.
        * intros Hin'. apply existsb_strEq in Hin'. congruence.
        * assert (Hbad : Check.valid (validateValue v rule) = false).
          { rewrite (validateValue_list host v rule (parseOptions classes)
                       Logic.eq_refl Logic.eq_refl Hempty), Hin. reflexivity. }
          rewrite (updateCell_refused host st' _ r columnIndex v rule Hact' Hedit' Hrule Hbad).
          reflexivity. }
  intros r v. destruct (Hcases r v) as [(Hbad & Hne & Hnot & Hupd)|(Hok & Hin & Hupd)].
  - split; [split; [intros _; now split | intros _; exact Hupd]|].
    intros alert. rewrite Hupd. congruence.
  - split; [split|].
    + intros Hup. now apply Hupd in Hup.
    + intros [Hne Hnot]. now apply Hin in Hne.
    + intros alert Hup. now apply Hupd in Hup.
Qed.

Lemma handleSetupClassValidation_restricts_column_witness :
  updateCell (H := lenientHost)
    (after (handleSetupClassValidation (Some "turma") (Some "10A, 10B") "v2" classSession))
    2 1 (VStr "11C")
  = Refused msgClassError.
Proof.
  pose proof (handleSetupClassValidation_restricts_column lenientHost "turma" "10A, 10B" "v2"
                classSession classBook (cells ["Nome"; "Turma"])
                (List.tl (Sheet.data classBook)) 1
                Logic.eq_refl Logic.eq_refl Logic.eq_refl
                ltac:(discriminate) ltac:(discriminate) Logic.eq_refl) as T.
  cbv zeta in T. destruct T as [_ T]. destruct (T 2%nat (VStr "11C")) as [[_ T2] _].
  apply T2. split; [reflexivity|].
  vm_compute. intros [E|[E|[]]]; discriminate E.
Defined.

(* ===================================================================== *)
(** * Access levels                                                       *)
(* ===================================================================== *)

Lemma activeSheet_id (st : AppState) (sheet : Sheet.t) :
  activeSheet st = Some sheet -> activeSheetId st = Some (Sheet.id sheet).
Proof.
  unfold activeSheet, findSheet. intros Hfind.
  pose proof (List.find_some _ _ Hfind) as [_ Hid]. unfold hasId in Hid.
  destruct (activeSheetId st) as [i|]; [|discriminate].
  apply String.eqb_eq in Hid. now subst.
Qed.

Lemma canEdit_view (st : AppState) (sheet : Sheet.t) :
  activeSheet st = Some sheet ->
  hasCodes sheet = true ->
  unlockedSheets st !! Sheet.id sheet = Some view ->
  canEdit st = false.
Proof.
  intros Hact Hcodes Hview. unfold canEdit, currentAccess.
  rewrite Hact, Hcodes, (activeSheet_id st sheet Hact). cbn [negb].
  destruct (strEq (Sheet.id sheet) EmptyString); [reflexivity|]. now rewrite Hview.
Qed.

Lemma canEdit_edit (st : AppState) (sheet : Sheet.t) :
  activeSheet st = Some sheet ->
  Sheet.id sheet <> EmptyString ->
  unlockedSheets st !! Sheet.id sheet = Some edit ->
  canEdit st = true.
Proof.
  intros Hact Hid Hlevel. unfold canEdit, currentAccess.
  rewrite Hact, (activeSheet_id st sheet Hact).
  destruct (negb (hasCodes sheet)); [reflexivity|].
  unfold strEq. rewrite (proj2 (String.eqb_neq _ _) Hid). now rewrite Hlevel.
Qed.

(** Whoever unlocks a sheet with its view code can change nothing on it:
    [updateCell] and the two rule dialogs return without a change, and
    renaming or deleting the sheet from its tab menu is refused with the
    message for viewers. *)
Theorem view_code_grants_no_write :
  forall (host : Host) (now : Js.number) (st : AppState) (sheet : Sheet.t),
    activeSheet st = Some sheet ->
    hasCodes sheet = true ->
    expiredAt now sheet = false ->
    codeIs (toUpperCase (trim (accessCodeInput st))) (Sheet.editCode sheet) = false ->
    codeIs (toUpperCase (trim (accessCodeInput st))) (Sheet.viewCode sheet) = true ->
    let st' := handleUnlockSheet now st in
    unlockedSheets st' !! Sheet.id sheet = Some view
    /\ sheets st' = sheets st
    /\ canEdit st' = false
    /\ (forall (r c : nat) (v : value), updateCell st' r c v = Ignored)
    /\ (forall (newId : string) (newRule : NewRule.t),
          handleAddRule newId newRule st' = done st')
    /\ (forall (newId : string) (nv : NewValidation.t),
          handleAddValidation newId nv st' = done st')
    /\ (findSheet (sheets st) (contextMenu st) = Some sheet ->
        (forall newName, handleRenameSheet newName st' = alerting msgOnlyEditorsRename st')
        /\ (forall confirmed,
              handleDeleteSheet confirmed st'
              = alerting msgOnlyEditorsDelete (setContextMenu None st'))).
Proof.
  intros host now st sheet Hact Hcodes Hexp Hedit Hview st'.
  assert (Est : st' = grant view sheet st).
  { unfold st', handleUnlockSheet. now rewrite Hact, Hexp, Hedit, Hview. }
  assert (Hlevel : unlockedSheets st' !! Sheet.id sheet = Some view).
  { rewrite Est. apply grant_level. }
  assert (Hact' : activeSheet st' = Some sheet) by (rewrite Est; exact Hact).
  assert (Hno : canEdit st' = false) by (apply (canEdit_view st' sheet); assumption).
  split; [exact Hlevel|]. split; [now rewrite Est|]. split; [exact Hno|].
  split; [|split; [|split]].
  - intros r c v. unfold updateCell. now rewrite Hact', Hno.
  - intros newId newRule. unfold handleAddRule. now rewrite Hact', Hno.
  - intros newId nv. unfold handleAddValidation. now rewrite Hact', Hno.
  - intros Hmenu.
    assert (Hmenu' : findSheet (sheets st') (contextMenu st') = Some sheet)
      by (rewrite Est; exact Hmenu).
    assert (Hlacks : lacksEditAccess st' sheet = true).
    { unfold lacksEditAccess. now rewrite Hlevel, Hcodes. }
    destruct (contextMenu st') as [sheetId|] eqn:Em.
    2:{ unfold findSheet in Hmenu'. simpl in Hmenu'.
        exfalso. clear -Hmenu'. induction (sheets st'); simpl in *; congruence. }
    split.
    + intros newName. unfold handleRenameSheet. now rewrite Em, Hmenu', Hlacks.
    + intros confirmed. unfold handleDeleteSheet. now rewrite Em, Hmenu', Hlacks.
Qed.

Lemma view_code_grants_no_write_witness :
  updateCell (H := lenientHost)
    (handleUnlockSheet (ofZ 50)
       (session [sharedSheet "s1" "EDIT01" "VIEW01" 100] ∅ " view01 " None))
    0 0 (VStr "x")
  = Ignored.
Proof.
  pose proof (view_code_grants_no_write lenientHost (ofZ 50)
                (session [sharedSheet "s1" "EDIT01" "VIEW01" 100] ∅ " view01 " None)
                (sharedSheet "s1" "EDIT01" "VIEW01" 100)
                Logic.eq_refl Logic.eq_refl Logic.eq_refl Logic.eq_refl Logic.eq_refl) as T.
  cbv zeta in T. destruct T as (_ & _ & _ & T & _). apply T.
Defined.

Lemma activeSheet_handleCreateAccessCode (now : Js.number) (editCode viewCode : string)
    (value : Js.number) (unit : ExpirationUnit) (st : AppState) (sheet : Sheet.t) :
  activeSheet st = Some sheet ->
  activeSheet (handleCreateAccessCode now editCode viewCode value unit st)
  = Some (withCodes sheet editCode viewCode (numAdd now (numMul value (multiplier unit)))).
Proof.
  intros Hact. unfold handleCreateAccessCode. rewrite Hact. unfold activeSheet in *. simpl.
  now apply (findSheet_replaceSheet (sheets st) (activeSheetId st) sheet).
Qed.

(** The codes [handleCreateAccessCode] issues work as issued.  The creator
    keeps edit access.  Once the sheet is locked again, it cannot be
    edited; until the expiration time has passed, typing the edit code
    gives edit access and the view code (where it differs) view access
    only.  [handleCreateAccessCode] keeps a legacy access code of the
    sheet: a text that is neither of the two codes gives edit access when
    it is that legacy code, and the message for a wrong code and no access
    when it is not. *)
Theorem issued_codes_unlock :
  forall (now later : Js.number) (editCode viewCode typed : string) (value : Js.number)
         (unit : ExpirationUnit) (st : AppState) (sheet : Sheet.t),
    activeSheet st = Some sheet ->
    Sheet.id sheet <> EmptyString ->
    editCode <> EmptyString ->
    numGt later (numAdd now (numMul value (multiplier unit))) = false ->
    let issued := handleCreateAccessCode now editCode viewCode value unit st in
    let locked := handleSimulateLock issued in
    let st' := handleUnlockSheet later (typeCode typed locked) in
    canEdit issued = true
    /\ canEdit locked = false
    /\ (codeRead typed = editCode ->
        unlockedSheets st' !! Sheet.id sheet = Some edit
        /\ canEdit st' = true
        /\ accessCodeInput st' = EmptyString
        /\ accessError st' = None)
    /\ (codeRead typed = viewCode -> viewCode <> editCode ->
        unlockedSheets st' !! Sheet.id sheet = Some view
        /\ canEdit st' = false)
    /\ (codeRead typed <> editCode -> codeRead typed <> viewCode ->
        codeIs (codeRead typed) (Sheet.accessCode sheet) = false ->
        accessError st' = Some msgWrongCode
        /\ unlockedSheets st' !! Sheet.id sheet = None
        /\ canEdit st' = false)
    /\ (codeRead typed <> editCode -> codeRead typed <> viewCode ->
        codeIs (codeRead typed) (Sheet.accessCode sheet) = true ->
        unlockedSheets st' !! Sheet.id sheet = Some edit
        /\ canEdit st' = true).
Proof.
  intros now later editCode viewCode typed value unit st sheet Hact Hid Hcode Hlater
         issued locked st'.
  set (expiresAt := numAdd now (numMul value (multiplier unit))) in *.
  set (upd := withCodes sheet editCode viewCode expiresAt).
  assert (Hissued : activeSheet issued = Some upd)
    by (apply activeSheet_handleCreateAccessCode; exact Hact).
  assert (Hcodes : hasCodes upd = true).
  { unfold hasCodes, upd, withCodes. cbn [Sheet.editCode]. now rewrite (isSet_Some _ Hcode). }
  assert (Elocked : locked = setUnlockedSheets (delete (Sheet.id sheet) (unlockedSheets issued))
                                                issued).
  { unfold locked, handleSimulateLock. now rewrite Hissued. }
  assert (Hlocked : activeSheet locked = Some upd) by (rewrite Elocked; exact Hissued).
  assert (Htyped : activeSheet (typeCode typed locked) = Some upd) by exact Hlocked.
  assert (Hexp : expiredAt later upd = false).
  { unfold expiredAt, upd, withCodes. cbn [Sheet.accessCodeExpiration].
    fold expiresAt. rewrite Hlater. apply andb_false_r. }
  assert (Hnone : unlockedSheets locked !! Sheet.id sheet = None).
  { rewrite Elocked. simpl. apply lookup_delete_eq. }
  assert (Hlockedno : canEdit locked = false).
  { unfold canEdit, currentAccess. rewrite Hlocked, Hcodes.
    rewrite (activeSheet_id locked upd Hlocked). cbn [negb].
    destruct (strEq (Sheet.id upd) EmptyString); [reflexivity|].
    change (Sheet.id upd) with (Sheet.id sheet). now rewrite Hnone. }
  assert (Hinput : toUpperCase (trim (accessCodeInput (typeCode typed locked)))
                   = codeRead typed) by reflexivity.
  split; [|split; [exact Hlockedno|split; [|split; [|split]]]].
  - apply (canEdit_edit issued upd Hissued Hid).
    unfold issued, handleCreateAccessCode. rewrite Hact. simpl. apply lookup_insert_eq.
  - intros Hread.
    assert (Est : st' = grant edit upd (typeCode typed locked)).
    { unfold st', handleUnlockSheet. rewrite Htyped, Hexp, Hinput, Hread.
      unfold codeIs, upd, withCodes, strEq. cbn [Sheet.editCode].
      now rewrite String.eqb_refl. }
    assert (Hlevel : unlockedSheets st' !! Sheet.id sheet = Some edit).
    { rewrite Est. apply (grant_level edit upd). }
    split; [exact Hlevel|]. split; [|split; now rewrite Est].
    apply (canEdit_edit st' upd); [now rewrite Est | exact Hid | exact Hlevel].
  - intros Hread Hdiff.
    assert (Est : st' = grant view upd (typeCode typed locked)).
    { unfold st', handleUnlockSheet. rewrite Htyped, Hexp, Hinput, Hread.
      unfold codeIs, upd, withCodes, strEq. cbn [Sheet.editCode Sheet.viewCode].
      rewrite (proj2 (String.eqb_neq _ _) Hdiff). now rewrite String.eqb_refl. }
    assert (Hlevel : unlockedSheets st' !! Sheet.id sheet = Some view).
    { rewrite Est. apply (grant_level view upd). }
    split; [exact Hlevel|].
    apply (canEdit_view st' upd); [now rewrite Est | exact Hcodes | exact Hlevel].
  - intros Hne Hnv Hlegacy.
    assert (Est : st' = setAccessError (Some msgWrongCode) (typeCode typed locked)).
    { unfold st', handleUnlockSheet. rewrite Htyped, Hexp, Hinput.
      unfold codeIs at 1 2, upd, withCodes, strEq. cbn [Sheet.editCode Sheet.viewCode].
      rewrite (proj2 (String.eqb_neq _ _) Hne), (proj2 (String.eqb_neq _ _) Hnv).
      change (Sheet.accessCode _) with (Sheet.accessCode sheet). now rewrite Hlegacy. }
    split; [now rewrite Est|]. split; [rewrite Est; exact Hnone|].
    rewrite Est. exact Hlockedno.
  - intros Hne Hnv Hlegacy.
    assert (Est : st' = grant edit upd (typeCode typed locked)).
    { unfold st', handleUnlockSheet. rewrite Htyped, Hexp, Hinput.
      unfold codeIs at 1 2, upd, withCodes, strEq. cbn [Sheet.editCode Sheet.viewCode].
      rewrite (proj2 (String.eqb_neq _ _) Hne), (proj2 (String.eqb_neq _ _) Hnv).
      change (Sheet.accessCode _) with (Sheet.accessCode sheet). now rewrite Hlegacy. }
    assert (Hlevel : unlockedSheets st' !! Sheet.id sheet = Some edit).
    { rewrite Est. apply (grant_level edit upd). }
    split; [exact Hlevel|].
    apply (canEdit_edit st' upd); [now rewrite Est | exact Hid | exact Hlevel].
Qed.

Lemma issued_codes_unlock_witness :
  canEdit
    (handleUnlockSheet (ofZ 2000)
       (typeCode " k3x9qz"
          (handleSimulateLock
             (handleCreateAccessCode (ofZ 1000) "K3X9QZ" "7PLM2A" (ofZ 24) hours
                (gradeSession [anaRow])))))
  = true.
Proof.
  pose proof (issued_codes_unlock (ofZ 1000) (ofZ 2000) "K3X9QZ" "7PLM2A" " k3x9qz" (ofZ 24)
                hours (gradeSession [anaRow]) (gradeBook [anaRow])
                Logic.eq_refl ltac:(discriminate) ltac:(discriminate)
                ltac:(vm_compute; reflexivity)) as T.
  cbv zeta in T. destruct T as (_ & _ & T & _).
  apply T. vm_compute. reflexivity.
Defined.

(** [handleRemoveAccessCode] opens the sheet: it has no code afterwards,
    its data and rules are kept, and it can be edited whatever the access
    level was, a viewer's included. *)
Theorem handleRemoveAccessCode_opens_sheet :
  forall (host : Host) (st : AppState) (sheet : Sheet.t),
    activeSheet st = Some sheet ->
    let st' := handleRemoveAccessCode st in
    canEdit st' = true
    /\ unlockedSheets st' = unlockedSheets st
    /\ (exists sheet' : Sheet.t,
          activeSheet st' = Some sheet'
          /\ hasCodes sheet' = false
          /\ Sheet.accessCode sheet' = None
          /\ Sheet.accessCodeExpiration sheet' = None
          /\ Sheet.isShared sheet' = Some false
          /\ Sheet.id sheet' = Sheet.id sheet
          /\ Sheet.name sheet' = Sheet.name sheet
          /\ Sheet.data sheet' = Sheet.data sheet
          /\ Sheet.conditionalFormats sheet' = Sheet.conditionalFormats sheet
          /\ Sheet.validationRules sheet' = Sheet.validationRules sheet)
    /\ (forall (now : Js.number), accessError (handleUnlockSheet now st') <> Some msgExpired)
    /\ (forall (r c : nat) (v : value), updateCell st' r c v <> Ignored).
Proof.
  intros host st sheet Hact st'.
  set (upd := {| Sheet.id := Sheet.id sheet; Sheet.name := Sheet.name sheet;
                 Sheet.data := Sheet.data sheet;
                 Sheet.conditionalFormats := Sheet.conditionalFormats sheet;
                 Sheet.validationRules := Sheet.validationRules sheet;
                 Sheet.editCode := None; Sheet.viewCode := None; Sheet.accessCode := None;
                 Sheet.accessCodeExpiration := None; Sheet.isShared := Some false |}).
  assert (Est : st' = setSheets (replaceSheet (Sheet.id sheet) upd (sheets st)) st).
  { unfold st', handleRemoveAccessCode. now rewrite Hact. }
  assert (Hact' : activeSheet st' = Some upd).
  { rewrite Est. unfold activeSheet in *. simpl.
    now apply (findSheet_replaceSheet (sheets st) (activeSheetId st) sheet). }
  assert (Hedit : canEdit st' = true).
  { unfold canEdit. now rewrite Hact'. }
  split; [exact Hedit|]. split; [now rewrite Est|]. split; [|split].
  - exists upd. repeat split; exact Hact'.
  - intros now. unfold handleUnlockSheet. rewrite Hact'.
    change (expiredAt now upd) with false. cbv iota.
    unfold codeIs. cbn [Sheet.editCode Sheet.viewCode Sheet.accessCode upd].
    intros E. apply (f_equal (option_map String.length)) in E.
    vm_compute in E. discriminate E.
  - intros r c v. unfold updateCell. rewrite Hact', Hedit. cbn [negb].
    destruct (match validationRuleFor upd c with Some _ => _ | None => _ end);
      [discriminate|].
    destruct (writeData (Sheet.data upd) r c v); discriminate.
Qed.

Lemma handleRemoveAccessCode_opens_sheet_witness :
  canEdit (handleRemoveAccessCode
             (session [sharedSheet "s1" "EDIT01" "VIEW01" 100] {[ "s1" := view ]} "" None))
  = true.
Proof.
  pose proof (handleRemoveAccessCode_opens_sheet lenientHost
                (session [sharedSheet "s1" "EDIT01" "VIEW01" 100] {[ "s1" := view ]} "" None)
                (sharedSheet "s1" "EDIT01" "VIEW01" 100) Logic.eq_refl) as T.
  cbv zeta in T. apply T.
Defined.

(* ===================================================================== *)
(** * Loading the saved sheets                                            *)
(* ===================================================================== *)

Lemma In_loadSheets (parsed : list (option Sheet.t)) (s' : Sheet.t) :
  In s' (loadSheets parsed) <-> exists s, In (Some s) parsed /\ s' = migrate s.
Proof.
  unfold loadSheets. rewrite in_map_iff. split.
  - intros (s & <- & Hs). apply in_flat_map in Hs as ([x|] & Hx & Hin); simpl in Hin;
      [|contradiction]. destruct Hin as [->|[]]. now exists s.
  - intros (s & Hs & ->). exists s. split; [reflexivity|].
    apply in_flat_map. exists (Some s). split; [exact Hs | now left].
Qed.

(** Every sheet that comes out of the loader with a legacy access code is
    locked.  Where the saved sheet had no edit code, the legacy code has
    become its edit code, the other fields are as saved, and the code
    typed in capitals gives edit access. *)
Theorem loadSheets_locks_legacy_sheets :
  forall (parsed : list (option Sheet.t)) (s' : Sheet.t),
    In s' (loadSheets parsed) ->
    isSet (Sheet.accessCode s') = true ->
    hasCodes s' = true
    /\ exists s : Sheet.t,
         In (Some s) parsed
         /\ Sheet.id s' = Sheet.id s /\ Sheet.name s' = Sheet.name s
         /\ Sheet.data s' = Sheet.data s /\ Sheet.viewCode s' = Sheet.viewCode s
         /\ Sheet.accessCode s' = Sheet.accessCode s
         /\ (isSet (Sheet.editCode s) = true -> s' = s)
         /\ (isSet (Sheet.editCode s) = false ->
             Sheet.editCode s' = Sheet.accessCode s
             /\ forall (now : Js.number) (st : AppState),
                  activeSheet st = Some s' ->
                  expiredAt now s' = false ->
                  codeIs (toUpperCase (trim (accessCodeInput st))) (Sheet.accessCode s) = true ->
                  unlockedSheets (handleUnlockSheet now st) !! Sheet.id s' = Some edit).
Proof.
  intros parsed s' Hin Hlegacy.
  apply In_loadSheets in Hin as (s & Hs & ->).
  assert (Hacc : Sheet.accessCode (migrate s) = Sheet.accessCode s).
  { unfold migrate. now destruct (_ && _). }
  rewrite Hacc in Hlegacy.
  destruct (isSet (Sheet.editCode s)) eqn:Hedit.
  - assert (E : migrate s = s).
    { unfold migrate. now rewrite Hlegacy, Hedit. }
    rewrite E. split; [unfold hasCodes; now rewrite Hedit|].
    exists s. repeat split; try assumption; try reflexivity; congruence.
  - assert (E : Sheet.editCode (migrate s) = Sheet.accessCode s).
    { unfold migrate. now rewrite Hlegacy, Hedit. }
    split; [unfold hasCodes; now rewrite E, Hlegacy|].
    exists s. unfold migrate at 1 2 3 4 5. rewrite Hlegacy, Hedit. cbn [negb andb].
    repeat split; try assumption; try reflexivity; try discriminate.
    intros now st Hact Hexp Hcode.
    unfold handleUnlockSheet. rewrite Hact, Hexp, E, Hcode. apply grant_level.
Qed.

Lemma loadSheets_locks_legacy_sheets_witness :
  loadSheets [None; Some legacySheet] = [migrate legacySheet]
  /\ hasCodes legacySheet = false
  /\ hasCodes (migrate legacySheet) = true.
Proof.
  split; [reflexivity|]. split; [reflexivity|].
  apply (loadSheets_locks_legacy_sheets [None; Some legacySheet] (migrate legacySheet)).
  - simpl. now left.
  - reflexivity.
Defined.

(* ===================================================================== *)
(** * Reordering the tabs                                                 *)
(* ===================================================================== *)

Lemma length_removeAt {A} (l : list A) (cur : nat) :
  (cur < length l)%nat -> length (removeAt cur l) = (length l - 1)%nat.
Proof.
  intros Hcur. unfold removeAt.
  rewrite List.length_app, List.length_firstn, List.length_skipn. lia.
Qed.

(** A tab dragged over another position moves there: the collection keeps
    the same sheets, the others keep their order, the dragged sheet takes
    the position (the last one when the position lies past the end), and
    the active sheet is not changed. *)
Theorem handleDragOver_moves_tab :
  forall (index cur : nat) (st : AppState) (dragged : Sheet.t),
    dragItem st = Some cur ->
    nth_error (sheets st) cur = Some dragged ->
    cur <> index ->
    let st' := handleDragOver index st in
    let position := Nat.min index (length (sheets st) - 1) in
    Permutation (sheets st') (sheets st)
    /\ nth_error (sheets st') position = Some dragged
    /\ removeAt position (sheets st') = removeAt cur (sheets st)
    /\ dragItem st' = Some index
    /\ activeSheetId st' = activeSheetId st
    /\ unlockedSheets st' = unlockedSheets st.
Proof.
  intros index cur st dragged Hdrag Hnth Hne st' position.
  assert (Hcur : (cur < length (sheets st))%nat).
  { apply nth_error_Some. congruence. }
  assert (Est : sheets st' = insertAt index dragged (removeAt cur (sheets st))
                /\ dragItem st' = Some index /\ activeSheetId st' = activeSheetId st
                /\ unlockedSheets st' = unlockedSheets st).
  { unfold st', handleDragOver. rewrite Hdrag, Hnth.
    rewrite (proj2 (Nat.eqb_neq cur index) Hne). repeat split. }
  destruct Est as (Esheets & Edrag & Eactive & Eunlocked).
  pose proof (length_removeAt (sheets st) cur Hcur) as Hlen.
  set (others := removeAt cur (sheets st)) in *.
  assert (Hfirst : length (firstn index others) = position).
  { rewrite List.length_firstn, Hlen. reflexivity. }
  split; [|split; [|split; [|repeat split; assumption]]].
  - rewrite Esheets. now apply removeAt_insertAt_perm.
  - rewrite Esheets. unfold insertAt.
    rewrite nth_error_app2 by lia. rewrite Hfirst, Nat.sub_diag. reflexivity.
  - rewrite Esheets. unfold insertAt, removeAt at 1.
    rewrite <- Hfirst.
    rewrite List.firstn_app, Nat.sub_diag, List.firstn_all. simpl. rewrite app_nil_r.
    rewrite List.skipn_app, List.skipn_all2 by lia.
    replace (S (length (firstn index others)) - length (firstn index others))%nat
      with 1%nat by lia.
    simpl. rewrite List.skipn_O. apply List.firstn_skipn.
Qed.

Lemma handleDragOver_moves_tab_witness :
  ids (sheets (handleDragOver 2
                 (setDragItem (Some 0%nat)
                    (session [plainSheet "a" "A" []; plainSheet "b" "B" [];
                              plainSheet "c" "C" []] ∅ "" None))))
  = ["b"; "c"; "a"]
  /\ nth_error
       (sheets (handleDragOver 2
                  (setDragItem (Some 0%nat)
                     (session [plainSheet "a" "A" []; plainSheet "b" "B" [];
                               plainSheet "c" "C" []] ∅ "" None))))
       (Nat.min 2 (3 - 1))
     = Some (plainSheet "a" "A" []).
Proof.
  split; [vm_compute; reflexivity|].
  apply (handleDragOver_moves_tab 2 0
           (setDragItem (Some 0%nat)
              (session [plainSheet "a" "A" []; plainSheet "b" "B" [];
                        plainSheet "c" "C" []] ∅ "" None))
           (plainSheet "a" "A" []) Logic.eq_refl Logic.eq_refl).
  discriminate.
Defined.

(* ===================================================================== *)
(** * Identifiers                                                         *)
(* ===================================================================== *)

Lemma isHex_hexDigit (v : Z) : 0 <= v < 16 -> isHex (hexDigit v) = true.
Proof.
  intros Hv. unfold isHex, hexDigit, inRange, code.
  destruct (Z.ltb_spec v 10) as [Hlt|Hge]; rewrite N_ascii_embedding by lia.
  - apply orb_true_intro. left. apply andb_true_intro. split; apply N.leb_le; lia.
  - apply orb_true_intro. right. apply andb_true_intro. split; apply N.leb_le; lia.
Qed.

Lemma isHex_fill (random : nat -> Z) (template : string) :
  (forall k, 0 <= random k < 16) ->
  allChars (Ascii.eqb "x") template = true ->
  forall k, allChars isHex (fillTemplate random k template) = true.
Proof.
  intros Hrandom. induction template as [|ch rest IH]; [reflexivity|].
  intros Hall k. cbn [allChars] in Hall. apply andb_prop in Hall as [Hch Hrest].
  apply Ascii.eqb_eq in Hch. subst ch.
  change (fillTemplate random k (String "x" rest))
    with (String (hexDigit (random k)) (fillTemplate random (S k) rest)).
  cbn [allChars]. rewrite (IH Hrest), isHex_hexDigit by apply Hrandom. reflexivity.
Qed.

Lemma variant_digit (r : Z) :
  0 <= r < 16 ->
  let y := uuidChar "y" r in
  (y = "8" \/ y = "9" \/ y = "a" \/ y = "b")%char.
Proof.
  intros Hr.
  assert (Hcases : r = 0 \/ r = 1 \/ r = 2 \/ r = 3 \/ r = 4 \/ r = 5 \/ r = 6 \/ r = 7
                   \/ r = 8 \/ r = 9 \/ r = 10 \/ r = 11 \/ r = 12 \/ r = 13 \/ r = 14
                   \/ r = 15) by lia.
  repeat (destruct Hcases as [->|Hcases]; [vm_compute; tauto|]).
  subst r. vm_compute. tauto.
Qed.

(** Without [crypto.randomUUID], [generateUUID] returns 36 characters in
    the layout of a version 4 identifier: groups of 8, 4, 4, 4 and 12
    hexadecimal digits in small letters between hyphens, the third group
    starting with 4 and the fourth with 8, 9, a or b. *)
Theorem generateUUID_layout :
  forall random : nat -> Z,
    (forall k, 0 <= random k < 16) ->
    exists (a b c d e : string) (y : ascii),
      generateUUID None random
      = a +:+ "-" +:+ b +:+ "-4" +:+ c +:+ "-" +:+ String y d +:+ "-" +:+ e
      /\ String.length a = 8%nat /\ String.length b = 4%nat /\ String.length c = 3%nat
      /\ String.length d = 3%nat /\ String.length e = 12%nat
      /\ allChars isHex (a +:+ b +:+ c +:+ d +:+ e) = true
      /\ (y = "8" \/ y = "9" \/ y = "a" \/ y = "b")%char.
Proof.
  intros random Hrandom.
  exists (fillTemplate random 0 "xxxxxxxx"), (fillTemplate random 8 "xxxx"),
         (fillTemplate random 12 "xxx"), (fillTemplate random 16 "xxx"),
         (fillTemplate random 19 "xxxxxxxxxxxx"), (uuidChar "y" (random 15%nat)).
  split; [reflexivity|]. repeat (split; [reflexivity|]). split.
  - rewrite !allChars_app. rewrite !isHex_fill by (assumption || reflexivity). reflexivity.
  - apply variant_digit, Hrandom.
Qed.

Lemma generateUUID_layout_witness :
  generateUUID None countingRandom = "01234567-89ab-4cde-b012-3456789abcde"
  /\ exists (a b c d e : string) (y : ascii),
       generateUUID None countingRandom
       = a +:+ "-" +:+ b +:+ "-4" +:+ c +:+ "-" +:+ String y d +:+ "-" +:+ e
       /\ String.length a = 8%nat /\ String.length b = 4%nat /\ String.length c = 3%nat
       /\ String.length d = 3%nat /\ String.length e = 12%nat
       /\ allChars isHex (a +:+ b +:+ c +:+ d +:+ e) = true
       /\ (y = "8" \/ y = "9" \/ y = "a" \/ y = "b")%char.
Proof.
  split; [vm_compute; reflexivity|].
  apply (generateUUID_layout countingRandom).
  intros k. unfold countingRandom. apply Z.mod_pos_bound. lia.
Defined.

(* ===================================================================== *)
(** * Names of the exported sheets                                        *)
(* ===================================================================== *)

Lemma append_inv_tail (u s t : string) : s +:+ u = t +:+ u -> s = t.
Proof.
  revert t. induction s as [|ch s IH]; intros [|ch' t] E.
  - reflexivity.
  - apply (f_equal String.length) in E. rewrite !length_append in E. simpl in E. lia.
  - apply (f_equal String.length) in E. rewrite !length_append in E. simpl in E. lia.
  - rewrite !append_cons in E. injection E as -> E. f_equal. now apply IH.
Qed.

Lemma append_inv_head (u s t : string) : u +:+ s = u +:+ t -> s = t.
Proof.
  induction u as [|ch u IH]; [trivial|]. rewrite !append_cons. intros [= E]. now apply IH.
Qed.

Lemma decimal_inj (k k' : N) : decimal k = decimal k' -> k = k'.
Proof.
  unfold decimal. intros E. apply DecimalN.Unsigned.to_uint_inj.
  apply (f_equal NilEmpty.uint_of_string) in E. rewrite !NilEmpty.usu in E. congruence.
Qed.

Lemma numbered_inj (base : string) (k k' : N) : numbered base k = numbered base k' -> k = k'.
Proof.
  unfold numbered. intros E.
  apply append_inv_head in E. apply append_inv_head in E.
  apply append_inv_tail in E. now apply decimal_inj.
Qed.

Lemma allChars_takeChars (p : ascii -> bool) (n : nat) (s : string) :
  allChars p s = true -> allChars p (takeChars n s) = true.
Proof.
  revert s. induction n as [|n IH]; intros [|ch s]; simpl; try reflexivity.
  intros [Hc Hs]%andb_prop. now rewrite Hc, IH.
Qed.

Lemma allChars_trimStart (p : ascii -> bool) (s : string) :
  allChars p s = true -> allChars p (trimStart s) = true.
Proof.
  induction s as [|ch s IH]; simpl; [reflexivity|].
  intros H. destruct (isWhiteSpace ch); [|exact H].
  apply andb_prop in H as [_ Hs]. now apply IH.
Qed.

Lemma allChars_trimEnd (p : ascii -> bool) (s : string) :
  allChars p s = true -> allChars p (trimEnd s) = true.
Proof.
  induction s as [|ch s IH]; simpl; [reflexivity|].
  intros [Hc Hs]%andb_prop. specialize (IH Hs).
  destruct (trimEnd s) as [|ch' t].
  - destruct (isWhiteSpace ch); simpl; [reflexivity | now rewrite Hc].
  - simpl in *. now rewrite Hc, IH.
Qed.

Lemma allChars_trim (p : ascii -> bool) (s : string) :
  allChars p s = true -> allChars p (trim s) = true.
Proof. intros H. unfold trim. now apply allChars_trimEnd, allChars_trimStart. Qed.

Lemma allowed_blankForbidden (s : string) : allChars isAllowed (blankForbidden s) = true.
Proof.
  induction s as [|ch s IH]; simpl; [reflexivity|]. rewrite IH, andb_true_r.
  unfold isAllowed. destruct (isForbidden ch) eqn:E; [reflexivity | now rewrite E].
Qed.

Lemma length_takeChars (n : nat) (s : string) : (String.length (takeChars n s) <= n)%nat.
Proof.
  revert s. induction n as [|n IH]; intros [|ch s]; simpl; try lia.
  specialize (IH s). lia.
Qed.

Lemma exportBase_clean (name : string) : cleanName (exportBase name).
Proof.
  unfold cleanName, exportBase.
  set (s0 := trim (blankForbidden (if strEq name "" then "Sheet" else name))).
  assert (H0 : allChars isAllowed s0 = true)
    by apply allChars_trim, allowed_blankForbidden.
  set (s1 := if (31 <? String.length s0)%nat then takeChars 31 s0 else s0).
  assert (H1 : allChars isAllowed s1 = true).
  { unfold s1. destruct (31 <? String.length s0)%nat; [now apply allChars_takeChars | exact H0]. }
  unfold strEq. destruct (String.eqb_spec s1 "") as [E|E].
  - split; [discriminate | reflexivity].
  - split; assumption.
Qed.

Lemma exportBase_length (name : string) : (String.length (exportBase name) <= 31)%nat.
Proof.
  unfold exportBase.
  set (s0 := trim (blankForbidden (if strEq name "" then "Sheet" else name))).
  destruct (Nat.ltb_spec 31 (String.length s0)) as [Hlong|Hshort].
  - destruct (strEq (takeChars 31 s0) ""); [simpl; lia | apply length_takeChars].
  - destruct (strEq s0 ""); [simpl; lia | exact Hshort].
Qed.

Lemma allowed_digits (d : Decimal.uint) :
  allChars isAllowed (NilEmpty.string_of_uint d) = true.
Proof. induction d; simpl; try reflexivity; exact IHd. Qed.

Lemma numbered_clean (base : string) (k : N) :
  allChars isAllowed base = true -> cleanName (numbered base k).
Proof.
  intros Hbase. unfold cleanName, numbered. split.
  - destruct (takeChars 27 base); discriminate.
  - rewrite !allChars_app. rewrite (allChars_takeChars _ 27 base Hbase).
    unfold decimal. rewrite allowed_digits. reflexivity.
Qed.

Lemma decimal_two_digits (k : N) : (k < 100)%N -> (String.length (decimal k) <= 2)%nat.
Proof.
  intros Hk.
  assert (Hall : forallb (fun i => (String.length (decimal (N.of_nat i)) <=? 2)%nat)
                         (seq 0 100) = true) by (vm_compute; reflexivity).
  rewrite forallb_forall in Hall.
  specialize (Hall (N.to_nat k)). rewrite N2Nat.id in Hall.
  apply Nat.leb_le, Hall. apply in_seq. lia.
Qed.

Lemma numbered_length (base : string) (k : N) :
  (k < 100)%N -> (String.length (numbered base k) <= 31)%nat.
Proof.
  intros Hk. unfold numbered. rewrite !length_append.
  pose proof (length_takeChars 27 base). pose proof (decimal_two_digits k Hk).
  change (String.length "(") with 1%nat. change (String.length ")") with 1%nat. lia.
Qed.

Lemma length_remove_In (x : string) (l : list string) :
  In x l -> (length (List.remove string_dec x l) < length l)%nat.
Proof.
  induction l as [|y l IH]; simpl; [contradiction|].
  intros [->|Hin].
  - destruct (string_dec x x) as [_|N]; [|congruence].
    pose proof (List.remove_length_le string_dec l x). lia.
  - destruct (string_dec x y) as [_|_]; simpl.
    + pose proof (List.remove_length_le string_dec l x). lia.
    + specialize (IH Hin). lia.
Qed.

(** The search along the numbered names ends before the fuel does. *)
Lemma uniqueFrom_numbered (names : list string) (base : string) :
  forall (fuel : nat) (rest : list string) (counter : N),
    (length rest <= fuel)%nat ->
    (forall k, (counter <= k)%N -> In (numbered base k) names -> In (numbered base k) rest) ->
    exists k : N,
      (counter <= k <= counter + N.of_nat (length rest))%N
      /\ uniqueFrom fuel names base (numbered base counter) (counter + 1)%N
         = Some (numbered base k)
      /\ ~ In (numbered base k) names.
Proof.
  induction fuel as [|fuel IH]; intros rest counter Hfuel Hrest.
  - exists counter. split; [lia|].
    assert (Hfree : ~ In (numbered base counter) names).
    { intros Hin. apply Hrest in Hin; [|lia]. destruct rest; [contradiction | simpl in Hfuel; lia]. }
    split; [|exact Hfree]. simpl.
    destruct (existsb (strEq (numbered base counter)) names) eqn:E; [|reflexivity].
    apply existsb_strEq in E. contradiction.
  - cbn [uniqueFrom].
    destruct (existsb (strEq (numbered base counter)) names) eqn:E.
    + apply existsb_strEq in E.
      pose proof (Hrest counter ltac:(lia) E) as Hin.
      pose proof (length_remove_In _ _ Hin) as Hshorter.
      destruct (IH (List.remove string_dec (numbered base counter) rest) (counter + 1)%N)
        as (k & Hk & Hres & Hfree).
      * lia.
      * intros k Hk Hnames. apply List.in_in_remove.
        -- intros Heq. apply numbered_inj in Heq. lia.
        -- apply Hrest; [lia | exact Hnames].
      * exists k. split; [lia|]. split; assumption.
    + exists counter. split; [lia|]. split; [reflexivity|].
      intros Hin. apply existsb_strEq in Hin. congruence.
Qed.

(** [uniqueName] finds a name, and one that the workbook does not have. *)
Lemma uniqueName_spec (names : list string) (name : string) :
  exists n : string,
    uniqueName names name = Some n
    /\ ~ In n names
    /\ (n = exportBase name
        \/ exists k : N, (1 <= k <= 1 + N.of_nat (length names))%N
                         /\ n = numbered (exportBase name) k).
Proof.
  unfold uniqueName. cbn [uniqueFrom].
  destruct (existsb (strEq (exportBase name)) names) eqn:E.
  - destruct (uniqueFrom_numbered names (exportBase name) (length names) names 1%N)
      as (k & Hk & Hres & Hfree); [lia | trivial |].
    exists (numbered (exportBase name) k). split; [exact Hres|]. split; [exact Hfree|].
    right. exists k. split; [lia | reflexivity].
  - exists (exportBase name). split; [reflexivity|]. split; [|now left].
    intros Hin. apply existsb_strEq in Hin. congruence.
Qed.

Lemma exportNamesFrom_spec (l : list Sheet.t) :
  forall names : list string,
    NoDup names ->
    (forall n, In n names -> cleanName n) ->
    exists new : list string,
      exportNamesFrom names l = Some (names ++ new)
      /\ Forall2 namedAfter l new
      /\ NoDup (names ++ new)
      /\ (forall n, In n new -> cleanName n)
      /\ ((length names + length l <= 99)%nat ->
          forall n, In n new -> (String.length n <= 31)%nat).
Proof.
  induction l as [|sheet l IH]; intros names Hnodup Hclean.
  - exists []. rewrite app_nil_r. repeat split; try assumption; try constructor;
      intros; contradiction.
  - cbn [exportNamesFrom].
    destruct (uniqueName_spec names (Sheet.name sheet)) as (n & Hn & Hfree & Hform).
    rewrite Hn.
    assert (Hclean_n : cleanName n).
    { destruct Hform as [->|(k & _ & ->)]; [apply exportBase_clean|].
      apply numbered_clean, exportBase_clean. }
    destruct (IH (names ++ [n])) as (new & Hres & Hnamed & Hnd & Hcl & Hlen).
    + now apply NoDup_snoc.
    + intros m [Hm|[<-|[]]]%in_app_or; [now apply Hclean | exact Hclean_n].
    + exists (n :: new). rewrite <- app_assoc in Hres, Hnd. cbn [app] in Hres, Hnd.
      split; [exact Hres|]. split; [|split; [exact Hnd|split]].
      * constructor; [|exact Hnamed].
        destruct Hform as [->|(k & _ & ->)]; [now left | right; now exists k].
      * intros m [<-|Hm]; [exact Hclean_n | now apply Hcl].
      * intros Hsmall m [<-|Hm].
        -- destruct Hform as [->|(k & Hk & ->)]; [apply exportBase_length|].
           apply numbered_length. cbn [length] in Hsmall. lia.
        -- apply Hlen; [|exact Hm]. rewrite List.length_app. cbn [length] in *. lia.
Qed.

(** [handleExportAll] finds a name for every sheet, in a number of turns
    that the sheets already named bound.  The names are pairwise distinct;
    each is the name of its sheet with the six characters of the regular
    expression (backslash, slash, question mark, asterisk and the two
    square brackets) blanked, trimmed and cut to 31 characters ("Sheet"
    when nothing is left), or that text cut to 27 characters and followed
    by a number in brackets; none is empty or has one of these six
    characters, and in a collection of up to 99 sheets none is longer than
    31 characters. *)
Theorem exportNames_distinct :
  forall l : list Sheet.t,
    exists names : list string,
      exportNames l = Some names
      /\ Forall2 namedAfter l names
      /\ NoDup names
      /\ (forall n, In n names -> cleanName n)
      /\ ((length l <= 99)%nat -> forall n, In n names -> (String.length n <= 31)%nat).
Proof.
  intros l. unfold exportNames.
  destruct (exportNamesFrom_spec l [] (NoDup_nil_2 (A := string))) as (new & Hres & H).
  - intros n [].
  - exists new. split; [exact Hres | exact H].
Qed.

(* ===================================================================== *)
(** * The email rule                                                      *)
(* ===================================================================== *)

Lemma allPlain_app (s t : string) : allPlain (s +:+ t) = allPlain s && allPlain t.
Proof.
  induction s as [|ch s IH]; [reflexivity|].
  rewrite append_cons. simpl. now rewrite IH, andb_assoc.
Qed.

Lemma dotBeforeEnd_inv (d : string) :
  dotBeforeEnd d = true ->
  exists d1 c : string, d = d1 +:+ "." +:+ c /\ c <> EmptyString.
Proof.
  induction d as [|ch d IH]; simpl; [discriminate|].
  intros [[Hdot Hrest]%andb_prop | Hlater]%orb_prop.
  - apply Ascii.eqb_eq in Hdot. subst ch. exists EmptyString, d. split; [reflexivity|].
    intros ->. discriminate Hrest.
  - destruct (IH Hlater) as (d1 & c & -> & Hc).
    exists (String ch d1), c. split; [reflexivity | exact Hc].
Qed.

Lemma dotBeforeEnd_intro (d1 c : string) :
  c <> EmptyString -> dotBeforeEnd (d1 +:+ "." +:+ c) = true.
Proof.
  intros Hc. induction d1 as [|ch d1 IH].
  - change (EmptyString +:+ "." +:+ c) with (String "." c). simpl.
    unfold strEq. now rewrite (proj2 (String.eqb_neq c "") Hc).
  - rewrite append_cons. simpl. rewrite IH. apply orb_true_r.
Qed.

Lemma emailFrom_inv (s : string) :
  forall seen : bool,
    emailFrom seen s = true ->
    exists a b c : string,
      s = a +:+ "@" +:+ b +:+ "." +:+ c
      /\ (seen = true \/ a <> EmptyString) /\ b <> EmptyString /\ c <> EmptyString
      /\ allPlain a = true /\ allPlain b = true /\ allPlain c = true.
Proof.
  induction s as [|ch s IH]; intros seen; simpl; [discriminate|].
  destruct (Ascii.eqb_spec ch "@") as [->|Hch].
  - intros [[Hseen Hplain]%andb_prop Hdot]%andb_prop.
    destruct s as [|x d]; [discriminate|].
    destruct (dotBeforeEnd_inv d Hdot) as (d1 & c & -> & Hc).
    exists EmptyString, (String x d1), c.
    change (String x (d1 +:+ "." +:+ c)) with (String x d1 +:+ "." +:+ c) in Hplain.
    rewrite allPlain_app in Hplain. apply andb_prop in Hplain as [Hb Hdc].
    change ("." +:+ c) with (String "." c) in Hdc. simpl in Hdc.
    split; [reflexivity|]. split; [now left|]. split; [discriminate|].
    split; [exact Hc|]. split; [reflexivity|]. split; assumption.
  - intros [Hplain Hrest]%andb_prop.
    destruct (IH true Hrest) as (a & b & c & -> & _ & Hb & Hc & Ha & Hbp & Hcp).
    exists (String ch a), b, c. split; [reflexivity|]. split; [right; discriminate|].
    split; [exact Hb|]. split; [exact Hc|]. split; [|split; assumption].
    simpl. now rewrite Hplain, Ha.
Qed.

Lemma emailFrom_intro (a b c : string) :
  forall seen : bool,
    (seen = true \/ a <> EmptyString) -> b <> EmptyString -> c <> EmptyString ->
    allPlain a = true -> allPlain b = true -> allPlain c = true ->
    emailFrom seen (a +:+ "@" +:+ b +:+ "." +:+ c) = true.
Proof.
  induction a as [|ch a IH]; intros seen Hseen Hb Hc Ha Hbp Hcp.
  - destruct Hseen as [->|Hne]; [|congruence].
    change (EmptyString +:+ "@" +:+ b +:+ "." +:+ c) with (String "@" (b +:+ "." +:+ c)).
    simpl. rewrite allPlain_app, Hbp.
    change ("." +:+ c) with (String "." c). simpl. rewrite Hcp.
    destruct b as [|x b']; [congruence|]. rewrite append_cons.
    change (String "." c) with ("." +:+ c). now rewrite dotBeforeEnd_intro.
  - rewrite append_cons. simpl in Ha |- *. apply andb_prop in Ha as [Hch Ha].
    assert (Hat : Ascii.eqb ch "@" = false).
    { unfold plainChar in Hch. apply andb_prop in Hch as [_ Hch].
      now apply negb_true_iff in Hch. }
    rewrite Hat, Hch. apply IH; try assumption. now left.
Qed.

Lemma emailRegexTest_shape (s : string) : emailRegexTest s = true <-> emailShape s.
Proof.
  unfold emailRegexTest, emailShape. split.
  - intros H. destruct (emailFrom_inv s false H) as (a & b & c & E & Ha & Hr).
    exists a, b, c. split; [exact E|]. split; [|exact Hr].
    destruct Ha as [Ha|Ha]; [discriminate | exact Ha].
  - intros (a & b & c & -> & Ha & Hb & Hc & Hap & Hbp & Hcp).
    apply emailFrom_intro; try assumption. now right.
Qed.

(** An email rule accepts a value that is not empty exactly when its
    trimmed text has the shape [a@b.c], the three parts not empty and free
    of white space and of "@" ([b] and [c] may have dots of their own);
    any other value gets the message for addresses. *)
Theorem validateValue_email :
  forall (host : Host) (v : value) (rule : ValidationRule.t),
    ValidationRule.type rule = ValidationType.email ->
    isEmptyInput v = false ->
    (validateValue v rule = accepted <-> emailShape (trim (ToString v)))
    /\ (~ emailShape (trim (ToString v)) -> validateValue v rule = rejected msgBadEmail).
Proof.
  intros host v rule Hty Hne.
  assert (E : validateValue v rule
              = if emailRegexTest (trim (ToString v)) then accepted else rejected msgBadEmail).
  { unfold validateValue. rewrite Hne.
    unfold numberBlock, dateBlock, listBlock, emailBlock. rewrite Hty.
    now destruct (emailRegexTest _). }
  rewrite E. destruct (emailRegexTest (trim (ToString v))) eqn:Ht.
  - apply emailRegexTest_shape in Ht. split; [split; trivial | contradiction].
  - assert (Hno : ~ emailShape (trim (ToString v))).
    { intros Hs. apply emailRegexTest_shape in Hs. congruence. }
    split; [split; [discriminate | contradiction] | reflexivity].
Qed.

Lemma validateValue_email_witness :
  validateValue (H := lenientHost) (VStr " ana@escola.co.ao ") emailRule = accepted.
Proof.
  apply (validateValue_email lenientHost (VStr " ana@escola.co.ao ") emailRule
           Logic.eq_refl Logic.eq_refl).
  exists "ana", "escola", "co.ao". repeat split; discriminate.
Defined.

(* ===================================================================== *)
(** * The bulk average                                                    *)
(* ===================================================================== *)

Lemma operand_truthy (x : CellValue) : isNaN (operand x) = false -> truthy x = true.
Proof.
  unfold operand, orElse. destruct (truthy x); [reflexivity|].
  intros H. vm_compute in H. discriminate H.
Qed.

Lemma truthy_not_empty (x : CellValue) :
  truthy x = true -> isString x "" = false /\ isNullCell x = false.
Proof. destruct x as [s| | | |]; simpl; try discriminate; try (split; reflexivity).
  intros H. split; [|reflexivity]. now apply negb_true_iff in H.
Qed.

(** A cell of the padded copy of a row is the cell of the row, or one that
    is not read as a number where the row has none either. *)
Lemma padded_cell (row : Row) (m c : nat) :
  cell (padTo (spread row) m) c = cell row c
  \/ (isNaN (operand (cell (padTo (spread row) m) c)) = true
      /\ isNaN (operand (cell row c)) = true).
Proof.
  rewrite cell_padTo, length_spread.
  destruct (Nat.ltb_spec c (length row)) as [Hlt|Hge].
  - left. apply cell_spread.
  - right. rewrite (cell_beyond row c Hge).
    destruct (c <=? m)%nat; split; vm_compute; reflexivity.
Qed.

Lemma averagedRow_spec (c1 c2 m : nat) (row : Row) :
  snd (averagedRow c1 c2 m (spread row)) = averageable c1 c2 row
  /\ (forall j, j <> m -> (j < length row)%nat ->
                cell (fst (averagedRow c1 c2 m (spread row))) j = cell row j)
  /\ (averageable c1 c2 row = true ->
      cell (fst (averagedRow c1 c2 m (spread row))) m = VStr (averageOf c1 c2 row))
  /\ (averageable c1 c2 row = false ->
      cell (fst (averagedRow c1 c2 m (spread row))) m
      = if (m <? length row)%nat then cell row m else VStr "").
Proof.
  unfold averagedRow. cbv zeta.
  set (padded := padTo (spread row) m).
  assert (Hkeep : forall j, (j < length row)%nat -> cell padded j = cell row j).
  { intros j Hj. unfold padded. rewrite cell_padTo, length_spread.
    rewrite (proj2 (Nat.ltb_lt _ _) Hj). apply cell_spread. }
  assert (Hm : cell padded m = if (m <? length row)%nat then cell row m else VStr "").
  { unfold padded. rewrite cell_padTo, length_spread, cell_spread.
    destruct (m <? length row)%nat; [reflexivity|]. now rewrite Nat.leb_refl. }
  pose proof (padded_cell row m c1) as P1. pose proof (padded_cell row m c2) as P2.
  fold padded in P1, P2.
  destruct (averageable c1 c2 row) eqn:Hav.
  - unfold averageable in Hav. apply andb_prop in Hav as [H1 H2].
    apply negb_true_iff in H1, H2.
    destruct P1 as [E1|[_ N1]]; [|congruence].
    destruct P2 as [E2|[_ N2]]; [|congruence].
    rewrite E1, E2, H1, H2.
    destruct (truthy_not_empty _ (operand_truthy _ H1)) as [S1 U1].
    destruct (truthy_not_empty _ (operand_truthy _ H2)) as [S2 U2].
    rewrite S1, S2, U1, U2. cbn [negb andb fst snd].
    split; [reflexivity|]. split; [|split; [|discriminate]].
    + intros j Hj Hlen. rewrite cell_setAt_ne by congruence. now apply Hkeep.
    + intros _. rewrite cell_setAt_eq. reflexivity.
  - assert (Hcond : negb (isNaN (operand (cell padded c1)))
                    && negb (isNaN (operand (cell padded c2))) = false).
    { unfold averageable in Hav.
      destruct P1 as [E1|[N1 _]]; destruct P2 as [E2|[N2 _]].
      - now rewrite E1, E2.
      - rewrite N2. apply andb_false_r.
      - now rewrite N1.
      - now rewrite N1. }
    rewrite Hcond. cbn [andb fst snd].
    split; [reflexivity|]. split; [|split; [discriminate|]].
    + intros j _ Hlen. now apply Hkeep.
    + intros _. exact Hm.
Qed.

Lemma at_averagedRows (c1 c2 m : nat) (rows : SheetData) :
  forall i, at_ (fst (averagedRows c1 c2 m rows)) i
            = option_map (fun r => fst (averagedRow c1 c2 m r)) (at_ rows i).
Proof.
  induction rows as [|[row|] rows IH]; intros i; cbn [averagedRows].
  - cbn [fst]. rewrite !at_nil. reflexivity.
  - destruct (averagedRow c1 c2 m row) as [row' written] eqn:Er.
    destruct (averagedRows c1 c2 m rows) as [rest' n] eqn:Erows.
    cbn [fst] in *. destruct i as [|i]; [unfold at_; simpl; now rewrite Er|].
    rewrite !at_cons_S. apply IH.
  - destruct (averagedRows c1 c2 m rows) as [rest' n] eqn:Erows.
    cbn [fst] in *. destruct i as [|i]; [reflexivity|].
    rewrite !at_cons_S. apply IH.
Qed.

Lemma length_averagedRows (c1 c2 m : nat) (rows : SheetData) :
  length (fst (averagedRows c1 c2 m rows)) = length rows.
Proof.
  induction rows as [|[row|] rows IH]; cbn [averagedRows]; [reflexivity| |].
  - destruct (averagedRow c1 c2 m row), (averagedRows c1 c2 m rows). simpl in *. now rewrite IH.
  - destruct (averagedRows c1 c2 m rows). simpl in *. now rewrite IH.
Qed.

Lemma snd_averagedRows (c1 c2 m : nat) (rows : SheetData) :
  snd (averagedRows c1 c2 m rows)
  = length (List.filter (fun o => match o with
                                  | Some r => snd (averagedRow c1 c2 m r)
                                  | None => false
                                  end) rows).
Proof.
  induction rows as [|[row|] rows IH]; cbn [averagedRows List.filter]; [reflexivity| |].
  - destruct (averagedRow c1 c2 m row) as [row' written].
    destruct (averagedRows c1 c2 m rows) as [rest' n]. cbn [snd] in *.
    destruct written; simpl; now rewrite IH.
  - destruct (averagedRows c1 c2 m rows) as [rest' n]. cbn [snd] in *. exact IH.
Qed.

(** The copy [handleCalculateAverages] works on, row by row. *)
Lemma at_copied (isNull : nat -> bool) (rest : SheetData) :
  forall (k i : nat) (row : Row),
    at_ rest i = Some row ->
    at_ (imap (fun j o => match o with
                          | Some cells => Some (spread cells)
                          | None => if isNull (k + j)%nat then Some [] else None
                          end) rest) i = Some (spread row).
Proof.
  induction rest as [|o rest IH]; intros k i row Hrow.
  - now rewrite at_nil in Hrow.
  - destruct i as [|i].
    + unfold at_ in Hrow. simpl in Hrow. subst o. reflexivity.
    + rewrite at_cons_S in Hrow. cbn [imap]. rewrite at_cons_S.
      rewrite <- (IH (S k) i row Hrow). f_equal. apply imap_ext.
      intros j x _. simpl. now rewrite Nat.add_succ_r.
Qed.

Lemma count_copied (isNull : nat -> bool) (c1 c2 m : nat) (rest : SheetData) :
  forall k : nat,
    length (List.filter (fun o => match o with
                                  | Some r => snd (averagedRow c1 c2 m r)
                                  | None => false
                                  end)
              (imap (fun j o => match o with
                                | Some cells => Some (spread cells)
                                | None => if isNull (k + j)%nat then Some [] else None
                                end) rest))
    = countAveraged c1 c2 rest.
Proof.
  unfold countAveraged. induction rest as [|o rest IH]; intros k; [reflexivity|].
  assert (Hrest : imap ((fun j o => match o with
                                    | Some cells => Some (spread cells)
                                    | None => if isNull (k + j)%nat then Some [] else None
                                    end) ∘ S) rest
                  = imap (fun j o => match o with
                                     | Some cells => Some (spread cells)
                                     | None => if isNull (S k + j)%nat then Some [] else None
                                     end) rest).
  { apply imap_ext. intros j x _. simpl. now rewrite Nat.add_succ_r. }
  destruct o as [row|]; cbn [imap List.filter]; rewrite Hrest.
  - rewrite (proj1 (averagedRow_spec c1 c2 m row)).
    destruct (averageable c1 c2 row); cbn [length]; now rewrite IH.
  - destruct (isNull (k + 0)%nat).
    + change (@nil (option CellValue)) with (spread []).
      rewrite (proj1 (averagedRow_spec c1 c2 m [])).
      replace (averageable c1 c2 []) with false; [apply IH|].
      unfold averageable, cell. rewrite !at_nil. vm_compute. reflexivity.
    + apply IH.
Qed.

Lemma numLt_or_numGe (x y : Js.number) :
  isNaN x = false -> isNaN y = false -> numLt x y = false -> numGe x y = true.
Proof.
  intros Hx Hy. unfold numLt, numGe, SFltb, SFleb. rewrite (SFcompare_antisym x y).
  destruct (SFcompare x y) as [[]|] eqn:E; simpl; try reflexivity; try discriminate.
  intros _. destruct x as [sx|sx| |sx mx ex], y as [sy|sy| |sy my ey];
    simpl in *; try discriminate;
    try (destruct sx; discriminate); try (destruct sy; discriminate);
    try (destruct sx, sy; discriminate).
Qed.

Lemma filter_on_other (m c : nat) (old : list ConditionalRule.t) :
  c <> m ->
  List.filter (onColumn c) (otherFormats m old) = List.filter (onColumn c) old.
Proof.
  intros Hc. unfold otherFormats. induction old as [|q old IH]; simpl; [reflexivity|].
  unfold onColumn in *.
  destruct (Nat.eqb_spec (ConditionalRule.columnIndex q) m) as [Em|Em]; simpl.
  - rewrite Em. rewrite (proj2 (Nat.eqb_neq m c)) by congruence. exact IH.
  - now rewrite IH.
Qed.

Lemma filter_on_same (m : nat) (old : list ConditionalRule.t) :
  List.filter (onColumn m) (otherFormats m old) = [].
Proof.
  unfold otherFormats, onColumn. induction old as [|q old IH]; simpl; [reflexivity|].
  destruct (Nat.eqb (ConditionalRule.columnIndex q) m) eqn:E; simpl; [exact IH|].
  now rewrite E.
Qed.

(** The styles under the two rules of the bulk average. *)
Lemma getCellStyle_grades (old : list ConditionalRule.t) (id1 id2 : string)
    (m rowIndex c : nat) (v : CellValue) :
  rowIndex <> 0%nat ->
  getCellStyle (otherFormats m old ++ [failRule id1 m; passRule id2 m]) rowIndex c v
  = if Nat.eqb c m then gradeStyle id1 id2 m v else getCellStyle old rowIndex c v.
Proof.
  intros Hrow. unfold getCellStyle.
  rewrite (proj2 (Nat.eqb_neq rowIndex 0) Hrow). rewrite List.filter_app.
  destruct (Nat.eqb_spec c m) as [->|Hc].
  - rewrite filter_on_same. cbn [app List.filter]. unfold onColumn.
    cbn [failRule passRule ConditionalRule.columnIndex]. rewrite Nat.eqb_refl.
    cbn [firstMatch]. unfold ruleMatches, gradeStyle.
    cbn [failRule passRule ConditionalRule.condition ConditionalRule.value ToNumber].
    destruct (isNumber v) eqn:Hnum; [|reflexivity].
    destruct (numLt (ToNumber (normalizedValue v)) (ofZ 5)) eqn:Hlt; [reflexivity|].
    rewrite numLt_or_numGe; [reflexivity| |reflexivity|exact Hlt].
    unfold isNumber in Hnum. apply andb_prop in Hnum as [[Hnan _]%andb_prop _].
    now apply negb_true_iff in Hnan.
  - rewrite (filter_on_other m c old Hc). cbn [List.filter]. unfold onColumn.
    cbn [failRule passRule ConditionalRule.columnIndex].
    rewrite (proj2 (Nat.eqb_neq m c)) by congruence. now rewrite app_nil_r.
Qed.

Lemma cell_app_l (l l' : Row) (j : nat) : (j < length l)%nat -> cell (l ++ l') j = cell l j.
Proof. intros Hj. unfold cell, at_. now rewrite nth_error_app1. Qed.

Lemma cell_snoc (l : Row) (v : CellValue) : cell (l ++ [Some v]) (length l) = v.
Proof.
  unfold cell, at_. rewrite nth_error_app2 by lia. now rewrite Nat.sub_diag.
Qed.

(** What [handleCalculateAverages] stores when the sheet has the columns
    of the two grades. *)
Lemma handleCalculateAverages_result (isNull : nat -> bool) (id1 id2 : string)
    (st : AppState) (sheet : Sheet.t) (header : Row) (rest : SheetData) (c1 c2 : nat)
    (media : option nat) :
  activeSheet st = Some sheet ->
  Sheet.data sheet = Some header :: rest ->
  findIndex (isGradeHeader "nota 1" "p1" "n1") (headersOf (spread header)) = Ok (Some c1) ->
  findIndex (isGradeHeader "nota 2" "p2" "n2") (headersOf (spread header)) = Ok (Some c2) ->
  findIndex isMediaHeader (headersOf (spread header)) = Ok media ->
  let copied := imap (fun j o => match o with
                                 | Some cells => Some (spread cells)
                                 | None => if isNull (1 + j)%nat then Some [] else None
                                 end) rest in
  let hm := withMediaColumn (spread header) media in
  let rr := averagedRows c1 c2 (snd hm) copied in
  handleCalculateAverages isNull id1 id2 st
  = alerting (msgAveragesDone (snd rr))
      (storeActive (Some (fst hm) :: fst rr)
         (Some (otherFormats (snd hm) (orEmpty (Sheet.conditionalFormats sheet))
                ++ [failRule id1 (snd hm); passRule id2 (snd hm)]))
         (Sheet.validationRules sheet) st).
Proof.
  intros Hact Hdata H1 H2 Hm copied hm rr.
  unfold handleCalculateAverages. rewrite Hact, Hdata. unfold copiedRows. cbn [imap].
  rewrite H1, H2. cbn [bind]. rewrite Hm. fold hm.
  assert (Ecopied : imap ((fun i row => match row with
                                        | Some cells => Some (spread cells)
                                        | None => if isNull i then Some [] else None
                                        end) ∘ S) rest = copied).
  { apply imap_ext. intros j x _. reflexivity. }
  rewrite Ecopied. destruct hm as [header' m] eqn:Ehm. cbn [fst snd] in *.
  fold rr. now destruct rr as [rows' n].
Qed.

(** With the columns of the two grades found, [handleCalculateAverages]
    goes through every row after the header: it writes the average, under
    the column of the average, into each row whose two grades are read as
    numbers, and leaves the other cells the rows had as they are; the
    message counts the rows written.  A sheet without a column for the
    average gets one, named in the header. *)
Theorem handleCalculateAverages_writes_averages :
  forall (isNull : nat -> bool) (id1 id2 : string) (st : AppState) (sheet : Sheet.t)
         (header : Row) (rest : SheetData) (c1 c2 : nat) (media : option nat),
    activeSheet st = Some sheet ->
    Sheet.data sheet = Some header :: rest ->
    findIndex (isGradeHeader "nota 1" "p1" "n1") (headersOf (spread header)) = Ok (Some c1) ->
    findIndex (isGradeHeader "nota 2" "p2" "n2") (headersOf (spread header)) = Ok (Some c2) ->
    findIndex isMediaHeader (headersOf (spread header)) = Ok media ->
    let m := match media with Some i => i | None => length header end in
    let out := handleCalculateAverages isNull id1 id2 st in
    alerts out = [msgAveragesDone (countAveraged c1 c2 rest)]
    /\ threw out = false
    /\ exists sheet' : Sheet.t,
         activeSheet (after out) = Some sheet'
         /\ Sheet.validationRules sheet' = Sheet.validationRules sheet
         /\ length (Sheet.data sheet') = length (Sheet.data sheet)
         /\ (forall j, (j < length header)%nat ->
                       cell (rowAt (Sheet.data sheet') 0) j = cell header j)
         /\ (media = None -> cell (rowAt (Sheet.data sheet') 0) m = VStr str_Media)
         /\ (forall (i : nat) (row : Row),
               at_ rest i = Some row ->
               let row' := rowAt (Sheet.data sheet') (S i) in
               (forall j, j <> m -> (j < length row)%nat -> cell row' j = cell row j)
               /\ (averageable c1 c2 row = true -> cell row' m = VStr (averageOf c1 c2 row))
               /\ (averageable c1 c2 row = false ->
                   cell row' m = if (m <? length row)%nat then cell row m else VStr "")).
Proof.
  intros isNull id1 id2 st sheet header rest c1 c2 media Hact Hdata H1 H2 Hm m out.
  subst out.
  rewrite (handleCalculateAverages_result isNull id1 id2 st sheet header rest c1 c2 media
             Hact Hdata H1 H2 Hm).
  cbv zeta.
  assert (Em : snd (withMediaColumn (spread header) media) = m).
  { unfold m. destruct media; [reflexivity | apply length_spread]. }
  rewrite Em.
  set (copied := imap _ rest).
  cbn [alerts after threw alerting].
  split; [|split; [reflexivity|]].
  { f_equal. f_equal. rewrite snd_averagedRows. apply (count_copied isNull c1 c2 m rest 1). }
  eexists. split; [exact (activeSheet_storeActive st sheet _ _ _ Hact)|].
  unfold stored. cbn [Sheet.data Sheet.validationRules].
  split; [reflexivity|]. split; [|split; [|split]].
  - rewrite Hdata. cbn [length]. rewrite length_averagedRows. unfold copied.
    now rewrite length_imap.
  - intros j Hj. unfold rowAt, at_. cbn [nth_error]. unfold withMediaColumn.
    destruct media; cbn [fst].
    + apply cell_spread.
    + rewrite cell_app_l by now rewrite length_spread. apply cell_spread.
  - intros ->. unfold rowAt, at_. cbn [nth_error withMediaColumn fst].
    unfold m. rewrite <- (length_spread header). apply cell_snoc.
  - intros i row Hrow. cbv zeta.
    assert (Erow : rowAt (Some (fst (withMediaColumn (spread header) media))
                          :: fst (averagedRows c1 c2 m copied)) (S i)
                   = fst (averagedRow c1 c2 m (spread row))).
    { unfold rowAt. rewrite at_cons_S, at_averagedRows. unfold copied.
      now rewrite (at_copied isNull rest 1 i row Hrow). }
    rewrite Erow. apply averagedRow_spec.
Qed.

Lemma handleCalculateAverages_writes_averages_witness :
  exists sheet' : Sheet.t,
    activeSheet (after (handleCalculateAverages noNulls "r1" "r2" openBook)) = Some sheet'
    /\ alerts (handleCalculateAverages noNulls "r1" "r2" openBook) = [msgAveragesDone 1]
    /\ cell (rowAt (Sheet.data sheet') 1) 3 = VStr "7,8"
    /\ cell (rowAt (Sheet.data sheet') 2) 3 = VStr "".
Proof.
  pose proof (handleCalculateAverages_writes_averages noNulls "r1" "r2" openBook
                (gradeBook [cells ["Ana"; "7,5"; "8"; ""]; cells ["Rui"; ""; "12"; ""]])
                gradeHeader
                [Some (cells ["Ana"; "7,5"; "8"; ""]); Some (cells ["Rui"; ""; "12"; ""])]
                1 2 (Some 3%nat)
                Logic.eq_refl Logic.eq_refl Logic.eq_refl Logic.eq_refl Logic.eq_refl) as T.
  cbv zeta in T. destruct T as (Halerts & _ & sheet' & Hact' & _ & _ & _ & _ & Hrows).
  exists sheet'. split; [exact Hact'|]. split; [exact Halerts|]. split.
  - destruct (Hrows 0%nat (cells ["Ana"; "7,5"; "8"; ""]) Logic.eq_refl) as (_ & Hav & _).
    etransitivity; [apply Hav; vm_compute; reflexivity | vm_compute; reflexivity].
  - destruct (Hrows 1%nat (cells ["Rui"; ""; "12"; ""]) Logic.eq_refl) as (_ & _ & Hno).
    etransitivity; [apply Hno; vm_compute; reflexivity | vm_compute; reflexivity].
Defined.

(** After the bulk average, the column of the average has its two rules
    and no other: on every row below the header, a cell of that column
    that is read as a number is shown in the first preset (red) below 5
    and in the second (green) from 5 on, a cell that is not gets no
    style, and the cells of the other columns are styled as before. *)
Theorem handleCalculateAverages_styles_the_averages :
  forall (isNull : nat -> bool) (id1 id2 : string) (st : AppState) (sheet : Sheet.t)
         (header : Row) (rest : SheetData) (c1 c2 : nat) (media : option nat),
    activeSheet st = Some sheet ->
    Sheet.data sheet = Some header :: rest ->
    findIndex (isGradeHeader "nota 1" "p1" "n1") (headersOf (spread header)) = Ok (Some c1) ->
    findIndex (isGradeHeader "nota 2" "p2" "n2") (headersOf (spread header)) = Ok (Some c2) ->
    findIndex isMediaHeader (headersOf (spread header)) = Ok media ->
    let m := match media with Some i => i | None => length header end in
    let out := handleCalculateAverages isNull id1 id2 st in
    exists sheet' : Sheet.t,
      activeSheet (after out) = Some sheet'
      /\ forall (rowIndex c : nat) (v : CellValue),
           rowIndex <> 0%nat ->
           getCellStyle (orEmpty (Sheet.conditionalFormats sheet')) rowIndex c v
           = if Nat.eqb c m then gradeStyle id1 id2 m v
             else getCellStyle (orEmpty (Sheet.conditionalFormats sheet)) rowIndex c v.
Proof.
  intros isNull id1 id2 st sheet header rest c1 c2 media Hact Hdata H1 H2 Hm m out.
  subst out.
  rewrite (handleCalculateAverages_result isNull id1 id2 st sheet header rest c1 c2 media
             Hact Hdata H1 H2 Hm).
  cbv zeta.
  assert (Em : snd (withMediaColumn (spread header) media) = m).
  { unfold m. destruct media; [reflexivity | apply length_spread]. }
  rewrite Em. cbn [after alerting].
  eexists. split; [exact (activeSheet_storeActive st sheet _ _ _ Hact)|].
  intros rowIndex c v Hrow. unfold stored. cbn [Sheet.conditionalFormats orEmpty].
  now apply getCellStyle_grades.
Qed.

Lemma handleCalculateAverages_styles_the_averages_witness :
  exists sheet' : Sheet.t,
    activeSheet (after (handleCalculateAverages noNulls "r1" "r2" openBook)) = Some sheet'
    /\ getCellStyle (orEmpty (Sheet.conditionalFormats sheet')) 1 3 (VStr "7,8")
       = Some (styleOf (passRule "r2" 3))
    /\ getCellStyle (orEmpty (Sheet.conditionalFormats sheet')) 2 3 (VStr "")
       = None.
Proof.
  pose proof (handleCalculateAverages_styles_the_averages noNulls "r1" "r2" openBook
                (gradeBook [cells ["Ana"; "7,5"; "8"; ""]; cells ["Rui"; ""; "12"; ""]])
                gradeHeader
                [Some (cells ["Ana"; "7,5"; "8"; ""]); Some (cells ["Rui"; ""; "12"; ""])]
                1 2 (Some 3%nat)
                Logic.eq_refl Logic.eq_refl Logic.eq_refl Logic.eq_refl Logic.eq_refl) as T.
  cbv zeta in T. destruct T as (sheet' & Hact' & Hstyle).
  exists sheet'. split; [exact Hact'|]. split.
  - rewrite (Hstyle 1%nat 3%nat (VStr "7,8")) by discriminate. vm_compute. reflexivity.
  - rewrite (Hstyle 2%nat 3%nat (VStr "")) by discriminate. vm_compute. reflexivity.
Defined.

(* ===================================================================== *)
(** * The tab menu and the start of a session                             *)
(* ===================================================================== *)

Lemma withoutId_absent (i : string) (l : list Sheet.t) :
  ~ In i (ids l) -> withoutId i l = l.
Proof.
  induction l as [|s l IH]; [reflexivity|]. cbn [ids List.map]. intros Hno.
  cbn [withoutId List.filter]. fold (withoutId i l). unfold strEq.
  destruct (String.eqb_spec (Sheet.id s) i) as [E|E].
  - exfalso. apply Hno. now left.
  - cbn [negb]. rewrite IH; [reflexivity|]. intros Hin. apply Hno. now right.
Qed.

Lemma withoutId_split (i : string) (l : list Sheet.t) (sheet : Sheet.t) :
  NoDup (ids l) ->
  findSheet l (Some i) = Some sheet ->
  exists before behind : list Sheet.t,
    l = before ++ sheet :: behind /\ withoutId i l = before ++ behind.
Proof.
  unfold findSheet. induction l as [|s l IH]; [discriminate|].
  cbn [ids List.map]. rewrite NoDup_cons. intros [Hs Hl]. cbn [List.find hasId].
  cbn [withoutId List.filter]. fold (withoutId i l). unfold strEq.
  destruct (String.eqb_spec (Sheet.id s) i) as [E|E].
  - intros [= ->]. exists [], l. split; [reflexivity|]. cbn [negb app].
    apply withoutId_absent. rewrite <- E. intros Hin. apply Hs. now rewrite list_elem_of_In.
  - intros Hfind. destruct (IH Hl Hfind) as (before & behind & -> & Ew).
    exists (s :: before), behind. cbn [negb]. split; [reflexivity|]. now rewrite Ew.
Qed.

(** Deleting from the tab menu, once confirmed, takes exactly the sheet of
    the menu out of a collection of two or more sheets: the others stay
    in their order.  The active sheet is kept, unless it was the deleted
    one: then the first sheet left becomes active.  Without the
    confirmation only the menu closes. *)
Theorem handleDeleteSheet_removes_one_sheet :
  forall (st : AppState) (sheetId : string) (sheet : Sheet.t),
    NoDup (ids (sheets st)) ->
    contextMenu st = Some sheetId ->
    findSheet (sheets st) (Some sheetId) = Some sheet ->
    lacksEditAccess st sheet = false ->
    (2 <= length (sheets st))%nat ->
    handleDeleteSheet false st = done (setContextMenu None st)
    /\ let out := handleDeleteSheet true st in
       alerts out = [] /\ threw out = false
       /\ contextMenu (after out) = None
       /\ unlockedSheets (after out) = unlockedSheets st
       /\ (exists before behind : list Sheet.t,
             sheets st = before ++ sheet :: behind
             /\ sheets (after out) = before ++ behind)
       /\ (hasIdOpt (activeSheetId st) sheetId = false ->
           activeSheetId (after out) = activeSheetId st)
       /\ (hasIdOpt (activeSheetId st) sheetId = true ->
           exists first, head (sheets (after out)) = Some first
                         /\ activeSheetId (after out) = Some (Sheet.id first)).
Proof.
  intros st sheetId sheet Hnd Hmenu Hfind Haccess Hlen.
  assert (Hguard : (length (sheets st) <=? 1)%nat = false) by (apply Nat.leb_gt; lia).
  split.
  { unfold handleDeleteSheet. now rewrite Hmenu, Hfind, Haccess, Hguard. }
  cbv zeta. unfold handleDeleteSheet. rewrite Hmenu, Hfind, Haccess, Hguard.
  pose proof (withoutId_nonempty sheetId (sheets st) Hnd Hlen) as Hleft.
  destruct (withoutId_split sheetId (sheets st) sheet Hnd Hfind)
    as (before & behind & Esheets & Eleft).
  destruct (hasIdOpt (activeSheetId st) sheetId) eqn:Hactive.
  - destruct (withoutId sheetId (sheets st)) as [|first others] eqn:Ew; [congruence|].
    cbn [alerts threw after done contextMenu unlockedSheets sheets activeSheetId
         setContextMenu setActiveSheetId setSheets].
    repeat split; try discriminate.
    + exists before, behind. split; [exact Esheets | exact Eleft].
    + intros _. exists first. split; reflexivity.
  - cbn [alerts threw after done contextMenu unlockedSheets sheets activeSheetId
         setContextMenu setActiveSheetId setSheets].
    repeat split; try discriminate.
    exists before, behind. split; [exact Esheets | exact Eleft].
Qed.

Lemma handleDeleteSheet_removes_one_sheet_witness :
  exists before behind : list Sheet.t,
    [plainSheet "a" "A" []; plainSheet "b" "B" []; plainSheet "c" "C" []]
    = before ++ plainSheet "b" "B" [] :: behind
    /\ sheets (after (handleDeleteSheet true
                        (session [plainSheet "a" "A" []; plainSheet "b" "B" [];
                                  plainSheet "c" "C" []] ∅ "" (Some "b"))))
       = before ++ behind.
Proof.
  pose proof (handleDeleteSheet_removes_one_sheet
                (session [plainSheet "a" "A" []; plainSheet "b" "B" [];
                          plainSheet "c" "C" []] ∅ "" (Some "b"))
                "b" (plainSheet "b" "B" [])
                ltac:(vm_compute;
                      repeat (apply NoDup_cons_2;
                              [rewrite list_elem_of_In; simpl; intuition discriminate|]);
                      apply NoDup_nil_2)
                Logic.eq_refl Logic.eq_refl Logic.eq_refl
                ltac:(simpl; lia)) as [_ T].
  cbv zeta in T. destruct T as (_ & _ & _ & _ & T & _). exact T.
Defined.

Lemma findSheet_absent (i : string) (l : list Sheet.t) :
  ~ In i (ids l) -> findSheet l (Some i) = None.
Proof.
  unfold findSheet. induction l as [|s l IH]; [reflexivity|].
  cbn [ids List.map List.find hasId]. intros Hno. unfold strEq.
  destruct (String.eqb_spec (Sheet.id s) i) as [E|E].
  - exfalso. apply Hno. now left.
  - apply IH. intros Hin. apply Hno. now right.
Qed.

Lemma find_app_absent {A} (p : A -> bool) (l l' : list A) :
  List.find p l = None -> List.find p (l ++ l') = List.find p l'.
Proof.
  induction l as [|x l IH]; [reflexivity|]. simpl.
  destruct (p x); [discriminate | exact IH].
Qed.

(** The copy [handleDuplicateSheet] makes is put last and becomes the
    active sheet; it carries the codes of the original, and whoever made
    it has on it the access level held on the original, no more: a copy
    of a sheet one may only view cannot be edited either.  The levels on
    the other sheets are not changed. *)
Theorem handleDuplicateSheet_copy_keeps_access :
  forall (newId : string) (st : AppState) (sheet : Sheet.t),
    findSheet (sheets st) (contextMenu st) = Some sheet ->
    newId <> EmptyString ->
    ~ In newId (ids (sheets st)) ->
    unlockedSheets st !! newId = None ->
    let out := handleDuplicateSheet newId st in
    alerts out = []
    /\ contextMenu (after out) = None
    /\ sheets (after out) = sheets st ++ [duplicateOf newId sheet]
    /\ activeSheet (after out) = Some (duplicateOf newId sheet)
    /\ hasCodes (duplicateOf newId sheet) = hasCodes sheet
    /\ Sheet.accessCodeExpiration (duplicateOf newId sheet) = Sheet.accessCodeExpiration sheet
    /\ unlockedSheets (after out) !! newId = unlockedSheets st !! Sheet.id sheet
    /\ (forall i, i <> newId -> unlockedSheets (after out) !! i = unlockedSheets st !! i)
    /\ canEdit (after out)
       = (if hasCodes sheet then isEdit (unlockedSheets st !! Sheet.id sheet) else true).
Proof.
  intros newId st sheet Hfind Hid Hfresh Hnone out. subst out.
  destruct (contextMenu st) as [sheetId|] eqn:Hmenu.
  2:{ exfalso. unfold findSheet in Hfind. clear -Hfind.
      induction (sheets st); simpl in *; congruence. }
  unfold handleDuplicateSheet. rewrite Hmenu, Hfind.
  set (unlocked := match unlockedSheets st !! Sheet.id sheet with
                   | Some level => <[newId := level]> (unlockedSheets st)
                   | None => unlockedSheets st
                   end).
  cbn [alerts after done contextMenu sheets unlockedSheets activeSheetId
       setContextMenu setActiveSheetId setSheets setUnlockedSheets].
  assert (Hact : activeSheet
                   (setContextMenu None
                      (setActiveSheetId (Some newId)
                         (setSheets (sheets st ++ [duplicateOf newId sheet])
                            (setUnlockedSheets unlocked st))))
                 = Some (duplicateOf newId sheet)).
  { unfold activeSheet, findSheet. cbn [sheets activeSheetId setContextMenu setActiveSheetId
                                        setSheets setUnlockedSheets].
    rewrite find_app_absent by (apply (findSheet_absent newId); exact Hfresh).
    cbn [List.find hasId duplicateOf Sheet.id]. unfold strEq. now rewrite String.eqb_refl. }
  assert (Hnew : unlocked !! newId = unlockedSheets st !! Sheet.id sheet).
  { unfold unlocked. destruct (unlockedSheets st !! Sheet.id sheet) as [level|] eqn:E.
    - apply lookup_insert_eq.
    - exact Hnone. }
  repeat split; try reflexivity; try assumption.
  - intros i Hi. unfold unlocked.
    destruct (unlockedSheets st !! Sheet.id sheet); [|reflexivity].
    now apply lookup_insert_ne.
  - unfold canEdit. rewrite Hact.
    change (hasCodes (duplicateOf newId sheet)) with (hasCodes sheet).
    destruct (hasCodes sheet); [|reflexivity]. cbn [negb].
    unfold currentAccess. cbn [activeSheetId unlockedSheets setContextMenu setActiveSheetId
                               setSheets setUnlockedSheets].
    unfold strEq. rewrite (proj2 (String.eqb_neq _ _) Hid). now rewrite Hnew.
Qed.

Lemma handleDuplicateSheet_copy_keeps_access_witness :
  canEdit (after (handleDuplicateSheet "copy"
                    (session [sharedSheet "s1" "EDIT01" "VIEW01" 100] {[ "s1" := view ]} ""
                       (Some "s1"))))
  = false.
Proof.
  pose proof (handleDuplicateSheet_copy_keeps_access "copy"
                (session [sharedSheet "s1" "EDIT01" "VIEW01" 100] {[ "s1" := view ]} ""
                   (Some "s1"))
                (sharedSheet "s1" "EDIT01" "VIEW01" 100)
                Logic.eq_refl ltac:(discriminate)
                ltac:(simpl; intuition discriminate) Logic.eq_refl) as T.
  cbv zeta in T. destruct T as (_ & _ & _ & _ & _ & _ & _ & _ & T). exact T.
Defined.

(** The start of a session: the effect on the number of sheets leaves a
    collection that is not empty, chooses an active sheet where none was
    chosen, and never gives access to a sheet that has codes. *)
Theorem lengthEffect_unlocks_no_sheet_with_codes :
  forall (pauta : option string) (st : AppState),
    NoDup (ids (sheets st)) ->
    let st' := lengthEffect pauta st in
    sheets st' <> []
    /\ (sheets st <> [] -> sheets st' = sheets st)
    /\ (nonEmpty (activeSheetId st) = false -> activeSheet st' <> None)
    /\ (forall sheet : Sheet.t,
          In sheet (sheets st') -> hasCodes sheet = true ->
          unlockedSheets st' !! Sheet.id sheet = unlockedSheets st !! Sheet.id sheet).
Proof.
  intros pauta st Hnd st'. subst st'. unfold lengthEffect.
  destruct (sheets st) as [|firstSheet others] eqn:Hsheets.
  - cbn [sheets unlockedSheets setUnlockedSheets setActiveSheetId setSheets].
    split; [discriminate|]. split; [congruence|]. split.
    + intros _. discriminate.
    + intros sheet [<-|[]] Hcodes. discriminate Hcodes.
  - destruct (nonEmpty (activeSheetId st)) eqn:Hactive.
    { rewrite Hsheets. split; [discriminate|]. split; [reflexivity|].
      split; [discriminate|]. reflexivity. }
    destruct (nonEmpty pauta && isSome (findSheet (firstSheet :: others) pauta)) eqn:Hpauta.
    { cbn [sheets unlockedSheets setActiveSheetId]. rewrite Hsheets.
      split; [discriminate|]. split; [reflexivity|]. split; [|reflexivity].
      intros _. unfold activeSheet. cbn [sheets activeSheetId setActiveSheetId].
      rewrite Hsheets. apply andb_prop in Hpauta as [_ Hfound].
      now destruct (findSheet (firstSheet :: others) pauta). }
    assert (Hfirst : activeSheet (setActiveSheetId (Some (Sheet.id firstSheet)) st) <> None).
    { unfold activeSheet, findSheet. cbn [sheets activeSheetId setActiveSheetId].
      rewrite Hsheets. cbn [List.find hasId]. unfold strEq.
      now rewrite String.eqb_refl. }
    destruct (hasCodes firstSheet) eqn:Hcodes; cbn [negb].
    + cbn [sheets unlockedSheets setActiveSheetId]. rewrite Hsheets.
      split; [discriminate|]. split; [reflexivity|]. split; [|reflexivity].
      intros _. exact Hfirst.
    + cbn [sheets unlockedSheets setUnlockedSheets setActiveSheetId]. rewrite Hsheets.
      split; [discriminate|]. split; [reflexivity|]. split; [intros _; exact Hfirst|].
      intros sheet Hin Hsheet. apply lookup_insert_ne.
      destruct Hin as [<-|Hin]; [congruence|].
      cbn [ids List.map] in Hnd. apply NoDup_cons in Hnd as [Hno _].
      intros E. apply Hno. rewrite list_elem_of_In, E.
      unfold ids. now apply in_map.
Qed.

Lemma lengthEffect_unlocks_no_sheet_with_codes_witness :
  unlockedSheets
    (lengthEffect None
       (setActiveSheetId None
          (session [plainSheet "a" "A" []; sharedSheet "s1" "EDIT01" "VIEW01" 100] ∅ "" None)))
    !! "s1"
  = None.
Proof.
  pose proof (lengthEffect_unlocks_no_sheet_with_codes None
                (setActiveSheetId None
                   (session [plainSheet "a" "A" []; sharedSheet "s1" "EDIT01" "VIEW01" 100]
                      ∅ "" None))
                ltac:(vm_compute;
                      repeat (apply NoDup_cons_2;
                              [rewrite list_elem_of_In; simpl; intuition discriminate|]);
                      apply NoDup_nil_2)) as T.
  cbv zeta in T. destruct T as (_ & _ & _ & T).
  apply (T (sharedSheet "s1" "EDIT01" "VIEW01" 100)); [|reflexivity].
  right. now left.
Defined.

Lemma exportNames_distinct_witness :
  exportNames toExport = Some ["Turma A"; "Turma A(1)"; "Sheet"; "Sheet(1)"]
  /\ exists names : list string, exportNames toExport = Some names /\ NoDup names.
Proof.
  split; [vm_compute; reflexivity|].
  destruct (exportNames_distinct toExport) as (names & Hres & _ & Hnd & _).
  exists names. split; assumption.
Defined.

Lemma lookup_unlockAll (l : list Sheet.t) :
  forall (m : gmap string AccessLevel) (i : string),
    (In i (ids l) -> unlockAll l m !! i = Some edit)
    /\ (~ In i (ids l) -> unlockAll l m !! i = m !! i).
Proof.
  unfold unlockAll. induction l as [|s l IH]; intros m i; cbn [fold_left ids List.map].
  - split; [contradiction | reflexivity].
  - destruct (IH (<[Sheet.id s := edit]> m) i) as [Hin Hout].
    destruct (in_dec string_dec i (ids l)) as [Hl|Hl].
    + split.
      * intros _. now apply Hin.
      * intros Hno. exfalso. apply Hno. now right.
    + split.
      * intros [<-|Hi]; [|contradiction]. rewrite (Hout Hl). apply lookup_insert_eq.
      * intros Hno. rewrite (Hout Hl). apply lookup_insert_ne. intros E. apply Hno. now left.
Qed.

(** An upload appends the sheets of the workbook after the ones at hand,
    makes the first of them the active sheet and gives edit access on each
    of them and on no other sheet.  A workbook that cannot be read, or
    that has no sheet, ends in the message for unreadable files with the
    collection as it was. *)
Theorem handleFileUpload_appends_editable_sheets :
  forall (parsedSheets : list Sheet.t) (st : AppState),
    (forall s, In s parsedSheets -> ~ In (Sheet.id s) (ids (sheets st))) ->
    let out := handleFileUpload (Some parsedSheets) st in
    handleFileUpload None st = alerting msgUploadError st
    /\ sheets (after out) = sheets st ++ parsedSheets
    /\ (forall s, In s parsedSheets -> unlockedSheets (after out) !! Sheet.id s = Some edit)
    /\ (forall i, ~ In i (ids parsedSheets) ->
                  unlockedSheets (after out) !! i = unlockedSheets st !! i)
    /\ (parsedSheets = [] ->
        alerts out = [msgUploadError] /\ activeSheetId (after out) = activeSheetId st)
    /\ (forall first others, parsedSheets = first :: others ->
          alerts out = []
          /\ activeSheet (after out) = Some first
          /\ (Sheet.id first <> EmptyString -> canEdit (after out) = true)).
Proof.
  intros parsedSheets st Hfresh out. subst out.
  split; [reflexivity|].
  assert (Hlevels : forall st1,
             unlockedSheets st1 = unlockAll parsedSheets (unlockedSheets st) ->
             (forall s, In s parsedSheets -> unlockedSheets st1 !! Sheet.id s = Some edit)
             /\ (forall i, ~ In i (ids parsedSheets) ->
                           unlockedSheets st1 !! i = unlockedSheets st !! i)).
  { intros st1 ->. split.
    - intros s Hs. apply lookup_unlockAll. unfold ids. now apply in_map.
    - intros i Hi. now apply lookup_unlockAll. }
  unfold handleFileUpload. destruct parsedSheets as [|first others].
  - cbn [after alerts alerting sheets unlockedSheets activeSheetId setSheets setUnlockedSheets].
    split; [reflexivity|]. split; [intros s []|]. split; [reflexivity|].
    split; [intros _; split; reflexivity|]. discriminate.
  - cbn [after alerts done sheets unlockedSheets activeSheetId setSheets setUnlockedSheets
         setActiveSheetId].
    destruct (Hlevels (setUnlockedSheets (unlockAll (first :: others) (unlockedSheets st)) st)
                Logic.eq_refl) as [Hnew Hold].
    split; [reflexivity|]. split; [exact Hnew|]. split; [exact Hold|].
    split; [discriminate|]. intros first' others' [= <- <-].
    split; [reflexivity|].
    set (st' := setActiveSheetId _ _).
    assert (Hact : activeSheet st' = Some first).
    { unfold activeSheet, findSheet. cbn [sheets activeSheetId st' setActiveSheetId setSheets
                                          setUnlockedSheets].
      rewrite find_app_absent.
      - cbn [List.find hasId]. unfold strEq. now rewrite String.eqb_refl.
      - apply (findSheet_absent (Sheet.id first)). apply Hfresh. now left. }
    split; [exact Hact|]. intros Hid.
    apply (canEdit_edit st' first Hact Hid). apply Hnew. now left.
Qed.

Lemma handleFileUpload_appends_editable_sheets_witness :
  canEdit (after (handleFileUpload (Some uploaded) (gradeSession [anaRow]))) = true.
Proof.
  pose proof (handleFileUpload_appends_editable_sheets uploaded (gradeSession [anaRow])) as T.
  cbv zeta in T.
  destruct T as (_ & _ & _ & _ & _ & T).
  - intros s [<-|[<-|[]]]; simpl; intuition discriminate.
  - destruct (T _ _ Logic.eq_refl) as (_ & _ & Hedit). apply Hedit. discriminate.
Defined.
